(** * GPC result extraction and report formatting

    A shallow embedding of the result-extraction routine
    [extract_peak_results], the value formatter
    [format_value_with_uncertainty] and the report builder
    [display_and_save_results] of [enhanced_gpc_automation_v2.py], together
    with the Python primitives they rest on ([str.strip], [str.split],
    the [in] test on strings, [re.search] for the patterns the scripts use,
    [int], [float], float division, and the [.Nf] / [.Ne] format
    specifications).

    Text is a list of characters; a character is a code point below 256.
    Floats are IEEE binary64 values ([spec_float] at precision 53). *)

From Stdlib Require Import ZArith NArith List Ascii String Bool Lia.
From Stdlib Require Import Floats.SpecFloat.
From stdpp Require Import gmap strings list sorting.

Open Scope Z_scope.
Open Scope list_scope.

(* ===================================================================== *)
(** * Part I. Definitions                                                 *)
(* ===================================================================== *)

(** ** Text *)

Definition text := list ascii.

Definition txt (s : string) : text := list_ascii_of_string s.
Arguments txt s%_string.

Definition dquote : ascii := "034"%char.
Definition newline : ascii := "010"%char.

Definition code (c : ascii) : N := N_of_ascii c.

Definition is_digit (c : ascii) : bool :=
  (48 <=? code c)%N && (code c <=? 57)%N.

(** [str.isspace] on code points below 256: TAB..CR, FS..US, SPACE,
    NEL (0x85) and NBSP (0xA0). *)
Definition is_space (c : ascii) : bool :=
  let n := code c in
  ((9 <=? n)%N && (n <=? 13)%N) || ((28 <=? n)%N && (n <=? 32)%N)
  || (n =? 133)%N || (n =? 160)%N.

Definition lower (c : ascii) : ascii :=
  let n := code c in
  if (65 <=? n)%N && (n <=? 90)%N then ascii_of_N (n + 32) else c.

Fixpoint lstrip (space : ascii -> bool) (s : text) : text :=
  match s with
  | c :: s' => if space c then lstrip space s' else s
  | [] => []
  end.

Definition rstrip (space : ascii -> bool) (s : text) : text :=
  rev (lstrip space (rev s)).

Definition strip_by (space : ascii -> bool) (s : text) : text :=
  rstrip space (lstrip space s).

(** [s.strip()] *)
Definition strip (s : text) : text := strip_by is_space s.

(** [s.split('\n')]: never empty, the last line is what follows the last
    newline. *)
Fixpoint split_lines (s : text) : list text :=
  match s with
  | [] => [[]]
  | c :: s' =>
      if Ascii.eqb c newline then [] :: split_lines s'
      else match split_lines s' with
           | l :: ls => (c :: l) :: ls
           | [] => [[c]]
           end
  end.

(** ['\n'.join(lines)] *)
Fixpoint join_lines (ls : list text) : text :=
  match ls with
  | [] => []
  | [l] => l
  | l :: ls' => l ++ newline :: join_lines ls'
  end.

Fixpoint strip_prefix (p s : text) : option text :=
  match p with
  | [] => Some s
  | c :: p' =>
      match s with
      | d :: s' => if Ascii.eqb c d then strip_prefix p' s' else None
      | [] => None
      end
  end.

Definition starts_with (p s : text) : bool :=
  match strip_prefix p s with Some _ => true | None => false end.

(** [p in s] for strings *)
Fixpoint contains (p s : text) : bool :=
  starts_with p s ||
  match s with
  | [] => false
  | _ :: s' => contains p s'
  end.

Definition text_eqb (a b : text) : bool := bool_decide (a = b).

(** [c not in s], and [s != ''] *)
Definition no_char (c : ascii) (s : text) : bool :=
  forallb (fun d => negb (Ascii.eqb d c)) s.

Definition nonempty (s : text) : bool :=
  match s with [] => false | _ :: _ => true end.

(** The value of a run of decimal digits. *)
Definition digit_val (c : ascii) : N := (code c - 48)%N.

Definition int_of_digits (s : text) : N :=
  fold_left (fun acc c => (10 * acc + digit_val c)%N) s 0%N.

(** Decimal rendering of a natural number, as [str(n)]. *)
Definition digit_char (d : N) : ascii := ascii_of_N (48 + d).

Fixpoint dec_aux (fuel : nat) (n : N) : text :=
  match fuel with
  | O => [digit_char (n mod 10)]
  | S f =>
      if (n <? 10)%N then [digit_char n]
      else dec_aux f (n / 10) ++ [digit_char (n mod 10)]
  end.

Definition dec (n : N) : text := dec_aux (N.to_nat (N.log2 n)) n.

(** The [k] low-order decimal digits of [n], most significant first. *)
Fixpoint low_digits (k : nat) (n : N) : text :=
  match k with
  | O => []
  | S k' => low_digits k' (n / 10) ++ [digit_char (n mod 10)]
  end.

(** ** Regular expressions

    The fragment of Python's [re] the scripts use: literals, and a
    repetition of a one-character class, lazy or greedy, with a lower
    bound of zero or one, capturing or not. Matching is by backtracking
    in priority order, as [re] does. *)

Inductive cclass := AnyChar | NotQuote | NotLt | Digit.

Definition in_class (k : cclass) (c : ascii) : bool :=
  match k with
  | AnyChar => negb (Ascii.eqb c newline)
  | NotQuote => negb (Ascii.eqb c dquote)
  | NotLt => negb (Ascii.eqb c "<")
  | Digit => is_digit c
  end.

Inductive item :=
  | Lit (l : text)
  | Rep (k : cclass) (least : nat) (greedy : bool) (capture : bool).

Definition captures := list text.

(** [rep k greedy cont least s]: the repetition consumes a prefix [t] of
    [s] of at least [least] characters of class [k], and the rest of the
    pattern ([cont]) matches what follows. Greedy tries longer prefixes
    first, lazy shorter ones first. *)
Fixpoint rep (k : cclass) (greedy : bool) (cont : text -> option captures)
    (least : nat) (s : text) : option (text * captures) :=
  let stop :=
    match least with
    | O => option_map (fun g => ([], g)) (cont s)
    | S _ => None
    end in
  let more :=
    match s with
    | c :: s' =>
        if in_class k c
        then option_map (fun r => (c :: fst r, snd r))
                        (rep k greedy cont (pred least) s')
        else None
    | [] => None
    end in
  if greedy
  then match more with Some r => Some r | None => stop end
  else match stop with Some r => Some r | None => more end.

(** [re.match]: the pattern anchored at the start of [s]; the result is
    the list of groups in order. *)
Fixpoint match_items (items : list item) (s : text) : option captures :=
  match items with
  | [] => Some []
  | Lit l :: rest =>
      match strip_prefix l s with
      | Some s' => match_items rest s'
      | None => None
      end
  | Rep k least greedy cap :: rest =>
      match rep k greedy (match_items rest) least s with
      | Some (t, g) => Some (if cap then t :: g else g)
      | None => None
      end
  end.

(** [re.search]: the leftmost start position at which the pattern
    matches. *)
Fixpoint re_search (items : list item) (s : text) : option captures :=
  match match_items items s with
  | Some g => Some g
  | None =>
      match s with
      | [] => None
      | _ :: s' => re_search items s'
      end
  end.

(** The lazy skip [.*?]. *)
Definition skip : item := Rep AnyChar 0 false false.
(** The four groups: any run without a double quote (written Q below),
    any run without [<], one or more digits, and the lazy [.+?]. *)
Definition grp_attr : item := Rep NotQuote 0 true true.
Definition grp_text : item := Rep NotLt 0 true true.
Definition grp_digits : item := Rep Digit 1 true true.
Definition grp_name : item := Rep AnyChar 1 false true.

Definition q : text := [dquote].

(** [<name>(.+?)</name>] *)
Definition name_re : list item :=
  [Lit (txt "<name>"); grp_name; Lit (txt "</name>")].

(** [<scalar.*?units=Q(G)Q.*?uncertainty=Q(G)Q.*?peak=Q(\d+)Q.*?>(T)</scalar>]
    with G the quote-free group and T the text group. *)
Definition scalar_re_units_unc_peak : list item :=
  [Lit (txt "<scalar"); skip; Lit (txt "units=" ++ q); grp_attr; Lit q;
   skip; Lit (txt "uncertainty=" ++ q); grp_attr; Lit q;
   skip; Lit (txt "peak=" ++ q); grp_digits; Lit q;
   skip; Lit (txt ">"); grp_text; Lit (txt "</scalar>")].

(** [<scalar.*?units=Q(G)Q.*?peak=Q(\d+)Q.*?uncertainty=Q(G)Q.*?>(T)</scalar>] *)
Definition scalar_re_units_peak_unc : list item :=
  [Lit (txt "<scalar"); skip; Lit (txt "units=" ++ q); grp_attr; Lit q;
   skip; Lit (txt "peak=" ++ q); grp_digits; Lit q;
   skip; Lit (txt "uncertainty=" ++ q); grp_attr; Lit q;
   skip; Lit (txt ">"); grp_text; Lit (txt "</scalar>")].

(** [<scalar.*?uncertainty=Q(G)Q.*?peak=Q(\d+)Q.*?>(T)</scalar>] *)
Definition scalar_re_unc_peak : list item :=
  [Lit (txt "<scalar");
   skip; Lit (txt "uncertainty=" ++ q); grp_attr; Lit q;
   skip; Lit (txt "peak=" ++ q); grp_digits; Lit q;
   skip; Lit (txt ">"); grp_text; Lit (txt "</scalar>")].

(** [<scalar.*?peak=Q(\d+)Q.*?uncertainty=Q(G)Q.*?>(T)</scalar>] *)
Definition scalar_re_peak_unc : list item :=
  [Lit (txt "<scalar");
   skip; Lit (txt "peak=" ++ q); grp_digits; Lit q;
   skip; Lit (txt "uncertainty=" ++ q); grp_attr; Lit q;
   skip; Lit (txt ">"); grp_text; Lit (txt "</scalar>")].

(** ** Floats

    Python's [float] is IEEE binary64. *)

Definition float := spec_float.
Definition prec : Z := 53.
Definition emax : Z := 1024.

Definition float_mul : float -> float -> float := SFmul prec emax.

(** [float(n)] for an integer [n]. *)
Definition float_of_Z (n : Z) : float := binary_normalize prec emax n 0 false.

Definition is_zero (x : float) : bool :=
  match x with S754_zero _ => true | _ => false end.

Definition is_finite (x : float) : bool :=
  match x with S754_zero _ | S754_finite _ _ _ => true | _ => false end.

(** [x >= y] *)
Definition float_ge (x y : float) : bool :=
  match SFcompare x y with
  | Some Gt | Some Eq => true
  | _ => false
  end.

(** The double nearest to [(-1)^neg * m * 10^e] (ties to even), as
    [strtod] returns it. *)
Definition float_of_decimal (neg : bool) (m : N) (e : Z) : float :=
  match e with
  | Zneg k =>
      match m with
      | N0 => S754_zero neg
      | Npos p =>
          let '(qz, ez, lz) :=
            SFdiv_core_binary prec emax (Zpos p) 0 (10 ^ Zpos k) 0 in
          binary_round_aux prec emax neg qz ez lz
      end
  | _ => binary_normalize prec emax (cond_Zopp neg (Z.of_N m * 10 ^ e)) 0 neg
  end.

(** Underscores in a numeric literal: allowed only between two digits. *)
Fixpoint strip_underscores (prev : ascii) (s : text) : option text :=
  match s with
  | [] => if Ascii.eqb prev "_" then None else Some []
  | c :: s' =>
      if Ascii.eqb c "_"
      then (if is_digit prev then strip_underscores c s' else None)
      else if Ascii.eqb prev "_" && negb (is_digit c) then None
      else option_map (cons c) (strip_underscores c s')
  end.

Definition parse_sign (s : text) : bool * text :=
  match s with
  | c :: r =>
      if Ascii.eqb c "-" then (true, r)
      else if Ascii.eqb c "+" then (false, r)
      else (false, s)
  | [] => (false, s)
  end.

(** The longest prefix of digits, and what follows it. *)
Fixpoint span_digits (s : text) : text * text :=
  match s with
  | c :: s' =>
      if is_digit c
      then let '(d, r) := span_digits s' in (c :: d, r)
      else ([], s)
  | [] => ([], [])
  end.

(** digits [. digits] [(e|E) [sign] digits], at least one digit before the
    exponent; the result is the mantissa and the power of ten. *)
Definition parse_number (s : text) : option (N * Z) :=
  let '(ip, r1) := span_digits s in
  let '(fp, r2) :=
    match r1 with
    | c :: r => if Ascii.eqb c "." then span_digits r else ([], r1)
    | [] => ([], r1)
    end in
  match ip ++ fp with
  | [] => None
  | _ :: _ =>
      let m := int_of_digits (ip ++ fp) in
      let shift := Z.of_nat (length fp) in
      match r2 with
      | [] => Some (m, - shift)
      | c :: r3 =>
          if Ascii.eqb c "e" || Ascii.eqb c "E"
          then
            let '(eneg, r4) := parse_sign r3 in
            match span_digits r4 with
            | ((_ :: _) as ed, []) =>
                Some (m, cond_Zopp eneg (Z.of_N (int_of_digits ed)) - shift)
            | _ => None
            end
          else None
      end
  end.

(** The white space [float] skips at both ends: that of [str.isspace]
    but for FS..US, which it leaves in place (and then rejects). *)
Definition is_float_space (c : ascii) : bool :=
  let n := code c in
  ((9 <=? n)%N && (n <=? 13)%N) || (n =? 32)%N
  || (n =? 133)%N || (n =? 160)%N.

(** [float(s)] for a string: [None] stands for [ValueError]. *)
Definition float_of_text (s : text) : option float :=
  match strip_underscores "000"%char (strip_by is_float_space s) with
  | None => None
  | Some s1 =>
      let '(neg, r) := parse_sign s1 in
      let w := map lower r in
      if text_eqb w (txt "inf") || text_eqb w (txt "infinity")
      then Some (S754_infinity neg)
      else if text_eqb w (txt "nan") then Some S754_nan
      else match parse_number r with
           | Some (m, e) => Some (float_of_decimal neg m e)
           | None => None
           end
  end.

(** *** Rendering floats *)

(** A positive finite double [m * 2^e] as a fraction of naturals. *)
Definition ratio (m : positive) (e : Z) : N * N :=
  match e with
  | Zneg k => (Npos m, 2 ^ Npos k)%N
  | _ => (Npos m * 2 ^ Z.to_N e, 1)%N
  end.

(** [a / b] rounded to the nearest natural, ties to even. *)
Definition round_div (a b : N) : N :=
  let d := (a / b)%N in
  match (2 * (a mod b) ?= b)%N with
  | Lt => d
  | Gt => (d + 1)%N
  | Eq => if N.even d then d else (d + 1)%N
  end.

Definition sign_text (neg : bool) : text := if neg then txt "-" else [].

(** The scaled natural [n] (the value times [10^k]) with the point put
    back: as many integer digits as needed, [k] fractional ones. *)
Definition fixed_digits (k : nat) (n : N) : text :=
  dec (n / 10 ^ N.of_nat k) ++
  match k with
  | O => []
  | S _ => txt "." ++ low_digits k n
  end.

(** [format(x, '.kf')] *)
Definition format_f (k : nat) (x : float) : text :=
  match x with
  | S754_nan => txt "nan"
  | S754_infinity s => sign_text s ++ txt "inf"
  | S754_zero s => sign_text s ++ fixed_digits k 0
  | S754_finite s m e =>
      let '(a, b) := ratio m e in
      sign_text s ++ fixed_digits k (round_div (a * 10 ^ N.of_nat k) b)
  end.

Fixpoint log10_up (fuel : nat) (a b : N) : nat :=
  match fuel with
  | O => O
  | S f => if (b * 10 <=? a)%N then S (log10_up f a (b * 10)) else O
  end.

Fixpoint log10_down (fuel : nat) (a b : N) : nat :=
  match fuel with
  | O => O
  | S f => if (a <? b)%N then S (log10_down f (a * 10) b) else O
  end.

(** The decimal exponent of [a / b]: the [d] with
    [10^d <= a / b < 10^(d+1)]. *)
Definition ilog10 (a b : N) : Z :=
  if (b <=? a)%N
  then Z.of_nat (log10_up (N.to_nat (N.size a)) a b)
  else - Z.of_nat (log10_down (N.to_nat (N.size b)) a b).

Definition exponent_text (d : Z) : text :=
  (if d <? 0 then txt "-" else txt "+") ++
  (if Z.abs d <? 10 then txt "0" else []) ++ dec (Z.to_N (Z.abs d)).

Definition sci_digits (k : nat) (n : N) (d : Z) : text :=
  fixed_digits k n ++ txt "e" ++ exponent_text d.

(** [format(x, '.ke')] *)
Definition format_e (k : nat) (x : float) : text :=
  match x with
  | S754_nan => txt "nan"
  | S754_infinity s => sign_text s ++ txt "inf"
  | S754_zero s => sign_text s ++ sci_digits k 0 0
  | S754_finite s m e =>
      let '(a, b) := ratio m e in
      let d := ilog10 a b in
      let n :=
        if d <=? Z.of_nat k
        then round_div (a * 10 ^ Z.to_N (Z.of_nat k - d)) b
        else round_div a (b * 10 ^ Z.to_N (d - Z.of_nat k)) in
      sign_text s ++
      (if (n =? 10 ^ N.of_nat (S k))%N
       then sci_digits k (n / 10) (d + 1)
       else sci_digits k n d)
  end.

(** *** The shape of a rendered number *)

(** An optional minus sign, one or more digits, a point, and exactly [k]
    digits. *)
Definition fixed_shape (k : nat) (s : text) : bool :=
  let body :=
    match s with
    | c :: r => if Ascii.eqb c "-" then r else s
    | [] => s
    end in
  let '(ip, r) := span_digits body in
  nonempty ip &&
  match r with
  | c :: f => Ascii.eqb c "." && Nat.eqb (length f) k && forallb is_digit f
  | [] => false
  end.

(** One digit that is not zero, a point, exactly [k] digits, [e+], and
    two or more digits. *)
Definition sci_shape (k : nat) (s : text) : bool :=
  match s with
  | d :: c :: r =>
      is_digit d && negb (Ascii.eqb d "0") && Ascii.eqb c "." &&
      let '(f, r') := span_digits r in
      Nat.eqb (length f) k &&
      match r' with
      | e :: sg :: x =>
          Ascii.eqb e "e" && Ascii.eqb sg "+" &&
          Nat.leb 2 (length x) && forallb is_digit x
      | _ => false
      end
  | _ => false
  end.

(** ** Exceptions *)

Inductive exn := ValueError | ZeroDivisionError.

Inductive result (A : Type) :=
  | Ok (a : A)
  | Raise (e : exn).
Arguments Ok {A} a.
Arguments Raise {A} e.

Definition bind {A B : Type} (r : result A) (k : A -> result B) : result B :=
  match r with
  | Ok a => k a
  | Raise e => Raise e
  end.

Notation "x <- r ;; k" := (bind r (fun x => k))
  (at level 100, r at next level, right associativity).

(** [float(s)] as a step that may raise. *)
Definition to_float (s : text) : result float :=
  match float_of_text s with
  | Some x => Ok x
  | None => Raise ValueError
  end.

(** [int(s)] for a run of decimal digits, which is what a [\d+] group
    holds. The interpreter refuses a run of more than
    [sys.int_info.default_max_str_digits] digits, leading zeros counted,
    with [ValueError]. *)
Definition MAX_STR_DIGITS : nat := 4300.

Definition to_int (s : text) : result N :=
  if Nat.ltb MAX_STR_DIGITS (length s) then Raise ValueError
  else Ok (int_of_digits s).

(** [x / y] on floats: a zero divisor raises. *)
Definition float_div (x y : float) : result float :=
  if is_zero y then Raise ZeroDivisionError else Ok (SFdiv prec emax x y).

(** ** The result table *)

Record Measurement := {
  value : float;
  units : text;
  uncertainty_pct : float
}.

Abbreviation PeakRecord := (gmap text Measurement).
Abbreviation ResultTable := (gmap N (gmap text Measurement)).

(** [if peak_num not in peak_data: peak_data[peak_num] = {}] followed by
    [peak_data[peak_num][name] = m]. *)
Definition store (peak_data : ResultTable) (peak_num : N) (name : text)
    (m : Measurement) : ResultTable :=
  let peak_data1 :=
    match peak_data !! peak_num with
    | None => <[peak_num := ∅]> peak_data
    | Some _ => peak_data
    end in
  match peak_data1 !! peak_num with
  | Some record => <[peak_num := <[name := m]> record]> peak_data1
  | None => peak_data1
  end.

(** ** extract_peak_results *)

Definition marker (type : string) : text :=
  txt "<result type=" ++ q ++ txt type ++ q ++ txt ">".

Definition NA : text := txt "n/a".
Definition INVALID : text := txt "~Invalid".

(** The tail every branch shares: the sentinel test on [value_str], the
    conversion, the percentage and the store. *)
Definition record_value (peak_data : ResultTable) (peak_num : N)
    (name units : text) (uncertainty : float) (value_str : text)
    : result ResultTable :=
  if negb (text_eqb value_str NA) && negb (text_eqb value_str INVALID)
  then
    value <- to_float value_str ;;
    quotient <- float_div uncertainty value ;;
    let pct_uncertainty := float_mul quotient (float_of_Z 100) in
    Ok (store peak_data peak_num name
          {| value := value; units := units;
             uncertainty_pct := pct_uncertainty |})
  else Ok peak_data.

(** The scalar line of a block with a [units] attribute: the ordering
    units, uncertainty, peak is tried first, then units, peak,
    uncertainty. *)
Definition scalar_with_units (scalar_line : text) (name : text)
    (peak_data : ResultTable) : result ResultTable :=
  match re_search scalar_re_units_unc_peak scalar_line with
  | Some (g1 :: g2 :: g3 :: g4 :: _) =>
      let units := g1 in
      uncertainty <- to_float g2 ;;
      peak_num <- to_int g3 ;;
      let value_str := strip g4 in
      record_value peak_data peak_num name units uncertainty value_str
  | _ =>
      match re_search scalar_re_units_peak_unc scalar_line with
      | Some (g1 :: g2 :: g3 :: g4 :: _) =>
          let units := g1 in
          peak_num <- to_int g2 ;;
          uncertainty <- to_float g3 ;;
          let value_str := strip g4 in
          record_value peak_data peak_num name units uncertainty value_str
      | _ => Ok peak_data
      end
  end.

(** The scalar line of a polydispersity block: no [units] group. *)
Definition scalar_without_units (scalar_line : text)
    (peak_data : ResultTable) : result ResultTable :=
  match re_search scalar_re_unc_peak scalar_line with
  | Some (g1 :: g2 :: g3 :: _) =>
      uncertainty <- to_float g1 ;;
      peak_num <- to_int g2 ;;
      let value_str := strip g3 in
      record_value peak_data peak_num (txt "Mw/Mn") [] uncertainty value_str
  | _ =>
      match re_search scalar_re_peak_unc scalar_line with
      | Some (g1 :: g2 :: g3 :: _) =>
          peak_num <- to_int g1 ;;
          uncertainty <- to_float g2 ;;
          let value_str := strip g3 in
          record_value peak_data peak_num (txt "Mw/Mn") [] uncertainty
            value_str
      | _ => Ok peak_data
      end
  end.

Definition molar_mass_block (name_line scalar_line : text)
    (peak_data : ResultTable) : result ResultTable :=
  match re_search name_re name_line with
  | Some (name :: _) => scalar_with_units scalar_line name peak_data
  | _ => Ok peak_data
  end.

Definition polydispersity_block (name_line scalar_line : text)
    (peak_data : ResultTable) : result ResultTable :=
  if contains (txt "<name>Mw/Mn</name>") name_line
  then scalar_without_units scalar_line peak_data
  else Ok peak_data.

Definition rms_radius_block (name_line scalar_line : text)
    (peak_data : ResultTable) : result ResultTable :=
  match re_search name_re name_line with
  | Some (name :: _) =>
      if text_eqb name (txt "rz")
      then scalar_with_units scalar_line (txt "rz") peak_data
      else Ok peak_data
  | _ => Ok peak_data
  end.

(** One iteration of the loop: [line] is the stripped line at index [i],
    [rest] the lines after it. The two look-ahead lines exist when
    [i + 2 < len(lines)]. *)
Definition process_line (line : text) (rest : list text)
    (peak_data : ResultTable) : result ResultTable :=
  if contains (marker "molar mass") line then
    match rest with
    | l1 :: l2 :: _ => molar_mass_block (strip l1) (strip l2) peak_data
    | _ => Ok peak_data
    end
  else if contains (marker "polydispersity") line then
    match rest with
    | l1 :: l2 :: _ => polydispersity_block (strip l1) (strip l2) peak_data
    | _ => Ok peak_data
    end
  else if contains (marker "rms radius") line then
    match rest with
    | l1 :: l2 :: _ => rms_radius_block (strip l1) (strip l2) peak_data
    | _ => Ok peak_data
    end
  else Ok peak_data.

(** The [for] loop over the lines, from the current line on. *)
Fixpoint scan_lines (lines : list text) (peak_data : ResultTable)
    : result ResultTable :=
  match lines with
  | [] => Ok peak_data
  | line :: rest =>
      peak_data1 <- process_line (strip line) rest peak_data ;;
      scan_lines rest peak_data1
  end.

(** The body of the [try]. *)
Definition scan_document (xml_content : text) : result ResultTable :=
  scan_lines (split_lines xml_content) ∅.

(** [extract_peak_results]: whatever is raised inside is caught and the
    empty table returned. *)
Definition extract_peak_results (xml_content : text) : ResultTable :=
  match scan_document xml_content with
  | Ok peak_data => peak_data
  | Raise _ => ∅
  end.

(** ** format_value_with_uncertainty and the report

    Text that is written out is given as its UTF-8 bytes, the way the
    summary file holds it. The literals are the ones of the script. *)

Definition PDI_DECIMAL_PLACES : nat := 3.
Definition MW_DECIMAL_PLACES : nat := 1.

(** What stands between the opening parenthesis and the percentage. *)
Definition PLUS_MINUS : text := txt "¬±".

Definition format_value_with_uncertainty (value : float) (units : text)
    (uncertainty_pct : float) (extra_precision : bool) : text :=
  let formatted_value :=
    if float_ge value (float_of_Z 1000)
    then format_e 3 value
    else format_f 1 value in
  let precision :=
    if extra_precision then PDI_DECIMAL_PLACES else MW_DECIMAL_PLACES in
  formatted_value ++ txt " (" ++ PLUS_MINUS ++
  format_f precision uncertainty_pct ++ txt "%)".

Definition TITLE : text := txt "üéØ MOLECULAR WEIGHT ANALYSIS RESULTS".
Definition PEAK_HEADER : text := txt "üî¨ Peak ".
Definition MASS_HEADER : text := txt "üìä Molar mass moments (g/mol)".
Definition PDI_HEADER : text := txt "üìà Polydispersity".
Definition RADIUS_HEADER : text := txt "üîµ RMS radius moments (nm)".

Definition has_key (data : PeakRecord) (key : string) : bool :=
  bool_decide (is_Some (data !! txt key)).

(** [  key: formatted] when [key] is in [data]. *)
Definition entry_line (data : PeakRecord) (key : string)
    (extra_precision : bool) : list text :=
  match data !! txt key with
  | Some m =>
      [txt "  " ++ txt key ++ txt ": " ++
       format_value_with_uncertainty (value m)
         (if extra_precision then [] else units m)
         (uncertainty_pct m) extra_precision]
  | None => []
  end.

Definition mass_section (data : PeakRecord) : list text :=
  if existsb (has_key data) ["Mn"; "Mw"; "Mp"; "Mz"]%string
  then [MASS_HEADER; []] ++
       entry_line data "Mn" false ++
       entry_line data "Mw" false ++
       entry_line data "Mp" false ++
       [[]]
  else [].

Definition pdi_section (data : PeakRecord) : list text :=
  if has_key data "Mw/Mn"
  then [PDI_HEADER; []] ++ entry_line data "Mw/Mn" true ++ [[]]
  else [].

Definition radius_section (data : PeakRecord) : list text :=
  if has_key data "rz"
  then [RADIUS_HEADER; []] ++ entry_line data "rz" false ++ [[]]
  else [].

Definition peak_section (peak_num : N) (data : PeakRecord) : list text :=
  [newline :: PEAK_HEADER ++ dec peak_num; repeat "-"%char 30] ++
  mass_section data ++ pdi_section data ++ radius_section data.

(** [sorted(peak_data.keys())] *)
Definition sorted_peaks (peak_data : ResultTable) : list N :=
  merge_sort N.le (map fst (map_to_list peak_data)).

(** The [summary_lines] that [display_and_save_results] builds. *)
Definition summary_lines (peak_data : ResultTable) : list text :=
  [repeat "="%char 50; TITLE; repeat "="%char 50] ++
  concat (map (fun peak_num =>
                 match peak_data !! peak_num with
                 | Some data => peak_section peak_num data
                 | None => []
                 end)
              (sorted_peaks peak_data)).

(** What is written to the summary file. *)
Definition summary_text (peak_data : ResultTable) : text :=
  join_lines (summary_lines peak_data).

(** ** The older copy of the routine

    [extract_molecular_weights.py] has the same scan with three
    differences: only [n/a] is a sentinel; the polydispersity branch
    converts the scalar text at once, with no sentinel test; and the
    formatter takes no flag and writes the percentage with one fractional
    digit. *)

Module MolecularWeights.

Definition record_value (peak_data : ResultTable) (peak_num : N)
    (name units : text) (uncertainty : float) (value_str : text)
    : result ResultTable :=
  if negb (text_eqb value_str NA)
  then
    value <- to_float value_str ;;
    quotient <- float_div uncertainty value ;;
    let pct_uncertainty := float_mul quotient (float_of_Z 100) in
    Ok (store peak_data peak_num name
          {| value := value; units := units;
             uncertainty_pct := pct_uncertainty |})
  else Ok peak_data.

Definition scalar_with_units (scalar_line : text) (name : text)
    (peak_data : ResultTable) : result ResultTable :=
  match re_search scalar_re_units_unc_peak scalar_line with
  | Some (g1 :: g2 :: g3 :: g4 :: _) =>
      let units := g1 in
      uncertainty <- to_float g2 ;;
      peak_num <- to_int g3 ;;
      let value_str := strip g4 in
      record_value peak_data peak_num name units uncertainty value_str
  | _ =>
      match re_search scalar_re_units_peak_unc scalar_line with
      | Some (g1 :: g2 :: g3 :: g4 :: _) =>
          let units := g1 in
          peak_num <- to_int g2 ;;
          uncertainty <- to_float g3 ;;
          let value_str := strip g4 in
          record_value peak_data peak_num name units uncertainty value_str
      | _ => Ok peak_data
      end
  end.

Definition store_polydispersity (peak_data : ResultTable) (peak_num : N)
    (uncertainty value : float) : result ResultTable :=
  quotient <- float_div uncertainty value ;;
  let pct_uncertainty := float_mul quotient (float_of_Z 100) in
  Ok (store peak_data peak_num (txt "Mw/Mn")
        {| value := value; units := [];
           uncertainty_pct := pct_uncertainty |}).

Definition scalar_without_units (scalar_line : text)
    (peak_data : ResultTable) : result ResultTable :=
  match re_search scalar_re_unc_peak scalar_line with
  | Some (g1 :: g2 :: g3 :: _) =>
      uncertainty <- to_float g1 ;;
      peak_num <- to_int g2 ;;
      value <- to_float g3 ;;
      store_polydispersity peak_data peak_num uncertainty value
  | _ =>
      match re_search scalar_re_peak_unc scalar_line with
      | Some (g1 :: g2 :: g3 :: _) =>
          peak_num <- to_int g1 ;;
          uncertainty <- to_float g2 ;;
          value <- to_float g3 ;;
          store_polydispersity peak_data peak_num uncertainty value
      | _ => Ok peak_data
      end
  end.

Definition molar_mass_block (name_line scalar_line : text)
    (peak_data : ResultTable) : result ResultTable :=
  match re_search name_re name_line with
  | Some (name :: _) => scalar_with_units scalar_line name peak_data
  | _ => Ok peak_data
  end.

Definition polydispersity_block (name_line scalar_line : text)
    (peak_data : ResultTable) : result ResultTable :=
  if contains (txt "<name>Mw/Mn</name>") name_line
  then scalar_without_units scalar_line peak_data
  else Ok peak_data.

Definition rms_radius_block (name_line scalar_line : text)
    (peak_data : ResultTable) : result ResultTable :=
  match re_search name_re name_line with
  | Some (name :: _) =>
      if text_eqb name (txt "rz")
      then scalar_with_units scalar_line (txt "rz") peak_data
      else Ok peak_data
  | _ => Ok peak_data
  end.

Definition process_line (line : text) (rest : list text)
    (peak_data : ResultTable) : result ResultTable :=
  if contains (marker "molar mass") line then
    match rest with
    | l1 :: l2 :: _ => molar_mass_block (strip l1) (strip l2) peak_data
    | _ => Ok peak_data
    end
  else if contains (marker "polydispersity") line then
    match rest with
    | l1 :: l2 :: _ => polydispersity_block (strip l1) (strip l2) peak_data
    | _ => Ok peak_data
    end
  else if contains (marker "rms radius") line then
    match rest with
    | l1 :: l2 :: _ => rms_radius_block (strip l1) (strip l2) peak_data
    | _ => Ok peak_data
    end
  else Ok peak_data.

Fixpoint scan_lines (lines : list text) (peak_data : ResultTable)
    : result ResultTable :=
  match lines with
  | [] => Ok peak_data
  | line :: rest =>
      peak_data1 <- process_line (strip line) rest peak_data ;;
      scan_lines rest peak_data1
  end.

Definition scan_document (xml_content : text) : result ResultTable :=
  scan_lines (split_lines xml_content) ∅.

Definition extract_peak_results (xml_content : text) : ResultTable :=
  match scan_document xml_content with
  | Ok peak_data => peak_data
  | Raise _ => ∅
  end.

Definition format_value_with_uncertainty (value : float) (units : text)
    (uncertainty_pct : float) : text :=
  let formatted_value :=
    if float_ge value (float_of_Z 1000)
    then format_e 3 value
    else format_f 1 value in
  formatted_value ++ txt " (" ++ PLUS_MINUS ++
  format_f 1 uncertainty_pct ++ txt "%)".

End MolecularWeights.

(** ** Measurement blocks

    The three-line pattern of the results document, as data: the result
    type, the name, and the attributes and text of the scalar line, in one
    of the two attribute orders. A polydispersity scalar has no [units]
    attribute. *)

Inductive result_type := MolarMass | Polydispersity | RmsRadius.

Inductive attr_order := UncertaintyThenPeak | PeakThenUncertainty.

Record Block := {
  b_type : result_type;
  b_name : text;
  b_order : attr_order;
  b_units : text;
  b_uncertainty : text;
  b_peak : text;
  b_value : text
}.

Definition type_tag (t : result_type) : string :=
  match t with
  | MolarMass => "molar mass"
  | Polydispersity => "polydispersity"
  | RmsRadius => "rms radius"
  end.

Definition attr (key : string) (v : text) : text :=
  txt " " ++ txt key ++ txt "=" ++ q ++ v ++ q.

Definition marker_line (b : Block) : text := marker (type_tag (b_type b)).

Definition name_line (b : Block) : text :=
  txt "<name>" ++ b_name b ++ txt "</name>".

Definition scalar_line (b : Block) : text :=
  txt "<scalar" ++
  match b_type b with
  | Polydispersity => []
  | _ => attr "units" (b_units b)
  end ++
  match b_order b with
  | UncertaintyThenPeak =>
      attr "uncertainty" (b_uncertainty b) ++ attr "peak" (b_peak b)
  | PeakThenUncertainty =>
      attr "peak" (b_peak b) ++ attr "uncertainty" (b_uncertainty b)
  end ++
  txt ">" ++ b_value b ++ txt "</scalar>".

Definition with_order (o : attr_order) (b : Block) : Block :=
  {| b_type := b_type b; b_name := b_name b; b_order := o;
     b_units := b_units b; b_uncertainty := b_uncertainty b;
     b_peak := b_peak b; b_value := b_value b |}.

(** A name is not empty and holds no [<] and no newline. *)
Definition name_ok (n : text) : bool :=
  nonempty n && no_char "<" n && no_char newline n.

(** A well-formed block: a name as above; attribute values without a
    double quote; a peak that is a non-empty run of digits; a scalar text
    without [<] and without a double quote. *)
Definition well_formed (b : Block) : bool :=
  name_ok (b_name b)
  && no_char dquote (b_units b)
  && no_char dquote (b_uncertainty b)
  && nonempty (b_peak b) && forallb is_digit (b_peak b)
  && no_char "<" (b_value b) && no_char dquote (b_value b).

(** The same, one fact at a time. *)
Record well_formed_parts (b : Block) : Prop := {
  wf_name : nonempty (b_name b) = true;
  wf_name_lt : no_char "<" (b_name b) = true;
  wf_name_nl : no_char newline (b_name b) = true;
  wf_units : no_char dquote (b_units b) = true;
  wf_unc : no_char dquote (b_uncertainty b) = true;
  wf_peak : nonempty (b_peak b) = true;
  wf_digits : forallb is_digit (b_peak b) = true;
  wf_value_lt : no_char "<" (b_value b) = true;
  wf_value_q : no_char dquote (b_value b) = true
}.

(** The names the extractor records under each type. *)
Definition recorded_name (b : Block) : bool :=
  match b_type b with
  | MolarMass => true
  | Polydispersity => text_eqb (b_name b) (txt "Mw/Mn")
  | RmsRadius => text_eqb (b_name b) (txt "rz")
  end.

(** The units a block is stored with: none for polydispersity. *)
Definition stored_units (b : Block) : text :=
  match b_type b with
  | Polydispersity => []
  | _ => b_units b
  end.

Definition peak_of (b : Block) : N := int_of_digits (b_peak b).

(** The peak number is one [int] converts: at most [MAX_STR_DIGITS]
    digits. *)
Definition short_peak (b : Block) : bool :=
  Nat.leb (length (b_peak b)) MAX_STR_DIGITS.

(** The three lines [l0], [l1], [l2] hold the block [b], up to the white
    space around each line. *)
Definition holds_block (b : Block) (l0 l1 l2 : text) : Prop :=
  strip l0 = marker_line b /\ strip l1 = name_line b /\
  strip l2 = scalar_line b.

(** The block [b] stands at line [i] of [lines]. *)
Definition block_at (lines : list text) (i : nat) (b : Block) : Prop :=
  exists l0 l1 l2,
    lines !! i = Some l0 /\ lines !! S i = Some l1 /\
    lines !! S (S i) = Some l2 /\ holds_block b l0 l1 l2.

(** The double [100.0], that is [7036874417766400 * 2^-46]. *)
Definition hundred : float := S754_finite false 7036874417766400 (-46).

(** [(x / v) * 100] in binary64 arithmetic, round to nearest even, written
    with the operations of the library. *)
Definition percent_of (x v : float) : float :=
  SFmul 53 1024 (SFdiv 53 1024 x v) hundred.

(** The measurement a block denotes: value [v], uncertainty [x], and the
    percentage [(x / v) * 100]. *)
Definition measurement_of (b : Block) (x v : float) : Measurement :=
  {| value := v; units := stored_units b;
     uncertainty_pct := percent_of x v |}.

(** The block has a numeric uncertainty [x] and a numeric value [v] that
    is not zero. *)
Definition measures (b : Block) (x v : float) : Prop :=
  float_of_text (b_uncertainty b) = Some x /\
  float_of_text (strip (b_value b)) = Some v /\
  is_zero v = false.


(** The iteration of the loop at line [k], on the table [t]. *)
Definition step_at (lines : list text) (k : nat) (t : ResultTable)
    : result ResultTable :=
  match drop k lines with
  | line :: rest => process_line (strip line) rest t
  | [] => Ok t
  end.

(** ** What one step of the loop does to the table

    Read off [process_line] itself, run on the empty table: nothing, or
    one entry stored. *)

Definition sole_entry (t : ResultTable) : option (N * text * Measurement) :=
  match map_to_list t with
  | [(p, r)] =>
      match map_to_list r with
      | [(n, m)] => Some (p, n, m)
      | _ => None
      end
  | _ => None
  end.

Definition effect_of (line : text) (rest : list text)
    : result (option (N * text * Measurement)) :=
  t <- process_line line rest ∅ ;; Ok (sole_entry t).

Definition effect_at (lines : list text) (k : nat)
    : result (option (N * text * Measurement)) :=
  match drop k lines with
  | line :: rest => effect_of (strip line) rest
  | [] => Ok None
  end.

(** The step at line [k] stores something under [peak], [name]. *)
Definition writes_at (lines : list text) (k : nat) (peak : N) (name : text)
    : Prop :=
  exists m, effect_at lines k = Ok (Some (peak, name, m)).

(** The same as a test, and the test that no line of [lines] outside
    those [skipped] writes under [peak], [name]. *)
Definition writes_key (lines : list text) (k : nat) (peak : N) (name : text)
    : bool :=
  match effect_at lines k with
  | Ok (Some (p, n, _)) => bool_decide (p = peak) && bool_decide (n = name)
  | _ => false
  end.

Definition no_writes_except (skipped : nat -> bool) (lines : list text)
    (peak : N) (name : text) : bool :=
  forallb (fun k => skipped k || negb (writes_key lines k peak name))
    (seq 0 (length lines)).

(** [peak_data[peak][name]], when both keys are there. *)
Definition lookup2 (t : ResultTable) (peak : N) (name : text)
    : option Measurement :=
  match t !! peak with
  | Some r => r !! name
  | None => None
  end.

(** The table after a step that stores [w], or stores nothing. *)
Definition apply_effect (w : option (N * text * Measurement))
    (t : ResultTable) : ResultTable :=
  match w with
  | Some (p, n, m) => store t p n m
  | None => t
  end.

(** A step does one of three things, whatever the table: nothing, raise,
    or store one entry. *)
Definition uniform (f : ResultTable -> result ResultTable) : Prop :=
  (forall t, f t = Ok t) \/
  (exists e, forall t, f t = Raise e) \/
  (exists p n m, forall t, f t = Ok (store t p n m)).

(** ** Vocabulary of the proofs about patterns *)

(** The two alternatives of a repetition: stop here, or take one more
    character. *)
Definition rep_stop (cont : text -> option captures) (least : nat) (s : text)
    : option (text * captures) :=
  match least with
  | O => option_map (fun g => ([], g)) (cont s)
  | S _ => None
  end.

Definition rep_more (k : cclass) (greedy : bool)
    (cont : text -> option captures) (least : nat) (s : text)
    : option (text * captures) :=
  match s with
  | c :: s' =>
      if in_class k c
      then option_map (fun r => (c :: fst r, snd r))
             (rep k greedy cont (pred least) s')
      else None
  | [] => None
  end.

(** What follows a greedy group is not of its class. *)
Definition boundary (k : cclass) (b : text) : bool :=
  match b with
  | [] => true
  | c :: _ => negb (in_class k c)
  end.

(** The literals of a pattern, in order. *)
Fixpoint lits (items : list item) : list text :=
  match items with
  | [] => []
  | Lit l :: rest => l :: lits rest
  | Rep _ _ _ _ :: rest => lits rest
  end.

(** [s] holds the texts [ls] one after the other, in this order. *)
Fixpoint in_order (ls : list text) (s : text) : Prop :=
  match ls with
  | [] => True
  | l :: ls' => exists a b, s = a ++ l ++ b /\ in_order ls' b
  end.

(** The number of double quotes of a text. *)
Fixpoint quotes (s : text) : nat :=
  match s with
  | [] => O
  | c :: s' => if Ascii.eqb c dquote then S (quotes s') else quotes s'
  end.

Definition sum_quotes (ls : list text) : nat := list_sum (map quotes ls).

(** ** Example documents *)

Definition block (type : result_type) (name : string) (order : attr_order)
    (units uncertainty peak value : string) : Block :=
  {| b_type := type; b_name := txt name; b_order := order;
     b_units := txt units; b_uncertainty := txt uncertainty;
     b_peak := txt peak; b_value := txt value |}.

(** A block as it stands in a results file: indented, and closed by a
    fourth line. *)
Definition block_lines (b : Block) : list text :=
  [txt "  " ++ marker_line b;
   txt "    " ++ name_line b;
   txt "    " ++ scalar_line b;
   txt "  </result>"].

Definition document (bs : list Block) : text :=
  join_lines (txt "<results>" :: concat (map block_lines bs) ++
              [txt "</results>"]).

Definition mn_block : Block :=
  block MolarMass "Mn" UncertaintyThenPeak "g/mol" "300" "1" "15000".
Definition mw_block : Block :=
  block MolarMass "Mw" PeakThenUncertainty "g/mol" "600" "1" "30000".
Definition mz_block : Block :=
  block MolarMass "Mz" UncertaintyThenPeak "g/mol" "900" "1" "45000".
Definition pdi_block : Block :=
  block Polydispersity "Mw/Mn" UncertaintyThenPeak "" "0.04" "1" "2.0".
Definition rz_block : Block :=
  block RmsRadius "rz" PeakThenUncertainty "nm" "0.5" "2" "12.5".
Definition rn_block : Block :=
  block RmsRadius "rn" UncertaintyThenPeak "nm" "0.5" "2" "11.0".
Definition mn_again_block : Block :=
  block MolarMass "Mn" PeakThenUncertainty "g/mol" "160" "1" "16000".
Definition zero_block : Block :=
  block MolarMass "Mp" UncertaintyThenPeak "g/mol" "0.1" "1" "0".
Definition garbled_block : Block :=
  block MolarMass "Mp" UncertaintyThenPeak "g/mol" "0.1" "1" "12,5".
Definition missing_block : Block :=
  block MolarMass "Mp" UncertaintyThenPeak "g/mol" "0.1" "1" "n/a".
Definition invalid_block : Block :=
  block RmsRadius "rz" PeakThenUncertainty "nm" "0.1" "1" " ~Invalid ".
Definition missing_pdi_block : Block :=
  block Polydispersity "Mw/Mn" UncertaintyThenPeak "" "0.04" "1" "n/a".

(** A block whose peak number has one digit more than [int] converts. *)
Definition long_peak_block : Block :=
  {| b_type := MolarMass; b_name := txt "Mn";
     b_order := UncertaintyThenPeak; b_units := txt "g/mol";
     b_uncertainty := txt "300";
     b_peak := repeat "1"%char (S MAX_STR_DIGITS);
     b_value := txt "15000" |}.

(** The document of one block alone, three lines. *)
Definition single (b : Block) : text :=
  join_lines [marker_line b; name_line b; scalar_line b].

(** ** Further vocabulary

    Tests and relations used to state what the routines do beyond the
    single block: marker lines, the shape of a whole document, and what
    every stored entry satisfies. *)

(** A line that starts a block: one of the three [in] tests of the loop
    holds for it. *)
Definition is_marker (line : text) : bool :=
  contains (marker "molar mass") line
  || contains (marker "polydispersity") line
  || contains (marker "rms radius") line.

(** No line that has two lines after it is a marker line. *)
Fixpoint no_complete_block (lines : list text) : bool :=
  match lines with
  | l :: rest =>
      match rest with
      | _ :: _ :: _ => negb (is_marker (strip l)) && no_complete_block rest
      | _ => true
      end
  | [] => true
  end.

(** The last two lines (or fewer) are not marker lines. *)
Definition ends_plain (lines : list text) : bool :=
  forallb (fun l => negb (is_marker (strip l)))
          (drop (length lines - 2) lines).

(** A step does nothing, raises, or stores one entry that satisfies [P]. *)
Definition uniform_with (P : N -> text -> Measurement -> Prop)
    (f : ResultTable -> result ResultTable) : Prop :=
  (forall t, f t = Ok t) \/
  (exists e, forall t, f t = Raise e) \/
  (exists p n m, P p n m /\ forall t, f t = Ok (store t p n m)).

(** What holds of every entry the extractor stores: the name is not empty,
    the value is not zero, and the percentage is [(x / value) * 100] for
    some float [x]. *)
Definition sound_entry (n : text) (m : Measurement) : Prop :=
  n <> [] /\ is_zero (value m) = false /\
  exists x, uncertainty_pct m
            = float_mul (SFdiv prec emax x (value m)) (float_of_Z 100).

Definition carriage_return : ascii := "013"%char.
Definition tab : ascii := "009"%char.

Definition unmeasured_block : Block :=
  block MolarMass "Mp" UncertaintyThenPeak "g/mol" "n/a" "1" "n/a".

(** [b] laid over [a]: what [b] holds, and what [a] holds where [b] holds
    nothing. *)
Definition overlay (a b : ResultTable) (p : N) (n : text)
    : option Measurement :=
  match lookup2 b p n with
  | Some m => Some m
  | None => lookup2 a p n
  end.

(** A character that is not white space. *)
Definition not_space (c : ascii) : bool := negb (is_space c).

(** ** A document read block by block *)

(** What the loop body does with a well-formed block, read off the block:
    nothing when the name is not one recorded under the type, and else the
    two conversions of the attributes, in the order in which the scalar
    line has them, followed by the tail of the branch. *)
Definition block_result (b : Block) (peak_data : ResultTable)
    : result ResultTable :=
  if recorded_name b
  then
    match b_order b with
    | UncertaintyThenPeak =>
        x <- to_float (b_uncertainty b) ;;
        peak_num <- to_int (b_peak b) ;;
        record_value peak_data peak_num (b_name b) (stored_units b) x
          (strip (b_value b))
    | PeakThenUncertainty =>
        peak_num <- to_int (b_peak b) ;;
        x <- to_float (b_uncertainty b) ;;
        record_value peak_data peak_num (b_name b) (stored_units b) x
          (strip (b_value b))
    end
  else Ok peak_data.

Fixpoint scan_blocks (bs : list Block) (peak_data : ResultTable)
    : result ResultTable :=
  match bs with
  | [] => Ok peak_data
  | b :: rest =>
      peak_data1 <- block_result b peak_data ;; scan_blocks rest peak_data1
  end.

(** A well-formed block that stays on its three lines and opens no tag
    inside an attribute: no newline in the units, the uncertainty and the
    value, and no [<] in the units and the uncertainty. *)
Definition plain_block (b : Block) : bool :=
  well_formed b
  && no_char "<" (b_units b) && no_char "<" (b_uncertainty b)
  && no_char newline (b_units b) && no_char newline (b_uncertainty b)
  && no_char newline (b_value b).

(** ** Scalar lines in any order of the attributes *)

Inductive attr_key := Units | Uncertainty | Peak.

Definition attr_of (b : Block) (k : attr_key) : text :=
  match k with
  | Units => attr "units" (b_units b)
  | Uncertainty => attr "uncertainty" (b_uncertainty b)
  | Peak => attr "peak" (b_peak b)
  end.

(** The scalar line of [b] with its attributes in the order [order]. *)
Definition scalar_line_in (order : list attr_key) (b : Block) : text :=
  txt "<scalar" ++ concat (map (attr_of b) order) ++
  txt ">" ++ b_value b ++ txt "</scalar>".

(** The four orders of the three attributes in which [units] is not the
    first. *)
Definition units_not_first (order : list attr_key) : bool :=
  match order with
  | [Uncertainty; Units; Peak] | [Uncertainty; Peak; Units]
  | [Peak; Units; Uncertainty] | [Peak; Uncertainty; Units] => true
  | _ => false
  end.

Definition has_units (b : Block) : bool :=
  match b_type b with
  | Polydispersity => false
  | _ => true
  end.

(** ** The extractor of [simple_experiment_processor.py]

    The newer scan without the branch for the rms radius. *)

Module SimpleProcessor.

Definition process_line (line : text) (rest : list text)
    (peak_data : ResultTable) : result ResultTable :=
  if contains (marker "molar mass") line then
    match rest with
    | l1 :: l2 :: _ => molar_mass_block (strip l1) (strip l2) peak_data
    | _ => Ok peak_data
    end
  else if contains (marker "polydispersity") line then
    match rest with
    | l1 :: l2 :: _ => polydispersity_block (strip l1) (strip l2) peak_data
    | _ => Ok peak_data
    end
  else Ok peak_data.

Fixpoint scan_lines (lines : list text) (peak_data : ResultTable)
    : result ResultTable :=
  match lines with
  | [] => Ok peak_data
  | line :: rest =>
      peak_data1 <- process_line (strip line) rest peak_data ;;
      scan_lines rest peak_data1
  end.

Definition scan_document (xml_content : text) : result ResultTable :=
  scan_lines (split_lines xml_content) ∅.

Definition extract_peak_results (xml_content : text) : ResultTable :=
  match scan_document xml_content with
  | Ok peak_data => peak_data
  | Raise _ => ∅
  end.

End SimpleProcessor.

(** The two tables hold the same under every name but [rz]. *)
Definition same_but_rz (a b : ResultTable) : Prop :=
  forall p n, n <> txt "rz" -> lookup2 a p n = lookup2 b p n.

(** The sign bit of a float is set: [-0.0], a negative number, [-inf]. *)
Definition sign_bit (x : float) : bool :=
  match x with
  | S754_zero s | S754_infinity s | S754_finite s _ _ => s
  | S754_nan => false
  end.

(** [nan], [inf] or [-inf], as both format specifications write them. *)
Definition non_finite_text (x : float) : text :=
  match x with
  | S754_infinity true => txt "-inf"
  | S754_infinity false => txt "inf"
  | _ => txt "nan"
  end.

(** ** display_and_save_results, statement by statement

    What the routine puts out: the arguments of its [print] calls in
    order, the [summary_lines] list it appends to, and what it writes to
    the summary file. The clock of [log] and the outcome of the write are
    given: [now] is the time stamp, [write_error] the message of the
    exception that [open] or [write] raises, if any. *)

Record Output := {
  printed : list text;
  summary : list text;
  written : option text
}.

Definition no_output : Output :=
  {| printed := []; summary := []; written := None |}.

Definition print (s : text) (o : Output) : Output :=
  {| printed := printed o ++ [s]; summary := summary o;
     written := written o |}.

Definition append_summary (s : text) (o : Output) : Output :=
  {| printed := printed o; summary := summary o ++ [s];
     written := written o |}.

Definition write_file (s : text) (o : Output) : Output :=
  {| printed := printed o; summary := summary o; written := Some s |}.

(** [log(message)]: one printed line, with the time stamp in brackets. *)
Definition log (now message : text) : Output -> Output :=
  print (txt "[" ++ now ++ txt "] " ++ message).

(** One statement after the other. *)
Definition then_do (f g : Output -> Output) : Output -> Output :=
  fun o => g (f o).
Notation "f >> g" := (then_do f g) (at level 61, left associativity).

Definition do_nothing : Output -> Output := fun o => o.

Definition BAR : text := repeat "="%char 50.

(** The lines of [Mn], [Mw] and [Mp]: printed and appended. *)
Definition show_moment (data : PeakRecord) (key : string)
    : Output -> Output :=
  match data !! txt key with
  | Some m =>
      let formatted :=
        format_value_with_uncertainty (value m) (units m)
          (uncertainty_pct m) false in
      let line := txt "  " ++ txt key ++ txt ": " ++ formatted in
      print line >> append_summary line
  | None => do_nothing
  end.

Definition show_mass (data : PeakRecord) : Output -> Output :=
  if existsb (has_key data) ["Mn"; "Mw"; "Mp"; "Mz"]%string
  then print MASS_HEADER >> print [] >>
       append_summary MASS_HEADER >> append_summary [] >>
       show_moment data "Mn" >> show_moment data "Mw" >>
       show_moment data "Mp" >>
       print [] >> append_summary []
  else do_nothing.

Definition show_pdi (data : PeakRecord) : Output -> Output :=
  match data !! txt "Mw/Mn" with
  | Some pdi =>
      print PDI_HEADER >> print [] >>
      append_summary PDI_HEADER >> append_summary [] >>
      let formatted :=
        format_value_with_uncertainty (value pdi) []
          (uncertainty_pct pdi) true in
      let line := txt "  Mw/Mn: " ++ formatted in
      print line >> print [] >>
      append_summary line >> append_summary []
  | None => do_nothing
  end.

Definition show_radius (data : PeakRecord) : Output -> Output :=
  match data !! txt "rz" with
  | Some rz =>
      print RADIUS_HEADER >> print [] >>
      append_summary RADIUS_HEADER >> append_summary [] >>
      let formatted :=
        format_value_with_uncertainty (value rz) (units rz)
          (uncertainty_pct rz) false in
      let line := txt "  rz: " ++ formatted in
      print line >> print [] >>
      append_summary line >> append_summary []
  | None => do_nothing
  end.

(** The body of the loop over the peaks. *)
Definition show_peak (peak_data : ResultTable) (peak_num : N)
    : Output -> Output :=
  match peak_data !! peak_num with
  | Some data =>
      let peak_header := PEAK_HEADER ++ dec peak_num in
      let peak_divider := repeat "-"%char 30 in
      print (newline :: peak_header) >> print peak_divider >>
      append_summary (newline :: peak_header) >>
      append_summary peak_divider >>
      show_mass data >> show_pdi data >> show_radius data
  | None => do_nothing
  end.

Definition SUMMARY_FILE : text := txt "molecular_weight_summary.txt".
Definition SAVED_MESSAGE : text :=
  txt "‚úì Molecular weight summary saved to: " ++ SUMMARY_FILE.
Definition NOT_SAVED_MESSAGE : text :=
  txt "‚ö† Warning: Could not save summary file: ".
Definition SUCCESS_LINE : text :=
  txt "‚úÖ SUCCESS: Complete molecular weight analysis!".
Definition ALL_SAVED_LINE : text :=
  txt "üíæ All data saved to timestamped results folder".

(** The [try] around the write of the summary file. *)
Definition save_summary (now : text) (write_error : option text)
    : Output -> Output :=
  fun o =>
    match write_error with
    | None =>
        (write_file (join_lines (summary o)) >> log now SAVED_MESSAGE) o
    | Some e => log now (NOT_SAVED_MESSAGE ++ e) o
    end.

Definition display_and_save_results (peak_data : ResultTable)
    (now : text) (write_error : option text) : Output :=
  (print (newline :: BAR) >> print TITLE >> print BAR >>
   append_summary BAR >> append_summary TITLE >> append_summary BAR >>
   (fun o => fold_left (fun o peak_num => show_peak peak_data peak_num o)
                       (sorted_peaks peak_data) o) >>
   save_summary now write_error >>
   print BAR >> print SUCCESS_LINE >> print ALL_SAVED_LINE >> print BAR)
  no_output.

(** What the report shows of a measurement: its value and its
    percentage. *)
Definition shown (data : PeakRecord) (key : string)
    : option (float * float) :=
  option_map (fun m => (value m, uncertainty_pct m)) (data !! txt key).

(** The peaks of a table with their records, in the order of the report. *)
Definition peaks_in_order (peak_data : ResultTable)
    : list (N * PeakRecord) :=
  omap (fun p => option_map (pair p) (peak_data !! p))
       (sorted_peaks peak_data).

(** A statement that prints [ps] and appends [ss], and writes no file. *)
Definition emits (f : Output -> Output) (ps ss : list text) : Prop :=
  forall o, f o = {| printed := printed o ++ ps; summary := summary o ++ ss;
                     written := written o |}.

(** The lines of the peak [p] in the report of [t]. *)
Definition section_of (t : ResultTable) (p : N) : list text :=
  match t !! p with
  | Some data => peak_section p data
  | None => []
  end.

(** ** display_peak_results and main of the older script *)

(** [display_peak_results]: the arguments of its [print] calls. The
    formatter is the older one, with no flag. *)
Definition print_moment (data : PeakRecord) (key : string)
    : Output -> Output :=
  match data !! txt key with
  | Some m =>
      let formatted :=
        MolecularWeights.format_value_with_uncertainty (value m) (units m)
          (uncertainty_pct m) in
      print (txt "  " ++ txt key ++ txt ": " ++ formatted)
  | None => do_nothing
  end.

Definition print_mass (data : PeakRecord) : Output -> Output :=
  if existsb (has_key data) ["Mn"; "Mw"; "Mp"; "Mz"]%string
  then print MASS_HEADER >> print [] >>
       print_moment data "Mn" >> print_moment data "Mw" >>
       print_moment data "Mp" >> print []
  else do_nothing.

Definition print_pdi (data : PeakRecord) : Output -> Output :=
  match data !! txt "Mw/Mn" with
  | Some pdi =>
      print PDI_HEADER >> print [] >>
      print (txt "  Mw/Mn: " ++
             MolecularWeights.format_value_with_uncertainty
               (value pdi) [] (uncertainty_pct pdi)) >>
      print []
  | None => do_nothing
  end.

Definition print_radius (data : PeakRecord) : Output -> Output :=
  match data !! txt "rz" with
  | Some rz =>
      print RADIUS_HEADER >> print [] >>
      print (txt "  rz: " ++
             MolecularWeights.format_value_with_uncertainty
               (value rz) (units rz) (uncertainty_pct rz)) >>
      print []
  | None => do_nothing
  end.

Definition print_peak (peak_data : ResultTable) (peak_num : N)
    : Output -> Output :=
  match peak_data !! peak_num with
  | Some data =>
      print (newline :: PEAK_HEADER ++ dec peak_num) >>
      print (repeat "-"%char 30) >>
      print_mass data >> print_pdi data >> print_radius data
  | None => do_nothing
  end.

Definition display_peak_results (peak_data : ResultTable) : Output :=
  (print (newline :: BAR) >> print TITLE >> print BAR >>
   (fun o => fold_left (fun o peak_num => print_peak peak_data peak_num o)
                       (sorted_peaks peak_data) o))
  no_output.

(** No peak of the table has a polydispersity. *)
Definition no_polydispersity (peak_data : ResultTable) : bool :=
  forallb (fun p => match peak_data !! p with
                    | Some data => negb (has_key data "Mw/Mn")
                    | None => true
                    end)
          (sorted_peaks peak_data).

(** [s.endswith(suffix)] *)
Definition ends_with (suffix s : text) : bool :=
  starts_with (rev suffix) (rev s).

(** The test of the list comprehension in [main]. *)
Definition is_xml_results_file (f : text) : bool :=
  starts_with (txt "results_xml_") f && ends_with (txt ".xml") f.

Definition xml_files (listing : list text) : list text :=
  List.filter is_xml_results_file listing.

(** [max(xml_files, key=...)]: the first file whose key no later file
    exceeds. [newer a b] is the comparison [a > b] of two keys, and
    [mtime] what [os.path.getmtime] returns for a file of the folder. *)
Section LatestFile.
Context {K : Type}.
Variable newer : K -> K -> bool.
Variable mtime : text -> K.

Fixpoint max_from (best : text) (files : list text) : text :=
  match files with
  | [] => best
  | f :: rest =>
      max_from (if newer (mtime f) (mtime best) then f else best) rest
  end.

(** [None] when [xml_files] is empty and [main] returns at once. *)
Definition latest_file (listing : list text) : option text :=
  match xml_files listing with
  | [] => None
  | f :: rest => Some (max_from f rest)
  end.

End LatestFile.

(** The names under which the scripts save the XML results:
    [results_{timestamp}.xml] in the two automation scripts,
    [results_xml_{timestamp}.xml] in [test_real_datasets.py]. *)
Definition results_filename (timestamp : text) : text :=
  txt "results_" ++ timestamp ++ txt ".xml".

Definition xml_results_filename (timestamp : text) : text :=
  txt "results_xml_" ++ timestamp ++ txt ".xml".

(* ===================================================================== *)
(** * Part II. Lemmas and theorems                                        *)
(* ===================================================================== *)

(** ** Digits *)

Lemma small_cases (d : N) :
  (d < 10)%N ->
  d = 0%N \/ d = 1%N \/ d = 2%N \/ d = 3%N \/ d = 4%N \/ d = 5%N \/
  d = 6%N \/ d = 7%N \/ d = 8%N \/ d = 9%N.
Proof. lia. Qed.

Lemma digit_char_digit (d : N) :
  (d < 10)%N -> is_digit (digit_char d) = true.
Proof.
  intros H. destruct (small_cases d H) as [->|[->|[->|[->|[->|[->|[->|[->|[->| ->]]]]]]]]];
    reflexivity.
Qed.

Lemma digit_char_not_zero (d : N) :
  (1 <= d < 10)%N -> Ascii.eqb (digit_char d) "0" = false.
Proof.
  intros [H1 H]. destruct (small_cases d H) as [->|[->|[->|[->|[->|[->|[->|[->|[->| ->]]]]]]]]];
    try reflexivity. lia.
Qed.

Lemma mod10_lt (n : N) : (n mod 10 < 10)%N.
Proof. apply N.mod_lt. discriminate. Qed.

Lemma dec_aux_digits (fuel : nat) (n : N) :
  forallb is_digit (dec_aux fuel n) = true.
Proof.
  revert n. induction fuel as [|f IH]; intros n; simpl.
  - now rewrite digit_char_digit by apply mod10_lt.
  - destruct (N.ltb_spec n 10).
    + simpl. now rewrite digit_char_digit.
    + rewrite forallb_app, IH. simpl.
      now rewrite digit_char_digit by apply mod10_lt.
Qed.

Lemma dec_aux_length (fuel : nat) (n : N) : (1 <= length (dec_aux fuel n))%nat.
Proof.
  destruct fuel as [|f]; simpl; [lia|].
  destruct (n <? 10)%N; simpl; [lia|]. rewrite length_app. simpl. lia.
Qed.

Lemma dec_digits (n : N) : forallb is_digit (dec n) = true.
Proof. apply dec_aux_digits. Qed.

Lemma dec_nonempty (n : N) : nonempty (dec n) = true.
Proof.
  pose proof (dec_aux_length (N.to_nat (N.log2 n)) n) as H.
  unfold dec. destruct (dec_aux _ n); [simpl in H; lia|reflexivity].
Qed.

Lemma dec_small (n : N) : (n < 10)%N -> dec n = [digit_char n].
Proof.
  intros H. unfold dec. destruct (N.to_nat (N.log2 n)); simpl.
  - now rewrite N.mod_small.
  - destruct (N.ltb_spec n 10); [reflexivity|lia].
Qed.

Lemma dec_long (n : N) : (10 <= n)%N -> (2 <= length (dec n))%nat.
Proof.
  intros H. unfold dec.
  assert (Hl : (3 <= N.log2 n)%N).
  { apply N.log2_le_pow2; [lia|]. simpl. lia. }
  destruct (N.to_nat (N.log2 n)) as [|f] eqn:E; [lia|]. simpl.
  destruct (N.ltb_spec n 10); [lia|].
  rewrite length_app. simpl. pose proof (dec_aux_length f (n / 10)). lia.
Qed.

Lemma low_digits_length (k : nat) (n : N) : length (low_digits k n) = k.
Proof.
  revert n. induction k as [|k IH]; intros n; simpl; [reflexivity|].
  rewrite length_app, IH. simpl. lia.
Qed.

Lemma low_digits_digits (k : nat) (n : N) :
  forallb is_digit (low_digits k n) = true.
Proof.
  revert n. induction k as [|k IH]; intros n; simpl; [reflexivity|].
  rewrite forallb_app, IH. simpl.
  now rewrite digit_char_digit by apply mod10_lt.
Qed.

Lemma span_digits_app (f r : text) :
  forallb is_digit f = true ->
  match r with [] => true | c :: _ => negb (is_digit c) end = true ->
  span_digits (f ++ r) = (f, r).
Proof.
  intros Hf Hr. induction f as [|c f IH]; simpl.
  - destruct r as [|c r]; [reflexivity|]. simpl.
    now destruct (is_digit c).
  - simpl in Hf. apply andb_prop in Hf as [Hc Hf].
    now rewrite Hc, (IH Hf).
Qed.

(** ** Rounding *)

Lemma round_div_bounds (a b lo hi : N) :
  (0 < b)%N -> (lo * b <= a)%N -> (a < hi * b)%N ->
  (lo <= round_div a b <= hi)%N.
Proof.
  intros Hb Hlo Hhi. unfold round_div.
  assert (H1 : (lo <= a / b)%N).
  { apply N.div_le_lower_bound; lia. }
  assert (H2 : (a / b < hi)%N).
  { apply N.Div0.div_lt_upper_bound; lia. }
  destruct (2 * (a mod b) ?= b)%N; [destruct (N.even (a / b))| |]; lia.
Qed.

(** The rounded quotient is a nearest natural. *)
Lemma round_div_nearest (a b : N) :
  (0 < b)%N ->
  (2 * (round_div a b * b) <= 2 * a + b /\
   2 * a <= 2 * (round_div a b * b) + b)%N.
Proof.
  intros Hb. unfold round_div.
  pose proof (N.div_mod a b ltac:(lia)) as E.
  pose proof (N.mod_lt a b ltac:(lia)) as L.
  destruct (N.compare_spec (2 * (a mod b)) b) as [C|C|C];
    [destruct (N.even (a / b))| |];
    revert E L C; generalize (a / b)%N (a mod b)%N; intros d r E L C; nia.
Qed.

Lemma log10_up_spec (fuel : nat) (a b : N) :
  (0 < b)%N -> (b <= a)%N -> (a < b * 10 ^ N.of_nat fuel)%N ->
  (b * 10 ^ N.of_nat (log10_up fuel a b) <= a
   < b * 10 ^ N.of_nat (S (log10_up fuel a b)))%N.
Proof.
  revert b. induction fuel as [|f IH]; intros b Hb Hle Hlt.
  - simpl in Hlt. lia.
  - simpl log10_up. destruct (N.leb_spec (b * 10) a) as [H|H].
    + rewrite Nat2N.inj_succ, N.pow_succ_r' in Hlt.
      destruct (IH (b * 10)%N) as [H1 H2]; [lia|lia|lia|].
      rewrite !Nat2N.inj_succ, !N.pow_succ_r' in *. lia.
    + change (10 ^ N.of_nat 0)%N with 1%N.
      change (10 ^ N.of_nat 1)%N with 10%N. lia.
Qed.

Lemma size_fuel (a b : N) :
  (0 < b)%N -> (a < b * 10 ^ N.of_nat (N.to_nat (N.size a)))%N.
Proof.
  intros Hb. rewrite N2Nat.id.
  assert (H : (a < 2 ^ N.size a)%N) by apply N.size_gt.
  assert (H2 : (2 ^ N.size a <= 10 ^ N.size a)%N).
  { apply N.pow_le_mono_l. lia. }
  nia.
Qed.

Lemma ilog10_spec (a b : N) :
  (0 < b)%N -> (b <= a)%N ->
  exists r : nat, ilog10 a b = Z.of_nat r /\
    (b * 10 ^ N.of_nat r <= a < b * 10 ^ N.of_nat (S r))%N.
Proof.
  intros Hb Hle. unfold ilog10. destruct (N.leb_spec b a); [|lia].
  eexists. split; [reflexivity|].
  apply log10_up_spec; auto using size_fuel.
Qed.

(** ** Doubles that are at least 1000 *)

Lemma float_of_Z_1000 :
  float_of_Z 1000 = S754_finite false 8796093022208000 (-43).
Proof. vm_compute. reflexivity. Qed.
Lemma digits2_pos_lower (p : positive) :
  2 ^ (Zpos (digits2_pos p) - 1) <= Zpos p.
Proof.
  induction p as [p IH|p IH|]; simpl digits2_pos.
  - rewrite Pos2Z.inj_succ.
    replace (Z.succ (Zpos (digits2_pos p)) - 1)
      with (Z.succ (Zpos (digits2_pos p) - 1)) by lia.
    rewrite Z.pow_succ_r by lia. lia.
  - rewrite Pos2Z.inj_succ.
    replace (Z.succ (Zpos (digits2_pos p)) - 1)
      with (Z.succ (Zpos (digits2_pos p) - 1)) by lia.
    rewrite Z.pow_succ_r by lia. lia.
  - simpl. lia.
Qed.

Lemma pow2_pos (k : N) : (1 <= 2 ^ k)%N.
Proof.
  change 1%N with (2 ^ 0)%N. apply N.pow_le_mono_r; [discriminate|].
  apply N.le_0_l.
Qed.

Lemma ge_1000_ratio (s : bool) (m : positive) (e : Z) :
  valid_binary prec emax (S754_finite s m e) = true ->
  float_ge (S754_finite s m e) (float_of_Z 1000) = true ->
  s = false /\
  (0 < snd (ratio m e))%N /\
  (1000 * snd (ratio m e) <= fst (ratio m e))%N.
Proof.
  intros Hv Hge. rewrite float_of_Z_1000 in Hge.
  unfold float_ge, SFcompare in Hge.
  destruct s; [discriminate|]. split; [reflexivity|].
  unfold valid_binary, bounded, canonical_mantissa in Hv.
  apply andb_prop in Hv as [Hc _]. apply Z.eqb_eq in Hc.
  unfold fexp, SpecFloat.emin, prec, emax in Hc.
  revert Hge.
  destruct (Z.compare_spec e (-43)) as [He|He|He]; intros Hge;
    [| discriminate Hge |].
  - subst e.
    assert (Hm : (8796093022208000 <= Z.pos m)%Z).
    { rewrite Pos.compare_cont_spec in Hge. simpl Pos.switch_Eq in Hge.
      destruct (Pos.compare_spec m 8796093022208000) as [E|E|E];
        [subst m; apply Z.le_refl | discriminate Hge | ].
      apply Pos2Z.pos_lt_pos in E. apply Z.lt_le_incl. exact E. }
    unfold ratio. cbn [fst snd].
    split; [reflexivity|].
    apply N2Z.inj_le. rewrite N2Z.inj_mul.
    change (Z.of_N (N.pos m)) with (Z.pos m).
    replace (Z.of_N 1000 * Z.of_N (2 ^ N.pos 43))%Z with 8796093022208000%Z
      by (vm_compute; reflexivity).
    exact Hm.
  - assert (Hdig : Zpos (digits2_pos m) = 53) by lia.
    pose proof (digits2_pos_lower m) as Hd. rewrite Hdig in Hd.
    assert (HmN : (2 ^ 52 <= N.pos m)%N).
    { apply N2Z.inj_le. rewrite N2Z.inj_pow. exact Hd. }
    clear Hd Hc Hge Hdig.
    destruct e as [|k|k]; unfold ratio; cbn [fst snd].
    + split; [reflexivity|].
      etransitivity; [|apply N.mul_le_mono; [exact HmN|apply pow2_pos]].
      vm_compute. discriminate.
    + split; [reflexivity|].
      etransitivity; [|apply N.mul_le_mono; [exact HmN|apply pow2_pos]].
      vm_compute. discriminate.
    + split; [apply N.lt_le_trans with 1%N; [reflexivity|apply pow2_pos]|].
      etransitivity; [|exact HmN].
      change (2 ^ 52)%N with (2 ^ 10 * 2 ^ 42)%N.
      apply N.mul_le_mono; [vm_compute; discriminate|].
      apply N.pow_le_mono_r; [discriminate|].
      apply N2Z.inj_le. change (Z.of_N (N.pos k)) with (Z.pos k).
      change (Z.of_N 42) with 42. lia.
Qed.

(** ** The shape of what the formatter writes *)

Lemma fixed_digits_shape (k : nat) (n : N) (neg : bool) :
  fixed_shape (S k) (sign_text neg ++ fixed_digits (S k) n) = true.
Proof.
  unfold fixed_shape, fixed_digits.
  assert (H : forall r : text,
             match sign_text neg ++ dec (n / 10 ^ N.of_nat (S k)) ++ r with
             | c :: r0 =>
                 if Ascii.eqb c "-" then r0
                 else sign_text neg ++ dec (n / 10 ^ N.of_nat (S k)) ++ r
             | [] => sign_text neg ++ dec (n / 10 ^ N.of_nat (S k)) ++ r
             end = dec (n / 10 ^ N.of_nat (S k)) ++ r).
  { intros r. destruct neg; [reflexivity|]. simpl app.
    pose proof (dec_digits (n / 10 ^ N.of_nat (S k))) as Hd.
    pose proof (dec_nonempty (n / 10 ^ N.of_nat (S k))) as Hn.
    destruct (dec (n / 10 ^ N.of_nat (S k))) as [|c d]; [discriminate|].
    simpl in Hd. apply andb_prop in Hd as [Hc _]. simpl.
    destruct (Ascii.eqb_spec c "-") as [->|]; [discriminate|reflexivity]. }
  rewrite H. rewrite span_digits_app; [|apply dec_digits|reflexivity].
  rewrite dec_nonempty.
  change (txt "." ++ low_digits (S k) n)
    with ("."%char :: low_digits (S k) n).
  cbv beta iota. rewrite low_digits_length, Nat.eqb_refl.
  rewrite low_digits_digits. reflexivity.
Qed.

(** A finite float at a precision of at least one digit. *)
Lemma format_f_shape (k : nat) (x : float) :
  is_finite x = true -> fixed_shape (S k) (format_f (S k) x) = true.
Proof.
  destruct x as [s|s| |s m e]; try discriminate; intros _;
    unfold format_f.
  - apply fixed_digits_shape.
  - destruct (ratio m e) as [a b]. apply fixed_digits_shape.
Qed.

Lemma exponent_text_shape (d : Z) :
  0 <= d ->
  exists x, exponent_text d = "+"%char :: x /\
            (2 <= length x)%nat /\ forallb is_digit x = true.
Proof.
  intros Hd. unfold exponent_text.
  destruct (Z.ltb_spec d 0); [lia|].
  rewrite Z.abs_eq by lia.
  destruct (Z.ltb_spec d 10).
  - exists ("0"%char :: dec (Z.to_N d)). split; [reflexivity|].
    rewrite dec_small by lia. split; [simpl; lia|]. simpl.
    now rewrite digit_char_digit by lia.
  - exists (dec (Z.to_N d)). split; [reflexivity|].
    split; [apply dec_long; lia|apply dec_digits].
Qed.

Lemma sci_digits_shape (n : N) (d : Z) :
  (1000 <= n < 10000)%N -> 0 <= d ->
  sci_shape 3 (sci_digits 3 n d) = true.
Proof.
  intros Hn Hd. unfold sci_digits, fixed_digits.
  change (10 ^ N.of_nat 3)%N with 1000%N.
  assert (Hq : (1 <= n / 1000 < 10)%N).
  { split; [apply N.div_le_lower_bound; lia|
            apply N.Div0.div_lt_upper_bound; lia]. }
  rewrite dec_small by lia.
  destruct (exponent_text_shape d Hd) as (x & -> & Hx1 & Hx2).
  replace (([digit_char (n / 1000)] ++ txt "." ++ low_digits 3 n) ++
           txt "e" ++ "+"%char :: x)
    with (digit_char (n / 1000) :: "."%char ::
          low_digits 3 n ++ "e"%char :: "+"%char :: x)
    by (rewrite <- !app_assoc; reflexivity).
  unfold sci_shape.
  rewrite digit_char_digit, digit_char_not_zero by lia.
  rewrite (span_digits_app (low_digits 3 n));
    [|apply low_digits_digits|reflexivity].
  rewrite low_digits_length, Hx2.
  apply Nat.leb_le in Hx1. rewrite Hx1. reflexivity.
Qed.

(** A double that compares at least 1000, at three digits. *)
Lemma format_e_shape (x : float) :
  is_finite x = true -> valid_binary prec emax x = true ->
  float_ge x (float_of_Z 1000) = true ->
  sci_shape 3 (format_e 3 x) = true.
Proof.
  destruct x as [s|s| |s m e]; try discriminate; intros _ Hv Hge.
  destruct (ge_1000_ratio s m e Hv Hge) as (-> & Hb & Hab).
  { unfold format_e. destruct (ratio m e) as [a b]. simpl fst in *.
    simpl snd in *. simpl sign_text. simpl app.
    destruct (ilog10_spec a b Hb ltac:(lia)) as (r & -> & Hlo & Hhi).
    assert (Hr : (3 <= r)%nat).
    { destruct (Nat.le_gt_cases 3 r) as [|Hlt]; [assumption|exfalso].
      assert (Hp : (10 ^ N.of_nat (S r) <= 10 ^ 3)%N).
      { apply N.pow_le_mono_r; [discriminate|lia]. }
      change (10 ^ 3)%N with 1000%N in Hp. nia. }
    set (n := if Z.of_nat r <=? Z.of_nat 3
              then round_div (a * 10 ^ Z.to_N (Z.of_nat 3 - Z.of_nat r)) b
              else round_div a (b * 10 ^ Z.to_N (Z.of_nat r - Z.of_nat 3))).
    assert (Hn : (1000 <= n <= 10000)%N).
    { assert (Hsplit : (10 ^ N.of_nat r = 1000 * 10 ^ N.of_nat (r - 3))%N).
      { change 1000%N with (10 ^ N.of_nat 3)%N.
        rewrite <- N.pow_add_r. f_equal. lia. }
      rewrite Nat2N.inj_succ, N.pow_succ_r' in Hhi.
      rewrite Hsplit in Hlo, Hhi.
      assert (Hpos : (0 < 10 ^ N.of_nat (r - 3))%N).
      { apply N.neq_0_lt_0. apply N.pow_nonzero. discriminate. }
      unfold n. destruct (Z.leb_spec (Z.of_nat r) (Z.of_nat 3)).
      - assert (r = 3%nat) as -> by lia.
        change (Z.to_N (Z.of_nat 3 - Z.of_nat 3)) with 0%N.
        change (N.of_nat (3 - 3)) with 0%N in *.
        rewrite N.pow_0_r, N.mul_1_r in *.
        apply round_div_bounds; lia.
      - replace (Z.to_N (Z.of_nat r - Z.of_nat 3)) with (N.of_nat (r - 3))
          by lia.
        apply round_div_bounds; nia. }
    change (10 ^ N.of_nat 4)%N with 10000%N.
    destruct (N.eqb_spec n 10000) as [E|E].
    + rewrite E. change (10000 / 10)%N with 1000%N.
      apply sci_digits_shape; lia.
    + apply sci_digits_shape; lia. }
Qed.

(** ** Text *)

Lemma strip_prefix_app (l s : text) : strip_prefix l (l ++ s) = Some s.
Proof.
  induction l as [|c l IH]; simpl; [reflexivity|].
  rewrite Ascii.eqb_refl. exact IH.
Qed.

Lemma strip_prefix_Some (l s s' : text) :
  strip_prefix l s = Some s' -> s = l ++ s'.
Proof.
  revert s. induction l as [|c l IH]; intros s H; simpl in *.
  - congruence.
  - destruct s as [|d s]; [discriminate|].
    destruct (Ascii.eqb_spec c d) as [->|]; [|discriminate].
    f_equal. auto.
Qed.

Lemma no_char_app c (a b : text) :
  no_char c (a ++ b) = no_char c a && no_char c b.
Proof. unfold no_char. apply forallb_app. Qed.

Lemma quotes_app (a b : text) : quotes (a ++ b) = (quotes a + quotes b)%nat.
Proof.
  induction a as [|c a IH]; simpl; [reflexivity|].
  destruct (Ascii.eqb c dquote); simpl; lia.
Qed.

Lemma quotes_none (s : text) : no_char dquote s = true -> quotes s = O.
Proof.
  induction s as [|c s IH]; simpl; [reflexivity|].
  destruct (Ascii.eqb c dquote); simpl; [discriminate|auto].
Qed.

(** ** Patterns: what a match implies *)

Lemma rep_eq k greedy cont least s :
  rep k greedy cont least s =
  if greedy
  then match rep_more k greedy cont least s with
       | Some r => Some r
       | None => rep_stop cont least s
       end
  else match rep_stop cont least s with
       | Some r => Some r
       | None => rep_more k greedy cont least s
       end.
Proof. destruct s; reflexivity. Qed.

Lemma rep_cases k greedy cont least s x :
  rep k greedy cont least s = Some x ->
  rep_stop cont least s = Some x \/ rep_more k greedy cont least s = Some x.
Proof.
  rewrite rep_eq. destruct greedy.
  - destruct (rep_more k true cont least s); auto.
  - destruct (rep_stop cont least s); auto.
Qed.

Lemma rep_sound k greedy cont least s t r :
  rep k greedy cont least s = Some (t, r) ->
  exists b, s = t ++ b /\ cont b = Some r.
Proof.
  revert least t r. induction s as [|c s IH]; intros least t r H;
    apply rep_cases in H; destruct H as [H|H].
  - unfold rep_stop in H. destruct least; [|discriminate].
    destruct (cont []) eqn:E; [|discriminate].
    simpl in H. injection H as <- <-. exists []. auto.
  - discriminate.
  - unfold rep_stop in H. destruct least; [|discriminate].
    destruct (cont (c :: s)) eqn:E; [|discriminate].
    simpl in H. injection H as <- <-. exists (c :: s). auto.
  - unfold rep_more in H. destruct (in_class k c); [|discriminate].
    destruct (rep k greedy cont (Init.Nat.pred least) s) as [[t' r']|] eqn:E;
      [|discriminate].
    simpl in H. injection H as <- <-.
    destruct (IH _ _ _ E) as (b & -> & Hb). exists b. auto.
Qed.

Lemma in_order_prepend ls (t s : text) : in_order ls s -> in_order ls (t ++ s).
Proof.
  destruct ls as [|l ls]; simpl; [auto|].
  intros (a & b & -> & H). exists (t ++ a), b. split; [|exact H].
  now rewrite <- app_assoc.
Qed.

Lemma match_items_sound items s g :
  match_items items s = Some g -> in_order (lits items) s.
Proof.
  revert s g. induction items as [|[l|k least greedy cap] rest IH];
    intros s g H; simpl in *.
  - exact I.
  - destruct (strip_prefix l s) as [s'|] eqn:E; [|discriminate].
    apply strip_prefix_Some in E. exists [], s'. split; [exact E|].
    eapply IH; eauto.
  - destruct (rep k greedy (match_items rest) least s) as [[t r]|] eqn:E;
      [|discriminate].
    destruct (rep_sound _ _ _ _ _ _ _ E) as (b & -> & Hb).
    apply in_order_prepend. eapply IH; eauto.
Qed.

Lemma re_search_sound items s g :
  re_search items s = Some g -> in_order (lits items) s.
Proof.
  induction s as [|c s IH]; simpl.
  - destruct (match_items items []) eqn:E; [|discriminate].
    intros _. eapply match_items_sound; eauto.
  - destruct (match_items items (c :: s)) eqn:E.
    + intros _. eapply match_items_sound; eauto.
    + intros H. apply (in_order_prepend _ [c]). auto.
Qed.

(** ** Patterns: when a match is found *)

Lemma rep_greedy_max k cont least u b g :
  forallb (in_class k) u = true -> boundary k b = true ->
  (least <= length u)%nat -> cont b = Some g ->
  rep k true cont least (u ++ b) = Some (u, g).
Proof.
  revert least. induction u as [|c u IH]; intros least Hu Hb Hl Hc.
  - simpl in Hl. assert (least = O) as -> by lia.
    rewrite rep_eq. simpl app.
    assert (rep_more k true cont 0 b = None) as ->.
    { unfold rep_more. destruct b as [|c b]; [reflexivity|].
      simpl in Hb. destruct (in_class k c); [discriminate|reflexivity]. }
    unfold rep_stop. now rewrite Hc.
  - simpl in Hu. apply andb_prop in Hu as [Hc1 Hu].
    rewrite rep_eq. unfold rep_more. simpl app. cbv iota. rewrite Hc1.
    rewrite (IH (Init.Nat.pred least)); auto.
    simpl in Hl. lia.
Qed.

Lemma rep_lazy_first k cont least u b g :
  forallb (in_class k) u = true ->
  (forall c s, In c u -> cont (c :: s) = None) ->
  (least <= length u)%nat -> cont b = Some g ->
  rep k false cont least (u ++ b) = Some (u, g).
Proof.
  revert least. induction u as [|c u IH]; intros least Hu Hn Hl Hc.
  - simpl in Hl. assert (least = O) as -> by lia.
    rewrite rep_eq. unfold rep_stop. simpl app. now rewrite Hc.
  - simpl in Hu. apply andb_prop in Hu as [Hc1 Hu].
    rewrite rep_eq.
    assert (rep_stop cont least ((c :: u) ++ b) = None) as ->.
    { unfold rep_stop. destruct least; [|reflexivity].
      simpl app. rewrite Hn; [reflexivity|now left]. }
    unfold rep_more. simpl app. cbv iota. rewrite Hc1.
    rewrite (IH (Init.Nat.pred least)); auto.
    + intros d s Hd. apply Hn. now right.
    + simpl in Hl. lia.
Qed.

Lemma match_lit l rest s :
  match_items (Lit l :: rest) (l ++ s) = match_items rest s.
Proof. simpl. now rewrite strip_prefix_app. Qed.

Lemma match_lit_mismatch d l rest c s :
  Ascii.eqb d c = false -> match_items (Lit (d :: l) :: rest) (c :: s) = None.
Proof. intros H. cbn [match_items strip_prefix]. now rewrite H. Qed.

Lemma match_rep_eq k least greedy cap rest s :
  match_items (Rep k least greedy cap :: rest) s =
  match rep k greedy (match_items rest) least s with
  | Some (t, g) => Some (if cap then t :: g else g)
  | None => None
  end.
Proof. reflexivity. Qed.

Lemma match_skip_here rest s g :
  match_items rest s = Some g -> match_items (skip :: rest) s = Some g.
Proof.
  intros H. unfold skip. rewrite match_rep_eq, rep_eq.
  unfold rep_stop. now rewrite H.
Qed.

Lemma match_skip_next rest c s :
  match_items rest (c :: s) = None -> Ascii.eqb c newline = false ->
  match_items (skip :: rest) (c :: s) = match_items (skip :: rest) s.
Proof.
  intros H Hc. unfold skip. rewrite !match_rep_eq.
  rewrite (rep_eq AnyChar false _ 0 (c :: s)). unfold rep_stop. rewrite H.
  unfold rep_more, in_class. rewrite Hc. simpl.
  destruct (rep AnyChar false (match_items rest) 0 s) as [[t g]|]; reflexivity.
Qed.

Lemma match_group k least rest u b g :
  forallb (in_class k) u = true -> boundary k b = true ->
  (least <= length u)%nat -> match_items rest b = Some g ->
  match_items (Rep k least true true :: rest) (u ++ b) = Some (u :: g).
Proof.
  intros Hu Hb Hl Hg. rewrite match_rep_eq.
  now rewrite (rep_greedy_max k _ least u b g).
Qed.

Lemma re_search_here items s g :
  match_items items s = Some g -> re_search items s = Some g.
Proof. intros H. destruct s; simpl; now rewrite H. Qed.

Lemma forallb_not_quote (s : text) :
  no_char dquote s = true -> forallb (in_class NotQuote) s = true.
Proof. intros H. exact H. Qed.

Lemma forallb_not_lt (s : text) :
  no_char "<" s = true -> forallb (in_class NotLt) s = true.
Proof. intros H. exact H. Qed.

Lemma forallb_any (s : text) :
  no_char newline s = true -> forallb (in_class AnyChar) s = true.
Proof. intros H. exact H. Qed.

(** The name pattern on a name line. *)
Lemma name_re_name_line (n : text) :
  nonempty n = true -> no_char "<" n = true -> no_char newline n = true ->
  re_search name_re (txt "<name>" ++ n ++ txt "</name>") = Some [n].
Proof.
  intros Hne Hlt Hnl. apply re_search_here. unfold name_re.
  rewrite match_lit. unfold grp_name. rewrite match_rep_eq.
  rewrite (rep_lazy_first AnyChar _ 1 n (txt "</name>") []).
  - reflexivity.
  - now apply forallb_any.
  - intros c s Hc. apply match_lit_mismatch.
    unfold no_char in Hlt. rewrite forallb_forall in Hlt.
    specialize (Hlt c Hc). rewrite Ascii.eqb_sym.
    destruct (Ascii.eqb c "<"); [discriminate|reflexivity].
  - destruct n; [discriminate|simpl; lia].
  - reflexivity.
Qed.

Lemma attr_unfold (d : ascii) (key : string) (v tail : text) :
  attr (String d key) v ++ tail =
  " "%char :: (txt (String d key) ++ txt "=" ++ q) ++ v ++ q ++ tail.
Proof.
  unfold attr. rewrite <- !app_assoc. reflexivity.
Qed.

(** One attribute of the scalar line, reached by the lazy skip and read by
    a greedy group that stops at the closing quote. *)
Lemma match_attr (d : ascii) (key : string) k least v rest tail g :
  Ascii.eqb d " " = false ->
  in_class k dquote = false ->
  forallb (in_class k) v = true -> (least <= length v)%nat ->
  match_items rest tail = Some g ->
  match_items
    (skip :: Lit (txt (String d key) ++ txt "=" ++ q) ::
     Rep k least true true ::
     Lit q :: rest)
    (attr (String d key) v ++ tail) = Some (v :: g).
Proof.
  intros Hd Hk Hv Hl Hg. rewrite attr_unfold.
  rewrite match_skip_next; [| |reflexivity].
  - apply match_skip_here. rewrite match_lit.
    apply match_group;
      [exact Hv | simpl; now rewrite Hk | exact Hl | now rewrite match_lit].
  - apply match_lit_mismatch. exact Hd.
Qed.

Lemma match_scalar_text (v : text) :
  no_char "<" v = true ->
  match_items [skip; Lit (txt ">"); grp_text; Lit (txt "</scalar>")]
    (txt ">" ++ v ++ txt "</scalar>") = Some [v].
Proof.
  intros Hv. apply match_skip_here. rewrite match_lit.
  apply match_group; [exact Hv | reflexivity | simpl; lia | reflexivity].
Qed.

Section ScalarLines.
Variables (u x p v : text).
Hypothesis Hu : no_char dquote u = true.
Hypothesis Hx : no_char dquote x = true.
Hypothesis Hp : forallb is_digit p = true.
Hypothesis Hp1 : nonempty p = true.
Hypothesis Hv : no_char "<" v = true.

Lemma peak_length : (1 <= length p)%nat.
Proof. destruct p; [discriminate|simpl; lia]. Qed.

Lemma search_units_unc_peak :
  re_search scalar_re_units_unc_peak
    (txt "<scalar" ++ attr "units" u ++ attr "uncertainty" x ++
     attr "peak" p ++ txt ">" ++ v ++ txt "</scalar>") = Some [u; x; p; v].
Proof using Hu Hx Hp Hp1 Hv.
  apply re_search_here. unfold scalar_re_units_unc_peak. rewrite match_lit.
  apply (match_attr "u" "nits");
    [reflexivity | reflexivity | exact Hu | lia | ].
  apply (match_attr "u" "ncertainty");
    [reflexivity | reflexivity | exact Hx | lia | ].
  apply (match_attr "p" "eak");
    [reflexivity | reflexivity | exact Hp | exact peak_length | ].
  now apply match_scalar_text.
Qed.

Lemma search_units_peak_unc :
  re_search scalar_re_units_peak_unc
    (txt "<scalar" ++ attr "units" u ++ attr "peak" p ++
     attr "uncertainty" x ++ txt ">" ++ v ++ txt "</scalar>") = Some [u; p; x; v].
Proof using Hu Hx Hp Hp1 Hv.
  apply re_search_here. unfold scalar_re_units_peak_unc. rewrite match_lit.
  apply (match_attr "u" "nits");
    [reflexivity | reflexivity | exact Hu | lia | ].
  apply (match_attr "p" "eak");
    [reflexivity | reflexivity | exact Hp | exact peak_length | ].
  apply (match_attr "u" "ncertainty");
    [reflexivity | reflexivity | exact Hx | lia | ].
  now apply match_scalar_text.
Qed.

Lemma search_unc_peak :
  re_search scalar_re_unc_peak
    (txt "<scalar" ++ attr "uncertainty" x ++ attr "peak" p ++ txt ">" ++ v ++ txt "</scalar>")
  = Some [x; p; v].
Proof using Hx Hp Hp1 Hv.
  apply re_search_here. unfold scalar_re_unc_peak. rewrite match_lit.
  apply (match_attr "u" "ncertainty");
    [reflexivity | reflexivity | exact Hx | lia | ].
  apply (match_attr "p" "eak");
    [reflexivity | reflexivity | exact Hp | exact peak_length | ].
  now apply match_scalar_text.
Qed.

Lemma search_peak_unc :
  re_search scalar_re_peak_unc
    (txt "<scalar" ++ attr "peak" p ++ attr "uncertainty" x ++ txt ">" ++ v ++ txt "</scalar>")
  = Some [p; x; v].
Proof using Hx Hp Hp1 Hv.
  apply re_search_here. unfold scalar_re_peak_unc. rewrite match_lit.
  apply (match_attr "p" "eak");
    [reflexivity | reflexivity | exact Hp | exact peak_length | ].
  apply (match_attr "u" "ncertainty");
    [reflexivity | reflexivity | exact Hx | lia | ].
  now apply match_scalar_text.
Qed.

End ScalarLines.

(** ** Patterns: when no match can be found *)

Lemma in_order_quotes ls s : in_order ls s -> (sum_quotes ls <= quotes s)%nat.
Proof.
  revert s. induction ls as [|l ls IH]; intros s H; simpl in *.
  - unfold sum_quotes. simpl. lia.
  - destruct H as (a & b & -> & H). apply IH in H.
    unfold sum_quotes in *. simpl. rewrite !quotes_app. lia.
Qed.

Lemma in_order_split ls1 l ls2 s :
  in_order (ls1 ++ l :: ls2) s ->
  exists a b, s = a ++ l ++ b /\
    (sum_quotes ls1 <= quotes a)%nat /\ (sum_quotes ls2 <= quotes b)%nat.
Proof.
  revert s. induction ls1 as [|l1 ls1 IH]; intros s H; simpl in H.
  - destruct H as (a & b & -> & H). exists a, b. split; [reflexivity|].
    split; [unfold sum_quotes; simpl; lia|now apply in_order_quotes].
  - destruct H as (a & b & -> & H).
    destruct (IH _ H) as (a' & b' & -> & Ha & Hb).
    exists (a ++ l1 ++ a'), b'. split; [now rewrite <- !app_assoc|].
    split; [|exact Hb].
    unfold sum_quotes in *. simpl. rewrite !quotes_app. lia.
Qed.

Lemma quotes_last (s : text) : quotes (s ++ q) = S (quotes s).
Proof. rewrite quotes_app. simpl. lia. Qed.

(** A prefix that has as many quotes as [h], where [h] ends in a quote,
    reaches the end of [h]. *)
Lemma prefix_by_quotes (h t a r : text) :
  (h ++ q) ++ t = a ++ r -> (quotes (h ++ q) <= quotes a)%nat ->
  exists a', a = (h ++ q) ++ a' /\ t = a' ++ r.
Proof.
  intros E Hq. apply app_eq_app in E as [l [[E1 E2]|[E1 E2]]].
  - destruct l as [|c l] using rev_ind.
    + rewrite app_nil_r in E1. exists []. rewrite app_nil_r. split; auto.
    + exfalso. clear IHl. rewrite app_assoc in E1.
      apply app_inj_tail in E1 as [E1 _].
      rewrite quotes_last in Hq. subst h. rewrite quotes_app in Hq. lia.
  - exists l. auto.
Qed.

(** Two ways of cutting a text at its first quote agree. *)
Lemma first_quote_unique (a a' b b' : text) :
  a ++ dquote :: b = a' ++ dquote :: b' ->
  quotes a = O -> quotes a' = O -> a = a'.
Proof.
  revert a'. induction a as [|c a IH]; intros [|c' a'] E Ha Ha'.
  - reflexivity.
  - exfalso. simpl in E. injection E as <- _. discriminate Ha'.
  - exfalso. simpl in E. injection E as -> _. discriminate Ha.
  - simpl in E. injection E as <- E. f_equal.
    simpl in Ha, Ha'. destruct (Ascii.eqb c dquote); [discriminate|].
    eauto.
Qed.

(** After [h], which ends in a quote, the rest of a line whose
    uncertainty attribute comes last holds no [peak=] followed by a
    quote and by one more quote. *)
Lemma no_late_peak (h x w a b : text) :
  quotes x = O -> quotes w = O ->
  (h ++ q) ++ attr "uncertainty" x ++ w = a ++ (txt "peak=" ++ q) ++ b ->
  (quotes (h ++ q) <= quotes a)%nat -> (1 <= quotes b)%nat -> False.
Proof.
  intros Hx Hw E Ha Hb.
  destruct (prefix_by_quotes _ _ _ _ E Ha) as (a' & -> & E').
  assert (Hq : quotes (attr "uncertainty" x ++ w) = 2%nat).
  { unfold attr. rewrite !quotes_app, Hx, Hw. reflexivity. }
  rewrite E' in Hq. rewrite !quotes_app in Hq. simpl in Hq.
  assert (Ha' : quotes a' = O) by lia.
  unfold attr in E'. rewrite <- !app_assoc in E'.
  change (txt " " ++ txt "uncertainty" ++ txt "=" ++ q ++ x ++ q ++ w)
    with (txt " uncertainty=" ++ dquote :: x ++ q ++ w) in E'.
  change (a' ++ txt "peak=" ++ q ++ b)
    with (a' ++ txt "peak=" ++ dquote :: b) in E'.
  rewrite (app_assoc a') in E'.
  apply first_quote_unique in E'.
  - apply (f_equal (@rev ascii)) in E'. rewrite rev_app_distr in E'.
    simpl in E'. discriminate.
  - reflexivity.
  - rewrite quotes_app, Ha'. reflexivity.
Qed.

Section MisorderedLines.
Variables (u x p v : text).
Hypothesis Hu : no_char dquote u = true.
Hypothesis Hx : no_char dquote x = true.
Hypothesis Hp : no_char dquote p = true.
Hypothesis Hv : no_char dquote v = true.

Lemma tail_quotes : quotes (txt ">" ++ v ++ txt "</scalar>") = O.
Proof using Hv.
  rewrite !quotes_app, (quotes_none v Hv). reflexivity.
Qed.

(** The pattern for units, uncertainty, peak finds nothing in a line
    written units, peak, uncertainty. *)
Lemma search_units_unc_peak_misordered :
  re_search scalar_re_units_unc_peak
    (txt "<scalar" ++ attr "units" u ++ attr "peak" p ++
     attr "uncertainty" x ++ txt ">" ++ v ++ txt "</scalar>") = None.
Proof using Hu Hx Hp Hv.
  destruct (re_search _ _) as [g|] eqn:E; [exfalso|reflexivity].
  apply re_search_sound in E.
  change (lits scalar_re_units_unc_peak)
    with ([txt "<scalar"; txt "units=" ++ q; q; txt "uncertainty=" ++ q; q]
          ++ (txt "peak=" ++ q) :: [q; txt ">"; txt "</scalar>"]) in E.
  apply in_order_split in E as (a & b & E & Ha & Hb).
  apply (no_late_peak
           (txt "<scalar" ++ attr "units" u ++ txt " peak=" ++ q ++ p)
           x (txt ">" ++ v ++ txt "</scalar>") a b).
  - now apply quotes_none.
  - apply tail_quotes.
  - rewrite <- E. unfold attr. rewrite <- !app_assoc. reflexivity.
  - etransitivity; [|exact Ha]. unfold attr.
    rewrite !quotes_app, (quotes_none u Hu), (quotes_none p Hp).
    reflexivity.
  - etransitivity; [|exact Hb]. reflexivity.
Qed.

(** The pattern for uncertainty, peak finds nothing in a line written
    peak, uncertainty. *)
Lemma search_unc_peak_misordered :
  re_search scalar_re_unc_peak
    (txt "<scalar" ++ attr "peak" p ++ attr "uncertainty" x ++ txt ">" ++ v ++ txt "</scalar>") = None.
Proof using Hx Hp Hv.
  destruct (re_search _ _) as [g|] eqn:E; [exfalso|reflexivity].
  apply re_search_sound in E.
  change (lits scalar_re_unc_peak)
    with ([txt "<scalar"; txt "uncertainty=" ++ q; q]
          ++ (txt "peak=" ++ q) :: [q; txt ">"; txt "</scalar>"]) in E.
  apply in_order_split in E as (a & b & E & Ha & Hb).
  apply (no_late_peak (txt "<scalar" ++ txt " peak=" ++ q ++ p) x (txt ">" ++ v ++ txt "</scalar>") a b).
  - now apply quotes_none.
  - apply tail_quotes.
  - rewrite <- E. unfold attr. rewrite <- !app_assoc. reflexivity.
  - etransitivity; [|exact Ha]. unfold attr.
    rewrite !quotes_app, (quotes_none p Hp).
    reflexivity.
  - etransitivity; [|exact Hb]. reflexivity.
Qed.

End MisorderedLines.

(** ** The table *)

Lemma text_eqb_true (a b : text) : text_eqb a b = true <-> a = b.
Proof. unfold text_eqb. apply bool_decide_eq_true. Qed.

Lemma text_eqb_false (a b : text) : text_eqb a b = false <-> a <> b.
Proof. unfold text_eqb. apply bool_decide_eq_false. Qed.

Lemma store_insert (t : ResultTable) (p : N) (n : text) (m : Measurement) :
  store t p n m = <[p := <[n := m]> (default ∅ (t !! p))]> t.
Proof.
  unfold store. destruct (t !! p) as [r|] eqn:E.
  - rewrite E. reflexivity.
  - rewrite lookup_insert_eq. simpl. now rewrite insert_insert_eq.
Qed.

Lemma lookup2_store (t : ResultTable) (p : N) (n : text) (m : Measurement) (p' : N) (n' : text) :
  lookup2 (store t p n m) p' n' =
  if decide (p = p' /\ n = n') then Some m else lookup2 t p' n'.
Proof.
  rewrite store_insert. unfold lookup2.
  destruct (decide (p = p')) as [->|Hp].
  - rewrite lookup_insert_eq.
    destruct (decide (n = n')) as [->|Hn].
    + rewrite lookup_insert_eq. rewrite decide_True; auto.
    + rewrite lookup_insert_ne by auto. rewrite decide_False by tauto.
      destruct (t !! p'); reflexivity.
  - rewrite lookup_insert_ne by auto. rewrite decide_False by tauto.
    reflexivity.
Qed.

Lemma store_empty (p : N) (n : text) (m : Measurement) : store ∅ p n m = {[p := {[n := m]}]}.
Proof. rewrite store_insert. reflexivity. Qed.

Lemma sole_entry_empty : sole_entry ∅ = None.
Proof. unfold sole_entry. now rewrite map_to_list_empty. Qed.

Lemma sole_entry_store (p : N) (n : text) (m : Measurement) : sole_entry (store ∅ p n m) = Some (p, n, m).
Proof.
  rewrite store_empty. unfold sole_entry.
  rewrite map_to_list_singleton. cbv iota beta.
  rewrite map_to_list_singleton. reflexivity.
Qed.

(** ** The tail of a branch *)

Lemma float_of_text_NA : float_of_text NA = None.
Proof. vm_compute. reflexivity. Qed.

Lemma float_of_text_INVALID : float_of_text INVALID = None.
Proof. vm_compute. reflexivity. Qed.

Lemma record_value_sentinel (t : ResultTable) (p : N) (n u : text) (x : float) (vs : text) :
  vs = NA \/ vs = INVALID -> record_value t p n u x vs = Ok t.
Proof.
  intros [->| ->]; reflexivity.
Qed.

Lemma not_sentinel (vs : text) (v : float) :
  float_of_text vs = Some v ->
  negb (text_eqb vs NA) && negb (text_eqb vs INVALID) = true.
Proof.
  intros H.
  destruct (text_eqb vs NA) eqn:E1.
  { apply text_eqb_true in E1. subst. rewrite float_of_text_NA in H.
    discriminate. }
  destruct (text_eqb vs INVALID) eqn:E2.
  { apply text_eqb_true in E2. subst. rewrite float_of_text_INVALID in H.
    discriminate. }
  reflexivity.
Qed.

(** The percentage of the code is [(x / v) * 100] in binary64. *)
Lemma percent_of_eq (x v : float) :
  float_mul (SFdiv prec emax x v) (float_of_Z 100) = percent_of x v.
Proof.
  unfold float_mul, percent_of, prec, emax. f_equal.
Qed.

Lemma record_value_stored (t : ResultTable) (p : N) (n u : text) (x : float) (vs : text) (v : float) :
  float_of_text vs = Some v -> is_zero v = false ->
  record_value t p n u x vs =
  Ok (store t p n
        {| value := v; units := u; uncertainty_pct := percent_of x v |}).
Proof.
  intros Hv Hz. unfold record_value. rewrite (not_sentinel _ _ Hv).
  unfold to_float. rewrite Hv. simpl. unfold float_div. rewrite Hz.
  cbn [bind]. now rewrite percent_of_eq.
Qed.

Lemma record_value_zero (t : ResultTable) (p : N) (n u : text) (x : float) (vs : text) (v : float) :
  float_of_text vs = Some v -> is_zero v = true ->
  record_value t p n u x vs = Raise ZeroDivisionError.
Proof.
  intros Hv Hz. unfold record_value. rewrite (not_sentinel _ _ Hv).
  unfold to_float. rewrite Hv. simpl. unfold float_div. rewrite Hz.
  reflexivity.
Qed.

Lemma record_value_not_numeric (t : ResultTable) (p : N) (n u : text) (x : float) (vs : text) :
  float_of_text vs = None -> vs <> NA -> vs <> INVALID ->
  record_value t p n u x vs = Raise ValueError.
Proof.
  intros Hv H1 H2. unfold record_value.
  apply text_eqb_false in H1, H2. rewrite H1, H2. simpl.
  unfold to_float. now rewrite Hv.
Qed.

Lemma uniform_keep : uniform (fun t => Ok t).
Proof. left. reflexivity. Qed.

Lemma uniform_raise e : uniform (fun _ => Raise e).
Proof. right. left. exists e. reflexivity. Qed.

Lemma uniform_ext f g : (forall t, f t = g t) -> uniform f -> uniform g.
Proof.
  intros E [H|[[e H]|(p & n & m & H)]].
  - left. intros t. now rewrite <- E.
  - right. left. exists e. intros t. now rewrite <- E.
  - right. right. exists p, n, m. intros t. now rewrite <- E.
Qed.

Lemma record_value_uniform (p : N) (n u : text) (x : float) (vs : text) :
  uniform (fun t => record_value t p n u x vs).
Proof.
  unfold record_value.
  destruct (negb (text_eqb vs NA) && negb (text_eqb vs INVALID));
    [|apply uniform_keep].
  unfold to_float. destruct (float_of_text vs) as [v|];
    [|apply uniform_raise].
  simpl. unfold float_div. destruct (is_zero v); [apply uniform_raise|].
  simpl. right. right. eexists _, _, _. intros t. reflexivity.
Qed.

Lemma to_float_uniform (s : text)
    (k : float -> ResultTable -> result ResultTable) :
  (forall x, uniform (k x)) ->
  uniform (fun t => x <- to_float s ;; k x t).
Proof.
  intros H. unfold to_float. destruct (float_of_text s) as [x|]; simpl.
  - apply H.
  - apply uniform_raise.
Qed.

Lemma to_int_uniform (s : text)
    (k : N -> ResultTable -> result ResultTable) :
  (forall p, uniform (k p)) ->
  uniform (fun t => p <- to_int s ;; k p t).
Proof.
  intros H. unfold to_int.
  destruct (Nat.ltb MAX_STR_DIGITS (length s)); cbn [bind].
  - apply uniform_raise.
  - apply H.
Qed.

Lemma scalar_with_units_uniform (sl n : text) :
  uniform (scalar_with_units sl n).
Proof.
  unfold scalar_with_units.
  destruct (re_search scalar_re_units_unc_peak sl)
    as [[|g1 [|g2 [|g3 [|g4 g]]]]|];
  try (apply to_float_uniform; intros; apply to_int_uniform; intros;
       apply record_value_uniform);
  destruct (re_search scalar_re_units_peak_unc sl)
    as [[|h1 [|h2 [|h3 [|h4 h]]]]|];
  try apply uniform_keep;
  apply to_int_uniform; intros; apply to_float_uniform; intros;
  apply record_value_uniform.
Qed.

Lemma scalar_without_units_uniform (sl : text) :
  uniform (scalar_without_units sl).
Proof.
  unfold scalar_without_units.
  destruct (re_search scalar_re_unc_peak sl)
    as [[|g1 [|g2 [|g3 g]]]|];
  try (apply to_float_uniform; intros; apply to_int_uniform; intros;
       apply record_value_uniform);
  destruct (re_search scalar_re_peak_unc sl)
    as [[|h1 [|h2 [|h3 h]]]|];
  try apply uniform_keep;
  apply to_int_uniform; intros; apply to_float_uniform; intros;
  apply record_value_uniform.
Qed.

Lemma process_line_uniform (line : text) (rest : list text) : uniform (process_line line rest).
Proof.
  unfold process_line.
  destruct (contains (marker "molar mass") line).
  { destruct rest as [|l1 [|l2 rest]]; try apply uniform_keep.
    unfold molar_mass_block.
    destruct (re_search name_re (strip l1)) as [[|n g]|];
      try apply uniform_keep.
    apply scalar_with_units_uniform. }
  destruct (contains (marker "polydispersity") line).
  { destruct rest as [|l1 [|l2 rest]]; try apply uniform_keep.
    unfold polydispersity_block.
    destruct (contains _ (strip l1)); try apply uniform_keep.
    apply scalar_without_units_uniform. }
  destruct (contains (marker "rms radius") line); try apply uniform_keep.
  destruct rest as [|l1 [|l2 rest]]; try apply uniform_keep.
  unfold rms_radius_block.
  destruct (re_search name_re (strip l1)) as [[|n g]|];
    try apply uniform_keep.
  destruct (text_eqb n (txt "rz")); try apply uniform_keep.
  apply scalar_with_units_uniform.
Qed.

Lemma process_line_effect (line : text) (rest : list text) (t : ResultTable) :
  process_line line rest t = (w <- effect_of line rest ;; Ok (apply_effect w t)).
Proof.
  unfold effect_of.
  destruct (process_line_uniform line rest) as [H|[[e H]|(p & n & m & H)]];
    rewrite !H; simpl.
  - now rewrite sole_entry_empty.
  - reflexivity.
  - now rewrite sole_entry_store.
Qed.

(** ** One well-formed block *)

Lemma digits_no_quote (p : text) :
  forallb is_digit p = true -> no_char dquote p = true.
Proof.
  unfold no_char. induction p as [|c p IH]; simpl; [reflexivity|].
  intros H. apply andb_prop in H as [Hc Hp]. rewrite (IH Hp).
  destruct (Ascii.eqb_spec c dquote) as [->|]; [discriminate|reflexivity].
Qed.

Lemma marker_tests :
  contains (marker "molar mass") (marker "molar mass") = true /\
  contains (marker "molar mass") (marker "polydispersity") = false /\
  contains (marker "polydispersity") (marker "polydispersity") = true /\
  contains (marker "molar mass") (marker "rms radius") = false /\
  contains (marker "polydispersity") (marker "rms radius") = false /\
  contains (marker "rms radius") (marker "rms radius") = true.
Proof. vm_compute. repeat split. Qed.

Lemma scalar_line_with_units (b : Block) :
  b_type b <> Polydispersity ->
  scalar_line b =
  match b_order b with
  | UncertaintyThenPeak =>
      txt "<scalar" ++ attr "units" (b_units b) ++
      attr "uncertainty" (b_uncertainty b) ++ attr "peak" (b_peak b) ++
      txt ">" ++ b_value b ++ txt "</scalar>"
  | PeakThenUncertainty =>
      txt "<scalar" ++ attr "units" (b_units b) ++
      attr "peak" (b_peak b) ++ attr "uncertainty" (b_uncertainty b) ++
      txt ">" ++ b_value b ++ txt "</scalar>"
  end.
Proof.
  intros H. unfold scalar_line.
  destruct (b_type b); [|congruence|];
    destruct (b_order b); rewrite <- ?app_assoc; reflexivity.
Qed.

Lemma scalar_line_without_units (b : Block) :
  b_type b = Polydispersity ->
  scalar_line b =
  match b_order b with
  | UncertaintyThenPeak =>
      txt "<scalar" ++
      attr "uncertainty" (b_uncertainty b) ++ attr "peak" (b_peak b) ++
      txt ">" ++ b_value b ++ txt "</scalar>"
  | PeakThenUncertainty =>
      txt "<scalar" ++
      attr "peak" (b_peak b) ++ attr "uncertainty" (b_uncertainty b) ++
      txt ">" ++ b_value b ++ txt "</scalar>"
  end.
Proof.
  intros H. unfold scalar_line. rewrite H.
  destruct (b_order b); rewrite app_nil_l, <- ?app_assoc; reflexivity.
Qed.

Lemma well_formed_split (b : Block) :
  well_formed b = true -> well_formed_parts b.
Proof.
  unfold well_formed, name_ok. intros H.
  repeat (apply andb_prop in H as [H ?]). now constructor.
Qed.

Lemma to_int_short (b : Block) :
  short_peak b = true -> to_int (b_peak b) = Ok (peak_of b).
Proof.
  unfold short_peak, to_int, peak_of. intros H.
  apply Nat.leb_le in H.
  destruct (Nat.ltb_spec MAX_STR_DIGITS (length (b_peak b))); [lia|].
  reflexivity.
Qed.

Lemma to_int_long (b : Block) :
  short_peak b = false -> to_int (b_peak b) = Raise ValueError.
Proof.
  unfold short_peak, to_int. intros H.
  apply Nat.leb_gt in H.
  destruct (Nat.ltb_spec MAX_STR_DIGITS (length (b_peak b))); [|lia].
  reflexivity.
Qed.

(** The two conversions raise the same exception, so their order does not
    show in the result. *)
Lemma conversions_commute {A : Type} (u k : text)
    (f : float -> N -> result A) :
  (p <- to_int k ;; x <- to_float u ;; f x p) =
  (x <- to_float u ;; p <- to_int k ;; f x p).
Proof.
  unfold to_int, to_float.
  destruct (Nat.ltb MAX_STR_DIGITS (length k)), (float_of_text u);
    reflexivity.
Qed.

(** The conversions of a block and what follows them, as the code has them
    for each order of the attributes. *)
Lemma block_result_recorded (b : Block) (t : ResultTable) :
  recorded_name b = true ->
  block_result b t =
  (x <- to_float (b_uncertainty b) ;;
   p <- to_int (b_peak b) ;;
   record_value t p (b_name b) (stored_units b) x (strip (b_value b))).
Proof.
  intros R. unfold block_result. rewrite R.
  destruct (b_order b); [reflexivity|].
  apply (conversions_commute (b_uncertainty b) (b_peak b)
           (fun x p => record_value t p (b_name b) (stored_units b) x
                         (strip (b_value b)))).
Qed.

(** The scalar line of a well-formed block with units, read by
    [scalar_with_units]. *)
Lemma scalar_with_units_block (b : Block) (n : text) (t : ResultTable) :
  well_formed b = true -> b_type b <> Polydispersity ->
  scalar_with_units (scalar_line b) n t =
  (x <- to_float (b_uncertainty b) ;;
   p <- to_int (b_peak b) ;;
   record_value t p n (b_units b) x (strip (b_value b))).
Proof.
  intros W Hty. apply well_formed_split in W. destruct W.
  rewrite scalar_line_with_units by exact Hty.
  unfold scalar_with_units. destruct (b_order b).
  - rewrite search_units_unc_peak by assumption. reflexivity.
  - rewrite search_units_unc_peak_misordered
      by auto using digits_no_quote.
    rewrite search_units_peak_unc by assumption.
    apply (conversions_commute (b_uncertainty b) (b_peak b)
             (fun x p => record_value t p n (b_units b) x
                           (strip (b_value b)))).
Qed.

Lemma scalar_without_units_block (b : Block) (t : ResultTable) :
  well_formed b = true -> b_type b = Polydispersity ->
  scalar_without_units (scalar_line b) t =
  (x <- to_float (b_uncertainty b) ;;
   p <- to_int (b_peak b) ;;
   record_value t p (txt "Mw/Mn") [] x (strip (b_value b))).
Proof.
  intros W Hty. apply well_formed_split in W. destruct W.
  rewrite scalar_line_without_units by exact Hty.
  unfold scalar_without_units. destruct (b_order b).
  - rewrite search_unc_peak by assumption. reflexivity.
  - rewrite search_unc_peak_misordered
      by auto using digits_no_quote.
    rewrite search_peak_unc by assumption.
    apply (conversions_commute (b_uncertainty b) (b_peak b)
             (fun x p => record_value t p (txt "Mw/Mn") [] x
                           (strip (b_value b)))).
Qed.

Lemma name_line_search (b : Block) :
  well_formed b = true -> re_search name_re (name_line b) = Some [b_name b].
Proof.
  intros W. apply well_formed_split in W. destruct W.
  now apply name_re_name_line.
Qed.

(** The step at the first line of a well-formed block whose name is one
    the extractor records. *)
Lemma block_step (b : Block) (l1 l2 : text) (rest : list text)
    (t : ResultTable) :
  well_formed b = true -> recorded_name b = true ->
  strip l1 = name_line b -> strip l2 = scalar_line b ->
  process_line (marker_line b) (l1 :: l2 :: rest) t =
  (x <- to_float (b_uncertainty b) ;;
   p <- to_int (b_peak b) ;;
   record_value t p (b_name b) (stored_units b) x (strip (b_value b))).
Proof.
  intros W R E1 E2.
  destruct marker_tests as (M1 & M2 & M3 & M4 & M5 & M6).
  unfold process_line, marker_line, recorded_name, stored_units in *.
  destruct (b_type b) eqn:Ety; simpl type_tag.
  - rewrite M1, E1, E2. unfold molar_mass_block.
    rewrite name_line_search by exact W.
    apply scalar_with_units_block; [exact W|congruence].
  - rewrite M2, M3, E1, E2. unfold polydispersity_block.
    apply text_eqb_true in R. unfold name_line. rewrite R.
    replace (contains (txt "<name>Mw/Mn</name>")
               (txt "<name>" ++ txt "Mw/Mn" ++ txt "</name>"))
      with true by (vm_compute; reflexivity).
    now apply scalar_without_units_block.
  - rewrite M4, M5, M6, E1, E2. unfold rms_radius_block.
    rewrite name_line_search by exact W.
    rewrite R. apply text_eqb_true in R. rewrite R.
    apply scalar_with_units_block; [exact W|congruence].
Qed.

(** ** The loop *)

Lemma process_line_short (line : text) (rest : list text) (t : ResultTable) :
  (length rest < 2)%nat -> process_line line rest t = Ok t.
Proof.
  intros H. unfold process_line.
  destruct rest as [|l1 [|l2 rest]]; [| |simpl in H; lia];
    repeat match goal with |- context [if ?c then _ else _] => destruct c end;
    reflexivity.
Qed.

Lemma scan_lines_short (ls : list text) (t : ResultTable) :
  (length ls <= 2)%nat -> scan_lines ls t = Ok t.
Proof.
  revert t. induction ls as [|l ls IH]; intros t H; simpl; [reflexivity|].
  simpl in H. rewrite process_line_short by lia. simpl. apply IH. lia.
Qed.

Lemma raise_any_table (line : text) (rest : list text) (t0 : ResultTable)
    (e : exn) :
  process_line line rest t0 = Raise e ->
  forall t, process_line line rest t = Raise e.
Proof.
  intros H t.
  destruct (process_line_uniform line rest) as [U|[[e' U]|(p & n & m & U)]].
  - rewrite U in H. discriminate.
  - rewrite U in *. exact H.
  - rewrite U in H. discriminate.
Qed.

(** A step that raises makes the whole scan raise, wherever it stands. *)
Lemma scan_lines_raises (pre : list text) (line : text) (rest : list text)
    (t0 : ResultTable) (e : exn) :
  process_line (strip line) rest t0 = Raise e ->
  forall t, exists e', scan_lines (pre ++ line :: rest) t = Raise e'.
Proof.
  intros H. induction pre as [|l pre IH]; intros t; simpl.
  - rewrite (raise_any_table _ _ _ _ H). simpl. eauto.
  - destruct (process_line (strip l) (pre ++ line :: rest) t) as [t1|e1];
      simpl; eauto.
Qed.

Lemma extract_of_raise (xml : text) (e : exn) :
  scan_document xml = Raise e -> extract_peak_results xml = ∅.
Proof. unfold extract_peak_results. now intros ->. Qed.

Lemma extract_of_ok (xml : text) (t : ResultTable) :
  scan_document xml = Ok t -> extract_peak_results xml = t.
Proof. unfold extract_peak_results. now intros ->. Qed.

Lemma effect_at_here (l : text) (ls : list text) :
  effect_at (l :: ls) 0 = effect_of (strip l) ls.
Proof. reflexivity. Qed.

Lemma effect_at_next (l : text) (ls : list text) (k : nat) :
  effect_at (l :: ls) (S k) = effect_at ls k.
Proof. reflexivity. Qed.

Lemma scan_lines_step (l : text) (ls : list text) (t t' : ResultTable) :
  scan_lines (l :: ls) t = Ok t' ->
  exists w, effect_at (l :: ls) 0 = Ok w /\
            scan_lines ls (apply_effect w t) = Ok t'.
Proof.
  simpl. rewrite process_line_effect, effect_at_here.
  destruct (effect_of (strip l) ls) as [w|e]; simpl; [|discriminate].
  eauto.
Qed.

(** A key no step writes keeps what it had. *)
Lemma scan_lines_unwritten (lines : list text) (t t' : ResultTable)
    (p : N) (n : text) :
  scan_lines lines t = Ok t' ->
  (forall k, ~ writes_at lines k p n) ->
  lookup2 t' p n = lookup2 t p n.
Proof.
  revert t. induction lines as [|l ls IH]; intros t H Hw.
  - simpl in H. now injection H as <-.
  - apply scan_lines_step in H as (w & Hw0 & H).
    rewrite (IH _ H).
    + destruct w as [[[p' n'] m]|]; simpl; [|reflexivity].
      rewrite lookup2_store. destruct (decide _) as [[-> ->]|]; [|reflexivity].
      exfalso. apply (Hw O). now exists m.
    + intros k Hk. apply (Hw (S k)). exact Hk.
Qed.

(** The last step that writes a key decides what the key holds. *)
Lemma scan_lines_last_write (lines : list text) (j : nat)
    (t t' : ResultTable) (p : N) (n : text) (m : Measurement) :
  scan_lines lines t = Ok t' ->
  effect_at lines j = Ok (Some (p, n, m)) ->
  (forall k, (j < k)%nat -> ~ writes_at lines k p n) ->
  lookup2 t' p n = Some m.
Proof.
  revert lines t. induction j as [|j IH]; intros [|l ls] t H Hj Hlast;
    try discriminate.
  - apply scan_lines_step in H as (w & Hw0 & H).
    rewrite Hj in Hw0. injection Hw0 as <-. simpl in H.
    rewrite (scan_lines_unwritten _ _ _ p n H).
    + rewrite lookup2_store. now rewrite decide_True.
    + intros k Hk. apply (Hlast (S k)); [lia|exact Hk].
  - apply scan_lines_step in H as (w & _ & H).
    apply (IH ls _ H).
    + exact Hj.
    + intros k Hk. apply (Hlast (S k)). lia.
Qed.

Lemma apply_effect_keeps (w : option (N * text * Measurement))
    (t : ResultTable) (p : N) (n : text) :
  is_Some (lookup2 t p n) -> is_Some (lookup2 (apply_effect w t) p n).
Proof.
  destruct w as [[[p' n'] m]|]; simpl; [|auto].
  rewrite lookup2_store. destruct (decide _); eauto.
Qed.

Lemma scan_lines_keeps (lines : list text) (t t' : ResultTable)
    (p : N) (n : text) :
  scan_lines lines t = Ok t' ->
  is_Some (lookup2 t p n) -> is_Some (lookup2 t' p n).
Proof.
  revert t. induction lines as [|l ls IH]; intros t H Hs.
  - simpl in H. now injection H as <-.
  - apply scan_lines_step in H as (w & _ & H).
    apply (IH _ H). now apply apply_effect_keeps.
Qed.

(** Whatever a step writes is still there at the end of a scan that
    completes. *)
Lemma scan_lines_written (lines : list text) (j : nat) (t t' : ResultTable)
    (p : N) (n : text) :
  scan_lines lines t = Ok t' -> writes_at lines j p n ->
  is_Some (lookup2 t' p n).
Proof.
  revert lines t. induction j as [|j IH]; intros [|l ls] t H [m Hj];
    try discriminate.
  - apply scan_lines_step in H as (w & Hw0 & H).
    rewrite Hj in Hw0. injection Hw0 as <-. simpl in H.
    apply (scan_lines_keeps _ _ _ _ _ H).
    rewrite lookup2_store. rewrite decide_True; eauto.
  - apply scan_lines_step in H as (w & _ & H).
    apply (IH ls _ H). now exists m.
Qed.

Lemma lookup2_record (t : ResultTable) (p : N) (n : text) (m : Measurement) :
  lookup2 t p n = Some m <-> exists r, t !! p = Some r /\ r !! n = Some m.
Proof.
  unfold lookup2. destruct (t !! p) as [r|]; split.
  - intros H. eauto.
  - intros (r' & [= <-] & H). exact H.
  - discriminate.
  - intros (r' & [=] & _).
Qed.

(** ** Blocks in a document *)

Lemma block_at_drop (lines : list text) (i : nat) (b : Block) :
  block_at lines i b ->
  exists l0 l1 l2 rest,
    drop i lines = l0 :: l1 :: l2 :: rest /\ holds_block b l0 l1 l2.
Proof.
  intros (l0 & l1 & l2 & H0 & H1 & H2 & Hb).
  exists l0, l1, l2, (drop (S (S (S i))) lines). split; [|exact Hb].
  rewrite (drop_S _ _ _ H0), (drop_S _ _ _ H1), (drop_S _ _ _ H2).
  reflexivity.
Qed.

Lemma block_at_split (lines : list text) (i : nat) (b : Block) :
  block_at lines i b ->
  exists pre l0 l1 l2 rest,
    lines = pre ++ l0 :: l1 :: l2 :: rest /\ length pre = i /\
    holds_block b l0 l1 l2.
Proof.
  intros H. pose proof H as (l0' & _ & _ & H0 & _).
  apply block_at_drop in H as (l0 & l1 & l2 & rest & E & Hb).
  exists (take i lines), l0, l1, l2, rest. split; [|split; [|exact Hb]].
  - rewrite <- E. now rewrite take_drop.
  - apply length_take_le. apply lookup_lt_Some in H0. lia.
Qed.

(** The step at the first line of a block, on any table. *)
Lemma block_at_step (lines : list text) (i : nat) (b : Block) :
  block_at lines i b -> well_formed b = true -> recorded_name b = true ->
  exists l0 rest,
    drop i lines = l0 :: rest /\
    forall t, process_line (strip l0) rest t =
      (x <- to_float (b_uncertainty b) ;;
       p <- to_int (b_peak b) ;;
       record_value t p (b_name b) (stored_units b) x (strip (b_value b))).
Proof.
  intros H W R.
  apply block_at_drop in H as (l0 & l1 & l2 & rest & E & H0 & H1 & H2).
  exists l0, (l1 :: l2 :: rest). split; [exact E|].
  intros t. rewrite H0. now apply block_step.
Qed.

(** A well-formed block with a peak number that [int] converts, a numeric
    uncertainty and a numeric non-zero value is stored by the step at its
    first line. *)
Lemma block_effect (lines : list text) (i : nat) (b : Block) (x v : float) :
  block_at lines i b -> well_formed b = true -> recorded_name b = true ->
  short_peak b = true -> measures b x v ->
  effect_at lines i = Ok (Some (peak_of b, b_name b, measurement_of b x v)).
Proof.
  intros H W R Hp (Hx & Hv & Hz).
  destruct (block_at_step _ _ _ H W R) as (l0 & rest & E & Hs).
  unfold effect_at, effect_of. rewrite E, Hs.
  unfold to_float. rewrite Hx, (to_int_short b Hp). cbn [bind].
  rewrite (record_value_stored _ _ _ _ _ _ v) by assumption. cbn [bind].
  now rewrite sole_entry_store.
Qed.

(** The step at the first line of a block whose peak number has more
    digits than [int] converts raises, on any table. *)
Lemma long_peak_raises (lines : list text) (i : nat) (b : Block) :
  block_at lines i b -> well_formed b = true -> recorded_name b = true ->
  short_peak b = false ->
  forall t, step_at lines i t = Raise ValueError.
Proof.
  intros H W R Hp t.
  destruct (block_at_step _ _ _ H W R) as (l0 & rest & E & Hs).
  unfold step_at. rewrite E, Hs, (to_int_long b Hp).
  unfold to_float. destruct (float_of_text (b_uncertainty b)); reflexivity.
Qed.

(** ** The claims about extraction *)

Lemma with_order_well_formed (o : attr_order) (b : Block) :
  well_formed (with_order o b) = well_formed b.
Proof. reflexivity. Qed.

(** A document of three lines that hold one block: the table after the
    scan is the table after the step at the first line. *)
Lemma scan_three_lines (l0 l1 l2 : text) (t : ResultTable) :
  scan_lines [l0; l1; l2] t = process_line (strip l0) [l1; l2] t.
Proof.
  change (scan_lines [l0; l1; l2] t)
    with (t1 <- process_line (strip l0) [l1; l2] t ;; scan_lines [l1; l2] t1).
  destruct (process_line (strip l0) [l1; l2] t) as [t1|e];
    [|reflexivity].
  apply scan_lines_short. simpl. lia.
Qed.

(** C4, as the code has it. A document that holds one well-formed block
    whose name is one its type records, with a peak number that [int]
    converts, a numeric uncertainty [x] and a numeric non-zero value [v],
    is extracted to exactly one measurement: under the peak and the name
    of the block, the value [v], the units of the block (none for
    polydispersity) and the percentage [(x / v) * 100], computed in
    binary64 with the division first ([7036874417766400 * 2^-46] is the
    double [100.0]). The result is the same for both orders of the
    attributes of the scalar line: [o] is any of the two. *)
Theorem extract_well_formed_block (b : Block) (x v : float) (o : attr_order)
    (xml l0 l1 l2 : text) :
  well_formed b = true -> recorded_name b = true -> short_peak b = true ->
  measures b x v ->
  split_lines xml = [l0; l1; l2] ->
  holds_block (with_order o b) l0 l1 l2 ->
  extract_peak_results xml =
  {[ peak_of b :=
       {[ b_name b :=
            {| value := v; units := stored_units b;
               uncertainty_pct :=
                 SFmul 53 1024 (SFdiv 53 1024 x v)
                   (S754_finite false 7036874417766400 (-46)) |} ]} ]}.
Proof.
  intros W R Hp (Hx & Hv & Hz) Hs (H0 & H1 & H2).
  apply extract_of_ok. unfold scan_document. rewrite Hs, scan_three_lines.
  rewrite H0.
  rewrite (block_step (with_order o b)) by assumption.
  change (b_uncertainty (with_order o b)) with (b_uncertainty b).
  change (b_value (with_order o b)) with (b_value b).
  change (b_peak (with_order o b)) with (b_peak b).
  unfold to_float. rewrite Hx, (to_int_short b Hp). cbn [bind].
  rewrite (record_value_stored _ _ _ _ _ _ v) by assumption.
  rewrite store_empty. reflexivity.
Qed.

Lemma extract_well_formed_block_witness :
  extract_peak_results (single (with_order PeakThenUncertainty mn_block)) =
  {[ 1%N :=
       {[ txt "Mn" :=
            {| value := S754_finite false 8246337208320000 (-39);
               units := txt "g/mol";
               uncertainty_pct :=
                 S754_finite false 4503599627370496 (-51) |} ]} ]}.
Proof.
  rewrite (extract_well_formed_block mn_block
             (S754_finite false 5277655813324800 (-44))
             (S754_finite false 8246337208320000 (-39))
             PeakThenUncertainty
             (single (with_order PeakThenUncertainty mn_block))
             (marker_line mn_block) (name_line mn_block)
             (scalar_line (with_order PeakThenUncertainty mn_block))).
  - reflexivity.
  - reflexivity.
  - reflexivity.
  - reflexivity.
  - repeat split; vm_compute; reflexivity.
  - vm_compute; reflexivity.
  - repeat split; vm_compute; reflexivity.
Defined.

(** C4 as stated fails: each of these documents is one well-formed block
    on its three lines, and none of them is extracted to a measurement.
    The name [rn] is not recorded under the rms radius type; the value [0]
    cannot be divided by; [n/a] is a sentinel; an uncertainty that is not
    numeric and a peak number of 4301 digits cannot be converted. *)
Lemma well_formed_block_not_extracted :
  (well_formed rn_block = true /\
   extract_peak_results (single rn_block) = ∅) /\
  (well_formed zero_block = true /\
   extract_peak_results (single zero_block) = ∅) /\
  (well_formed missing_block = true /\
   extract_peak_results (single missing_block) = ∅) /\
  (well_formed unmeasured_block = true /\
   extract_peak_results (single unmeasured_block) = ∅) /\
  (well_formed long_peak_block = true /\
   length (b_peak long_peak_block) = 4301%nat /\
   extract_peak_results (single long_peak_block) = ∅).
Proof.
  do 4 (split; [split; vm_compute; reflexivity|]).
  split; [vm_compute; reflexivity|].
  split; [vm_compute; reflexivity|].
  apply (extract_of_raise _ ValueError). unfold scan_document.
  assert (Hs : split_lines (single long_peak_block)
               = [marker_line long_peak_block; name_line long_peak_block;
                  scalar_line long_peak_block])
    by (vm_compute; reflexivity).
  rewrite Hs, scan_three_lines.
  assert (H0 : strip (marker_line long_peak_block)
               = marker_line long_peak_block) by (vm_compute; reflexivity).
  rewrite H0, (block_step long_peak_block); vm_compute; reflexivity.
Qed.

(** The step at the first line of a block whose value is zero or not a
    number raises, on any table. *)
Lemma block_raises (lines : list text) (i : nat) (b : Block) :
  block_at lines i b -> well_formed b = true -> recorded_name b = true ->
  (exists z, float_of_text (strip (b_value b)) = Some z /\ is_zero z = true)
  \/ (float_of_text (strip (b_value b)) = None /\
      strip (b_value b) <> NA /\ strip (b_value b) <> INVALID) ->
  forall t, exists e, scan_lines lines t = Raise e.
Proof.
  intros H W R Hv.
  pose proof H as Hb.
  apply block_at_split in H as (pre & l0 & l1 & l2 & rest & -> & _ & Hh).
  assert (Hr : exists e,
             process_line (strip l0) (l1 :: l2 :: rest) ∅ = Raise e).
  { destruct Hh as (H0 & H1 & H2). rewrite H0, (block_step b) by assumption.
    unfold to_float. destruct (float_of_text (b_uncertainty b)) as [x|];
      cbn [bind]; [|eauto].
    unfold to_int.
    destruct (Nat.ltb MAX_STR_DIGITS (length (b_peak b))); cbn [bind];
      [eauto|].
    destruct Hv as [(z & Hz & Hz0)|(Hn & Hna & Hinv)].
    - rewrite (record_value_zero _ _ _ _ _ _ z) by assumption. eauto.
    - rewrite record_value_not_numeric by assumption. eauto. }
  destruct Hr as [e Hr]. intros t.
  apply (scan_lines_raises pre l0 (l1 :: l2 :: rest) ∅ e Hr).
Qed.

(** C1, as the code has it. A well-formed block with a name that its type
    records (any name under molar mass, [rz] under rms radius, [Mw/Mn]
    under polydispersity) whose value text parses to zero, anywhere in a
    document: the scan raises (at the division, or before, at a
    conversion of the same block), the handler catches it, and the
    extractor returns the empty table. Nothing of the document is kept. *)
Theorem zero_value_empties_table (xml : text) (i : nat) (b : Block)
    (z : float) :
  block_at (split_lines xml) i b ->
  well_formed b = true -> recorded_name b = true ->
  float_of_text (strip (b_value b)) = Some z -> is_zero z = true ->
  (exists e, scan_document xml = Raise e) /\ extract_peak_results xml = ∅.
Proof.
  intros H W R Hz Hz0.
  destruct (block_raises _ _ _ H W R (or_introl (ex_intro _ z (conj Hz Hz0)))
              ∅) as [e He].
  split; [now exists e|]. now apply (extract_of_raise xml e).
Qed.

Lemma zero_value_empties_table_witness :
  (exists e, scan_document (document [mn_block; zero_block; mw_block])
             = Raise e) /\
  extract_peak_results (document [mn_block; zero_block; mw_block]) = ∅.
Proof.
  apply (zero_value_empties_table _ 5 zero_block (S754_zero false)).
  - eexists _, _, _. repeat split; vm_compute; reflexivity.
  - reflexivity.
  - reflexivity.
  - vm_compute; reflexivity.
  - reflexivity.
Defined.

(** C1 as stated fails: with a zero-valued block in the document, neither
    that block nor the block before it is in the table, although the
    block before it is extracted when it stands alone. *)
Lemma zero_value_not_recorded :
  well_formed zero_block = true /\
  float_of_text (b_value zero_block) = Some (S754_zero false) /\
  lookup2 (extract_peak_results (document [mn_block; zero_block]))
    1 (txt "Mp") = None /\
  lookup2 (extract_peak_results (document [mn_block; zero_block]))
    1 (txt "Mn") = None /\
  is_Some (lookup2 (extract_peak_results (document [mn_block]))
             1 (txt "Mn")).
Proof. vm_compute. repeat split. eauto. Qed.

(** C2, as the code has it. A well-formed block with a name that its type
    records (any name under molar mass, [rz] under rms radius, [Mw/Mn]
    under polydispersity) whose value text is neither a number nor a
    sentinel, anywhere in a document: the scan raises, and the extractor
    returns the empty table. *)
Theorem non_numeric_value_empties_table (xml : text) (i : nat) (b : Block) :
  block_at (split_lines xml) i b ->
  well_formed b = true -> recorded_name b = true ->
  float_of_text (strip (b_value b)) = None ->
  strip (b_value b) <> NA -> strip (b_value b) <> INVALID ->
  (exists e, scan_document xml = Raise e) /\ extract_peak_results xml = ∅.
Proof.
  intros H W R Hn H1 H2.
  destruct (block_raises _ _ _ H W R (or_intror (conj Hn (conj H1 H2))) ∅)
    as [e He].
  split; [now exists e|]. now apply (extract_of_raise xml e).
Qed.

Lemma non_numeric_value_empties_table_witness :
  (exists e, scan_document (document [mn_block; garbled_block; mw_block])
             = Raise e) /\
  extract_peak_results (document [mn_block; garbled_block; mw_block]) = ∅.
Proof.
  apply (non_numeric_value_empties_table _ 5 garbled_block).
  - eexists _, _, _. repeat split; vm_compute; reflexivity.
  - reflexivity.
  - reflexivity.
  - vm_compute; reflexivity.
  - vm_compute. discriminate.
  - vm_compute. discriminate.
Defined.

(** C2 as stated fails: one block with a non-numeric value, and the
    well-formed blocks before and after it are not in the table. *)
Lemma non_numeric_value_aborts :
  float_of_text (b_value garbled_block) = None /\
  lookup2 (extract_peak_results
             (document [mn_block; garbled_block; mw_block]))
    1 (txt "Mn") = None /\
  lookup2 (extract_peak_results
             (document [mn_block; garbled_block; mw_block]))
    1 (txt "Mw") = None /\
  is_Some (lookup2 (extract_peak_results (document [mn_block; mw_block]))
             1 (txt "Mn")) /\
  is_Some (lookup2 (extract_peak_results (document [mn_block; mw_block]))
             1 (txt "Mw")).
Proof. vm_compute. repeat split; eauto. Qed.

Lemma step_at_effect (lines : list text) (k : nat) (t : ResultTable) :
  step_at lines k t = (w <- effect_at lines k ;; Ok (apply_effect w t)).
Proof.
  unfold step_at, effect_at. destruct (drop k lines) as [|l rest].
  - reflexivity.
  - apply process_line_effect.
Qed.

Lemma lookup2_empty (p : N) (n : text) : lookup2 ∅ p n = None.
Proof. unfold lookup2. now rewrite lookup_empty. Qed.

Lemma effect_at_beyond (lines : list text) (k : nat) :
  (length lines <= k)%nat -> effect_at lines k = Ok None.
Proof.
  intros H. unfold effect_at. now rewrite drop_ge.
Qed.

Lemma writes_key_true (lines : list text) (k : nat) (p : N) (n : text) :
  writes_at lines k p n -> writes_key lines k p n = true.
Proof.
  intros [m H]. unfold writes_key. rewrite H.
  now rewrite !bool_decide_eq_true_2.
Qed.

(** The test [no_writes_except] is sound. *)
Lemma no_writes_check (skipped : nat -> bool) (lines : list text) (p : N)
    (n : text) :
  no_writes_except skipped lines p n = true ->
  forall k, skipped k = false -> ~ writes_at lines k p n.
Proof.
  unfold no_writes_except. rewrite forallb_forall. intros H k Hk Hw.
  destruct (Nat.lt_ge_cases k (length lines)) as [Hlt|Hge].
  - specialize (H k). rewrite Hk, (writes_key_true _ _ _ _ Hw) in H.
    discriminate H. apply in_seq. lia.
  - destruct Hw as [m Hw]. rewrite effect_at_beyond in Hw by exact Hge.
    discriminate.
Qed.

(** A scan that completes has converted the peak number of every block
    it stores. *)
Lemma scan_ok_short_peak (lines : list text) (i : nat) (b : Block)
    (t t' : ResultTable) :
  scan_lines lines t = Ok t' -> block_at lines i b ->
  well_formed b = true -> recorded_name b = true -> short_peak b = true.
Proof.
  intros Hscan H W R. destruct (short_peak b) eqn:Hp; [reflexivity|exfalso].
  pose proof (long_peak_raises _ _ _ H W R Hp ∅) as Hr.
  apply block_at_split in H as (pre & l0 & l1 & l2 & rest & -> & Hlen & _).
  subst i. unfold step_at in Hr. rewrite drop_app_length in Hr.
  destruct (scan_lines_raises pre l0 (l1 :: l2 :: rest) ∅ _ Hr t) as [e He].
  rewrite He in Hscan. discriminate.
Qed.

(** C7, as the code has it. In a document whose scan raises no exception,
    two well-formed blocks with the same peak, each with a name its type
    records, a numeric uncertainty and a numeric non-zero value, are both
    in the one record of that peak, whatever their names; and each name
    holds the measurement of its block unless a later line stores under
    the same peak and name again (which a block of another name never
    does). *)
Theorem same_peak_blocks_accumulate (xml : text) (t : ResultTable)
    (i j : nat) (b1 b2 : Block) (x1 v1 x2 v2 : float) :
  scan_document xml = Ok t ->
  block_at (split_lines xml) i b1 -> block_at (split_lines xml) j b2 ->
  well_formed b1 = true -> recorded_name b1 = true -> measures b1 x1 v1 ->
  well_formed b2 = true -> recorded_name b2 = true -> measures b2 x2 v2 ->
  peak_of b1 = peak_of b2 ->
  exists record,
    extract_peak_results xml !! peak_of b1 = Some record /\
    is_Some (record !! b_name b1) /\ is_Some (record !! b_name b2) /\
    ((forall k, (i < k)%nat ->
        ~ writes_at (split_lines xml) k (peak_of b1) (b_name b1)) ->
     record !! b_name b1 = Some (measurement_of b1 x1 v1)) /\
    ((forall k, (j < k)%nat ->
        ~ writes_at (split_lines xml) k (peak_of b2) (b_name b2)) ->
     record !! b_name b2 = Some (measurement_of b2 x2 v2)).
Proof.
  intros Hscan H1 H2 W1 R1 M1 W2 R2 M2 Hp.
  rewrite (extract_of_ok _ _ Hscan).
  pose proof (scan_ok_short_peak _ _ _ _ _ Hscan H1 W1 R1) as P1.
  pose proof (scan_ok_short_peak _ _ _ _ _ Hscan H2 W2 R2) as P2.
  pose proof (block_effect _ _ _ _ _ H1 W1 R1 P1 M1) as E1.
  pose proof (block_effect _ _ _ _ _ H2 W2 R2 P2 M2) as E2.
  assert (S1 : is_Some (lookup2 t (peak_of b1) (b_name b1))).
  { eapply scan_lines_written; [exact Hscan|]. eexists. exact E1. }
  assert (S2 : is_Some (lookup2 t (peak_of b1) (b_name b2))).
  { rewrite Hp. eapply scan_lines_written; [exact Hscan|].
    eexists. exact E2. }
  destruct S1 as [m1 S1]. pose proof S1 as S1'.
  apply lookup2_record in S1 as (r & Hr & Hr1).
  exists r. split; [exact Hr|]. split; [eauto|].
  assert (L : forall n, lookup2 t (peak_of b1) n = r !! n).
  { intros n. unfold lookup2. now rewrite Hr. }
  rewrite <- !L. split; [exact S2|]. split.
  - intros Hlast. eapply scan_lines_last_write; eauto.
  - intros Hlast. rewrite Hp.
    eapply scan_lines_last_write; eauto.
Qed.

Lemma same_peak_blocks_accumulate_witness :
  exists record,
    extract_peak_results (document [mn_block; mw_block; pdi_block])
      !! 1%N = Some record /\
    record !! txt "Mn" =
      Some {| value := S754_finite false 8246337208320000 (-39);
              units := txt "g/mol";
              uncertainty_pct := S754_finite false 4503599627370496 (-51) |}
    /\
    record !! txt "Mw" =
      Some {| value := S754_finite false 8246337208320000 (-38);
              units := txt "g/mol";
              uncertainty_pct := S754_finite false 4503599627370496 (-51) |}.
Proof.
  destruct (same_peak_blocks_accumulate
              (document [mn_block; mw_block; pdi_block])
              (extract_peak_results (document [mn_block; mw_block; pdi_block]))
              1 5 mn_block mw_block
              (float_of_Z 300) (float_of_Z 15000)
              (float_of_Z 600) (float_of_Z 30000))
    as (r & Hr & _ & _ & Hmn & Hmw).
  - vm_compute. reflexivity.
  - eexists _, _, _. repeat split; vm_compute; reflexivity.
  - eexists _, _, _. repeat split; vm_compute; reflexivity.
  - reflexivity.
  - reflexivity.
  - repeat split; vm_compute; reflexivity.
  - reflexivity.
  - reflexivity.
  - repeat split; vm_compute; reflexivity.
  - reflexivity.
  - exists r. split; [exact Hr|]. split.
    + transitivity
        (Some (measurement_of mn_block (float_of_Z 300) (float_of_Z 15000)));
        [|vm_compute; reflexivity].
      apply Hmn. intros k Hk.
      apply (no_writes_check (fun k => Nat.leb k 1)).
      * vm_compute. reflexivity.
      * apply Nat.leb_gt. exact Hk.
    + transitivity
        (Some (measurement_of mw_block (float_of_Z 600) (float_of_Z 30000)));
        [|vm_compute; reflexivity].
      apply Hmw. intros k Hk.
      apply (no_writes_check (fun k => Nat.leb k 5)).
      * vm_compute. reflexivity.
      * apply Nat.leb_gt. exact Hk.
Defined.

(** C7 as stated fails: two well-formed blocks of peak 1 with the names
    [Mn] and [Mw], followed by a block whose value is zero. The table has
    no record for peak 1, so neither pair is retained, although both are
    when the third block is not there. *)
Lemma same_peak_blocks_lost :
  block_at (split_lines (document [mn_block; mw_block; zero_block]))
    1 mn_block /\
  block_at (split_lines (document [mn_block; mw_block; zero_block]))
    5 mw_block /\
  well_formed mn_block = true /\ well_formed mw_block = true /\
  peak_of mn_block = peak_of mw_block /\
  b_name mn_block <> b_name mw_block /\
  extract_peak_results (document [mn_block; mw_block; zero_block])
    !! 1%N = None /\
  is_Some (lookup2 (extract_peak_results (document [mn_block; mw_block]))
             1 (txt "Mn")) /\
  is_Some (lookup2 (extract_peak_results (document [mn_block; mw_block]))
             1 (txt "Mw")).
Proof.
  split; [eexists _, _, _; repeat split; vm_compute; reflexivity|].
  split; [eexists _, _, _; repeat split; vm_compute; reflexivity|].
  repeat split; try (vm_compute; reflexivity); try (vm_compute; eauto).
  vm_compute. discriminate.
Qed.

(** C9. Whatever a step of the scan raises, on whatever table has been
    accumulated by then, the scan as a whole raises, the handler catches
    it, and the extractor returns the empty table: nothing accumulated
    before the failing line is returned. *)
Theorem blanket_handler_returns_empty (xml : text) (pre : list text)
    (line : text) (rest : list text) (accumulated : ResultTable) (e : exn) :
  split_lines xml = pre ++ line :: rest ->
  process_line (strip line) rest accumulated = Raise e ->
  (exists e', scan_document xml = Raise e') /\
  extract_peak_results xml = ∅.
Proof.
  intros Hs Hr.
  destruct (scan_lines_raises pre line rest accumulated e Hr ∅) as [e' He].
  assert (Hd : scan_document xml = Raise e').
  { unfold scan_document. now rewrite Hs. }
  split; [now exists e'|]. now apply (extract_of_raise xml e').
Qed.

Lemma blanket_handler_returns_empty_witness :
  ((exists e', scan_document (document [mn_block; mw_block; zero_block])
               = Raise e') /\
   extract_peak_results (document [mn_block; mw_block; zero_block]) = ∅) /\
  ((exists e', scan_document (document [mn_block; garbled_block]) = Raise e')
   /\ extract_peak_results (document [mn_block; garbled_block]) = ∅) /\
  is_Some (lookup2 (extract_peak_results (document [mn_block; mw_block]))
             1 (txt "Mn")).
Proof.
  split; [|split].
  - apply (blanket_handler_returns_empty _
             (firstn 9 (split_lines (document [mn_block; mw_block; zero_block])))
             (txt "  " ++ marker_line zero_block)
             (skipn 10 (split_lines (document [mn_block; mw_block; zero_block])))
             (extract_peak_results (document [mn_block; mw_block]))
             ZeroDivisionError).
    + vm_compute. reflexivity.
    + vm_compute. reflexivity.
  - apply (blanket_handler_returns_empty _
             (firstn 5 (split_lines (document [mn_block; garbled_block])))
             (txt "  " ++ marker_line garbled_block)
             (skipn 6 (split_lines (document [mn_block; garbled_block])))
             (extract_peak_results (document [mn_block]))
             ValueError).
    + vm_compute. reflexivity.
    + vm_compute. reflexivity.
  - vm_compute. eauto.
Defined.

(** ** The name filters *)

Lemma contains_cons (p : text) (c : ascii) (s : text) :
  contains p (c :: s) = starts_with p (c :: s) || contains p s.
Proof. reflexivity. Qed.

Lemma starts_with_lt (p s : text) (c : ascii) :
  Ascii.eqb c "<" = false -> starts_with ("<"%char :: p) (c :: s) = false.
Proof.
  intros H. unfold starts_with. cbn [strip_prefix].
  rewrite Ascii.eqb_sym, H. reflexivity.
Qed.

(** A text without [<] holds no start of a tag. *)
Lemma contains_skip (p n s : text) :
  no_char "<" n = true ->
  contains ("<"%char :: p) (n ++ s) = contains ("<"%char :: p) s.
Proof.
  induction n as [|c n IH]; intros H; [reflexivity|].
  simpl in H. apply andb_prop in H as [Hc Hn].
  simpl app. rewrite contains_cons, starts_with_lt, (IH Hn);
    [reflexivity|].
  now destruct (Ascii.eqb c "<").
Qed.

Lemma starts_with_cons (c d : ascii) (p s : text) :
  starts_with (c :: p) (d :: s) = Ascii.eqb c d && starts_with p s.
Proof.
  unfold starts_with. cbn [strip_prefix].
  destruct (Ascii.eqb c d); reflexivity.
Qed.

(** Two texts without [<], each followed by a [<]: one starts with the
    other only if they are equal. *)
Lemma starts_with_up_to_lt (w n r r' : text) :
  no_char "<" w = true -> no_char "<" n = true ->
  starts_with (w ++ "<"%char :: r) (n ++ "<"%char :: r') = true -> n = w.
Proof.
  revert n. induction w as [|d w IH]; intros [|c n] Hw Hn H.
  - reflexivity.
  - exfalso. simpl in H, Hn. rewrite starts_with_cons in H.
    apply andb_prop in H as [H _]. apply andb_prop in Hn as [Hn _].
    rewrite Ascii.eqb_sym, H in Hn. discriminate.
  - exfalso. simpl in H, Hw. rewrite starts_with_cons in H.
    apply andb_prop in H as [H _]. apply andb_prop in Hw as [Hw _].
    rewrite H in Hw. discriminate.
  - simpl in H, Hw, Hn. rewrite starts_with_cons in H.
    apply andb_prop in H as [Hc H]. apply andb_prop in Hw as [_ Hw].
    apply andb_prop in Hn as [_ Hn].
    apply Ascii.eqb_eq in Hc as ->. f_equal. eauto.
Qed.

(** The name line of a name other than [w] does not hold the tag of
    [w]. *)
Lemma other_name_tag (w n : text) :
  no_char "<" w = true -> no_char "<" n = true -> n <> w ->
  contains (txt "<name>" ++ w ++ txt "</name>")
           (txt "<name>" ++ n ++ txt "</name>") = false.
Proof.
  intros Hw Hn Hne.
  change (txt "<name>" ++ w ++ txt "</name>")
    with ("<"%char :: txt "name>" ++ w ++ txt "</name>").
  change (txt "<name>" ++ n ++ txt "</name>")
    with ("<"%char :: "n"%char :: "a"%char :: "m"%char :: "e"%char ::
          ">"%char :: n ++ txt "</name>").
  rewrite contains_cons.
  assert (H0 : starts_with
                 ("<"%char :: txt "name>" ++ w ++ txt "</name>")
                 ("<"%char :: "n"%char :: "a"%char :: "m"%char :: "e"%char ::
                  ">"%char :: n ++ txt "</name>") = false).
  { destruct (starts_with _ _) eqn:E; [exfalso|reflexivity].
    apply Hne.
    apply (starts_with_up_to_lt w n (txt "/name>") (txt "/name>") Hw Hn).
    change (txt "name>" ++ w ++ txt "</name>")
      with ("n"%char :: "a"%char :: "m"%char :: "e"%char :: ">"%char ::
            w ++ txt "</name>") in E.
    rewrite !starts_with_cons in E. simpl in E. exact E. }
  rewrite H0. cbn [orb].
  do 5 (rewrite contains_cons, starts_with_lt by reflexivity; cbn [orb]).
  rewrite contains_skip by exact Hn.
  vm_compute. reflexivity.
Qed.

Lemma name_ok_split (n : text) :
  name_ok n = true ->
  nonempty n = true /\ no_char "<" n = true /\ no_char newline n = true.
Proof.
  unfold name_ok. intros H. repeat (apply andb_prop in H as [H ?]). auto.
Qed.

(** A block whose name is not one the extractor records under its type:
    the step does nothing, whatever the scalar line. *)
Lemma filtered_block_step (b : Block) (l1 l2 : text) (rest : list text)
    (t : ResultTable) :
  name_ok (b_name b) = true -> recorded_name b = false ->
  strip l1 = name_line b ->
  process_line (marker_line b) (l1 :: l2 :: rest) t = Ok t.
Proof.
  intros Hn R E1. apply name_ok_split in Hn as (Hn1 & Hn2 & Hn3).
  destruct marker_tests as (M1 & M2 & M3 & M4 & M5 & M6).
  unfold process_line, marker_line, recorded_name in *.
  destruct (b_type b); simpl type_tag; [discriminate| |].
  - rewrite M2, M3, E1. unfold polydispersity_block, name_line.
    apply text_eqb_false in R.
    rewrite (other_name_tag (txt "Mw/Mn")) by (reflexivity || assumption).
    reflexivity.
  - rewrite M4, M5, M6, E1. unfold rms_radius_block, name_line.
    rewrite name_re_name_line by assumption. now rewrite R.
Qed.

(** The step at the first line of a block in a document, when the name of
    the block is not one its type records. *)
Lemma filtered_block_at_step (lines : list text) (i : nat) (b : Block) :
  block_at lines i b -> well_formed b = true -> recorded_name b = false ->
  forall t, step_at lines i t = Ok t.
Proof.
  intros H W R t.
  apply block_at_drop in H as (l0 & l1 & l2 & rest & E & H0 & H1 & H2).
  unfold step_at. rewrite E, H0.
  apply filtered_block_step; [|exact R|exact H1].
  apply well_formed_split in W. destruct W as [Wa Wb Wc _ _ _ _ _ _].
  unfold name_ok. now rewrite Wa, Wb, Wc.
Qed.

(** A step that stores nothing on the empty table writes under no key. *)
Lemma no_store_no_write (lines : list text) (i : nat) (p : N) (n : text) :
  step_at lines i ∅ = Ok ∅ \/ (exists e, step_at lines i ∅ = Raise e) ->
  ~ writes_at lines i p n.
Proof.
  intros H [m Hk]. rewrite step_at_effect, Hk in H. cbn [bind] in H.
  destruct H as [H|[e H]]; [|discriminate].
  injection H as H. cbn [apply_effect] in H.
  apply (f_equal (fun t => lookup2 t p n)) in H.
  rewrite lookup2_store, lookup2_empty in H.
  rewrite decide_True in H by auto. discriminate.
Qed.

(** C3, as the code has it. A well-formed block whose scalar text, once
    stripped, is [n/a] or [~Invalid] leaves no entry under its peak and
    name in the extracted table, unless another line of the document
    stores one. The block is skipped, the step at its first line leaving
    the table as it is, when its name is not one its type records, or when
    its uncertainty is numeric and its peak number one that [int]
    converts. With a recorded name and an uncertainty that is not numeric,
    or a peak number of more than 4300 digits, the conversion raises
    before the sentinel test: the step raises and the extractor returns
    the empty table. *)
Theorem sentinel_block_skipped (xml : text) (i : nat) (b : Block) :
  block_at (split_lines xml) i b ->
  well_formed b = true ->
  strip (b_value b) = NA \/ strip (b_value b) = INVALID ->
  ((forall k, k <> i ->
      ~ writes_at (split_lines xml) k (peak_of b) (b_name b)) ->
   lookup2 (extract_peak_results xml) (peak_of b) (b_name b) = None) /\
  (recorded_name b = false \/
   (is_Some (float_of_text (b_uncertainty b)) /\ short_peak b = true) ->
   forall t, step_at (split_lines xml) i t = Ok t) /\
  (recorded_name b = true ->
   float_of_text (b_uncertainty b) = None \/ short_peak b = false ->
   (forall t, step_at (split_lines xml) i t = Raise ValueError) /\
   extract_peak_results xml = ∅).
Proof.
  intros H W Hs.
  assert (Hi : forall t, step_at (split_lines xml) i t =
                 if recorded_name b
                 then x <- to_float (b_uncertainty b) ;;
                      p <- to_int (b_peak b) ;; Ok t
                 else Ok t).
  { intros t. destruct (recorded_name b) eqn:R.
    - destruct (block_at_step _ _ _ H W R) as (l0 & rest & E & Hstep).
      unfold step_at. rewrite E, Hstep.
      unfold to_float. destruct (float_of_text (b_uncertainty b));
        cbn [bind]; [|reflexivity].
      unfold to_int.
      destruct (Nat.ltb MAX_STR_DIGITS (length (b_peak b))); cbn [bind];
        [reflexivity|].
      now apply record_value_sentinel.
    - now apply (filtered_block_at_step _ i b). }
  split; [|split].
  - intros Hother.
    destruct (scan_document xml) as [t|e] eqn:Hscan.
    + rewrite (extract_of_ok _ _ Hscan).
      rewrite (scan_lines_unwritten _ _ _ (peak_of b) (b_name b) Hscan).
      * apply lookup2_empty.
      * intros k Hk. destruct (decide (k = i)) as [->|Hne].
        -- revert Hk. apply no_store_no_write. rewrite Hi.
           destruct (recorded_name b); [|now left].
           destruct (to_float (b_uncertainty b)); cbn [bind];
             [|right; eauto].
           destruct (to_int (b_peak b)); cbn [bind]; [now left|right; eauto].
        -- now apply (Hother k Hne).
    + rewrite (extract_of_raise _ _ Hscan). apply lookup2_empty.
  - intros [R|([x Hx] & Hp)] t; rewrite Hi.
    + now rewrite R.
    + destruct (recorded_name b); [|reflexivity].
      unfold to_float. rewrite Hx, (to_int_short b Hp). reflexivity.
  - intros R Hbad.
    assert (Hr : forall t, step_at (split_lines xml) i t = Raise ValueError).
    { intros t. rewrite Hi, R. unfold to_float.
      destruct Hbad as [Hx|Hp].
      - now rewrite Hx.
      - rewrite (to_int_long b Hp).
        destruct (float_of_text (b_uncertainty b)); reflexivity. }
    split; [exact Hr|].
    specialize (Hr ∅).
    apply block_at_split in H as (pre & l0 & l1 & l2 & rest & E & Hlen & _).
    unfold step_at in Hr. rewrite E in Hr. subst i.
    rewrite drop_app_length in Hr.
    destruct (scan_lines_raises pre l0 (l1 :: l2 :: rest) ∅ _ Hr ∅)
      as [e He].
    apply (extract_of_raise xml e). unfold scan_document. now rewrite E.
Qed.

Lemma sentinel_block_skipped_witness :
  lookup2 (extract_peak_results
             (document [mn_block; missing_block; mw_block]))
    1 (txt "Mp") = None /\
  (forall t,
     step_at (split_lines (document [mn_block; missing_block; mw_block]))
       5 t = Ok t).
Proof.
  destruct (sentinel_block_skipped
              (document [mn_block; missing_block; mw_block]) 5 missing_block)
    as (Hnone & Hstep & _).
  - eexists _, _, _. repeat split; vm_compute; reflexivity.
  - reflexivity.
  - left. vm_compute. reflexivity.
  - split.
    + apply Hnone. intros k Hk.
      apply (no_writes_check (fun k => Nat.eqb k 5)).
      * vm_compute. reflexivity.
      * now apply Nat.eqb_neq.
    + apply Hstep. right. split; [|reflexivity].
      vm_compute. eauto.
Defined.

(** C3 as stated fails: a block is not always skipped when its scalar text
    is a sentinel. In the newer script the block with the text [n/a] and
    the uncertainty [n/a] makes the step raise, and the measurement of the
    block before it, which is in the table by then, is not returned. In
    the older script, which the claim cites too, the same happens with the
    text [~Invalid] and a numeric uncertainty. *)
Lemma sentinel_block_aborts :
  well_formed unmeasured_block = true /\
  strip (b_value unmeasured_block) = NA /\
  step_at (split_lines (document [mn_block; unmeasured_block])) 5
    (extract_peak_results (document [mn_block])) = Raise ValueError /\
  extract_peak_results (document [mn_block; unmeasured_block]) = ∅ /\
  is_Some (lookup2 (extract_peak_results (document [mn_block]))
             1 (txt "Mn")) /\
  well_formed invalid_block = true /\
  strip (b_value invalid_block) = INVALID /\
  MolecularWeights.scan_document (document [mn_block; invalid_block])
  = Raise ValueError /\
  MolecularWeights.extract_peak_results (document [mn_block; invalid_block])
  = ∅ /\
  is_Some (lookup2 (MolecularWeights.extract_peak_results
                      (document [mn_block]))
             1 (txt "Mn")).
Proof.
  repeat split; try (vm_compute; reflexivity); vm_compute; eauto.
Qed.




(** C10, as the code has it. In a document whose scan raises no
    exception, of two well-formed blocks with the same peak and the same
    name, each with a name its type records, a numeric uncertainty and a
    numeric non-zero value, the measurement of the later one is what the
    table holds, unless a line after it stores under that peak and name
    again. And a molar mass block with such an uncertainty and value is
    recorded under the name of its name tag, whatever that name is: the
    table after the step at its first line holds its measurement, and so
    does the extracted table unless a later line stores under that peak
    and name again. *)
Theorem later_block_wins (xml : text) (t : ResultTable) :
  scan_document xml = Ok t ->
  (forall (i j : nat) (b1 b2 : Block) (x1 v1 x2 v2 : float),
     (i < j)%nat ->
     block_at (split_lines xml) i b1 -> block_at (split_lines xml) j b2 ->
     well_formed b1 = true -> recorded_name b1 = true -> measures b1 x1 v1 ->
     well_formed b2 = true -> recorded_name b2 = true -> measures b2 x2 v2 ->
     peak_of b1 = peak_of b2 -> b_name b1 = b_name b2 ->
     (forall k, (j < k)%nat ->
        ~ writes_at (split_lines xml) k (peak_of b2) (b_name b2)) ->
     lookup2 (extract_peak_results xml) (peak_of b1) (b_name b1) =
     Some (measurement_of b2 x2 v2)) /\
  (forall (i : nat) (b : Block) (x v : float),
     b_type b = MolarMass ->
     block_at (split_lines xml) i b ->
     well_formed b = true -> measures b x v ->
     (forall t0, exists t1,
        step_at (split_lines xml) i t0 = Ok t1 /\
        lookup2 t1 (peak_of b) (b_name b) = Some (measurement_of b x v)) /\
     is_Some (lookup2 (extract_peak_results xml) (peak_of b) (b_name b)) /\
     ((forall k, (i < k)%nat ->
         ~ writes_at (split_lines xml) k (peak_of b) (b_name b)) ->
      lookup2 (extract_peak_results xml) (peak_of b) (b_name b) =
      Some (measurement_of b x v))).
Proof.
  intros Hscan. rewrite (extract_of_ok _ _ Hscan). split.
  - intros i j b1 b2 x1 v1 x2 v2 Hij H1 H2 W1 R1 M1 W2 R2 M2 Hp Hn Hlast.
    rewrite Hp, Hn.
    eapply scan_lines_last_write; [exact Hscan| |exact Hlast].
    apply block_effect; try assumption.
    now apply (scan_ok_short_peak _ _ _ _ _ Hscan H2).
  - intros i b x v Hty H W M.
    assert (R : recorded_name b = true).
    { unfold recorded_name. now rewrite Hty. }
    pose proof (scan_ok_short_peak _ _ _ _ _ Hscan H W R) as P.
    pose proof (block_effect _ _ _ _ _ H W R P M) as E. split; [|split].
    + intros t0. eexists. split.
      * rewrite step_at_effect, E. reflexivity.
      * cbn [apply_effect]. rewrite lookup2_store. now rewrite decide_True.
    + eapply scan_lines_written; [exact Hscan|]. eexists. exact E.
    + intros Hlast. eapply scan_lines_last_write; eauto.
Qed.

Lemma later_block_wins_witness :
  lookup2 (extract_peak_results
             (document [mn_block; mz_block; mn_again_block; mw_block]))
    1 (txt "Mn") =
  Some {| value := S754_finite false 8796093022208000 (-39);
          units := txt "g/mol";
          uncertainty_pct := S754_finite false 4503599627370496 (-52) |} /\
  is_Some (lookup2 (extract_peak_results
                      (document [mn_block; mz_block; mn_again_block;
                                 mw_block]))
             1 (txt "Mz")).
Proof.
  destruct (later_block_wins
              (document [mn_block; mz_block; mn_again_block; mw_block])
              (extract_peak_results
                 (document [mn_block; mz_block; mn_again_block; mw_block])))
    as [Hlast Hany].
  - vm_compute. reflexivity.
  - split.
    + transitivity
        (Some (measurement_of mn_again_block (float_of_Z 160)
                 (float_of_Z 16000)));
        [|vm_compute; reflexivity].
      apply (Hlast 1%nat 9%nat mn_block mn_again_block
               (float_of_Z 300) (float_of_Z 15000)).
      * lia.
      * eexists _, _, _. repeat split; vm_compute; reflexivity.
      * eexists _, _, _. repeat split; vm_compute; reflexivity.
      * reflexivity.
      * reflexivity.
      * repeat split; vm_compute; reflexivity.
      * reflexivity.
      * reflexivity.
      * repeat split; vm_compute; reflexivity.
      * reflexivity.
      * reflexivity.
      * intros k Hk. apply (no_writes_check (fun k => Nat.leb k 9)).
        -- vm_compute. reflexivity.
        -- apply Nat.leb_gt. exact Hk.
    + apply (Hany 5%nat mz_block (float_of_Z 900) (float_of_Z 45000)).
      * reflexivity.
      * eexists _, _, _. repeat split; vm_compute; reflexivity.
      * reflexivity.
      * repeat split; vm_compute; reflexivity.
Defined.

(** C10 as stated fails: two well-formed [Mn] blocks of peak 1, followed
    by a block whose value is not a number. The table holds nothing under
    peak 1 and [Mn]: the later block has replaced nothing. Without the
    third block, the later measurement is there. *)
Lemma later_block_lost :
  block_at (split_lines (document [mn_block; mn_again_block; garbled_block]))
    1 mn_block /\
  block_at (split_lines (document [mn_block; mn_again_block; garbled_block]))
    5 mn_again_block /\
  well_formed mn_block = true /\ well_formed mn_again_block = true /\
  peak_of mn_block = peak_of mn_again_block /\
  b_name mn_block = b_name mn_again_block /\
  lookup2 (extract_peak_results
             (document [mn_block; mn_again_block; garbled_block]))
    1 (txt "Mn") = None /\
  option_map value
    (lookup2 (extract_peak_results (document [mn_block; mn_again_block]))
       1 (txt "Mn"))
  = Some (S754_finite false 8796093022208000 (-39)).
Proof.
  split; [eexists _, _, _; repeat split; vm_compute; reflexivity|].
  split; [eexists _, _, _; repeat split; vm_compute; reflexivity|].
  repeat split; vm_compute; reflexivity.
Qed.

(** ** The report *)

(** Peaks are visited in ascending order, each key of the table once. *)
Lemma sorted_peaks_sorted (t : ResultTable) : Sorted N.le (sorted_peaks t).
Proof. unfold sorted_peaks. apply Sorted_merge_sort. apply _. Qed.

Lemma sorted_peaks_keys (t : ResultTable) :
  sorted_peaks t ≡ₚ map fst (map_to_list t).
Proof. unfold sorted_peaks. apply merge_sort_Permutation. Qed.

Lemma sorted_peaks_key (t : ResultTable) (p : N) :
  p ∈ sorted_peaks t <-> is_Some (t !! p).
Proof.
  rewrite sorted_peaks_keys. rewrite list_elem_of_fmap. split.
  - intros ([p' r] & -> & H). apply elem_of_map_to_list in H. eauto.
  - intros [r H]. exists (p, r). split; [reflexivity|].
    now apply elem_of_map_to_list.
Qed.

Lemma sorted_peaks_NoDup (t : ResultTable) : NoDup (sorted_peaks t).
Proof. rewrite sorted_peaks_keys. apply NoDup_fst_map_to_list. Qed.

Lemma has_key_false (data : PeakRecord) (key : string) :
  data !! txt key = None -> has_key data key = false.
Proof.
  intros H. unfold has_key. rewrite H.
  apply bool_decide_eq_false_2. intros [? ?]. discriminate.
Qed.

Lemma has_key_true (data : PeakRecord) (key : string) (m : Measurement) :
  data !! txt key = Some m -> has_key data key = true.
Proof.
  intros H. unfold has_key. rewrite H. apply bool_decide_eq_true_2. eauto.
Qed.

(** The polydispersity and radius sections are there exactly when their
    key is; the molar mass section when one of its four keys is. *)
Lemma pdi_section_absent (data : PeakRecord) :
  data !! txt "Mw/Mn" = None -> pdi_section data = [].
Proof. intros H. unfold pdi_section. now rewrite has_key_false. Qed.

Lemma radius_section_absent (data : PeakRecord) :
  data !! txt "rz" = None -> radius_section data = [].
Proof. intros H. unfold radius_section. now rewrite has_key_false. Qed.

Lemma mass_section_absent (data : PeakRecord) :
  data !! txt "Mn" = None -> data !! txt "Mw" = None ->
  data !! txt "Mp" = None -> data !! txt "Mz" = None ->
  mass_section data = [].
Proof.
  intros H1 H2 H3 H4. unfold mass_section. cbn [existsb].
  now rewrite !has_key_false.
Qed.

Lemma pdi_section_present (data : PeakRecord) (m : Measurement) :
  data !! txt "Mw/Mn" = Some m ->
  pdi_section data =
  [PDI_HEADER; [];
   txt "  Mw/Mn: " ++
   format_value_with_uncertainty (value m) [] (uncertainty_pct m) true;
   []].
Proof.
  intros H. unfold pdi_section, entry_line.
  rewrite (has_key_true _ _ _ H), H. reflexivity.
Qed.

Lemma radius_section_present (data : PeakRecord) (m : Measurement) :
  data !! txt "rz" = Some m ->
  radius_section data =
  [RADIUS_HEADER; [];
   txt "  rz: " ++
   format_value_with_uncertainty (value m) (units m) (uncertainty_pct m)
     false;
   []].
Proof.
  intros H. unfold radius_section, entry_line.
  rewrite (has_key_true _ _ _ H), H. reflexivity.
Qed.

(** With one of [Mn], [Mw], [Mp] in the record, the molar mass section is
    the heading, an empty line, the lines of those present in this order,
    and an empty line. *)
Lemma mass_section_present (data : PeakRecord) :
  is_Some (data !! txt "Mn") \/ is_Some (data !! txt "Mw") \/
  is_Some (data !! txt "Mp") ->
  mass_section data =
  [MASS_HEADER; []] ++ entry_line data "Mn" false ++
  entry_line data "Mw" false ++ entry_line data "Mp" false ++ [[]] /\
  entry_line data "Mn" false ++ entry_line data "Mw" false ++
  entry_line data "Mp" false <> [].
Proof.
  intros H. unfold mass_section. cbn [existsb]. split.
  - destruct H as [[m H]|[[m H]|[m H]]];
      rewrite (has_key_true _ _ _ H), ?orb_true_r; reflexivity.
  - unfold entry_line.
    destruct H as [[m H]|[[m H]|[m H]]]; rewrite H;
      repeat match goal with
             | |- context [match ?x with Some _ => _ | None => _ end] =>
                 destruct x
             end; discriminate.
Qed.

(** ** The claims about the formatter and the report *)




(** A record that holds [Mz] and none of [Mn], [Mw], [Mp]: the heading of
    the molar mass moments is written, with no line under it. *)
Lemma mass_section_of_mz_alone (data : PeakRecord) (m : Measurement) :
  data !! txt "Mz" = Some m ->
  data !! txt "Mn" = None -> data !! txt "Mw" = None ->
  data !! txt "Mp" = None ->
  mass_section data = [MASS_HEADER; []; []].
Proof.
  intros Hz Hn Hw Hp. unfold mass_section, entry_line.
  rewrite Hn, Hw, Hp. cbn [existsb]. unfold has_key.
  rewrite Hn, Hw, Hp, Hz.
  rewrite !bool_decide_eq_false_2 by (intros [? ?]; discriminate).
  rewrite bool_decide_eq_true_2 by eauto. reflexivity.
Qed.

(** C6 fails on the code. The report of a table whose only measurement is
    an [Mz]: after the title and the peak header comes the heading of the
    molar mass moments, followed by two empty lines and no moment. *)
Theorem heading_without_moments :
  summary_lines (extract_peak_results (single mz_block)) =
  [repeat "="%char 50; TITLE; repeat "="%char 50;
   newline :: PEAK_HEADER ++ txt "1"; repeat "-"%char 30;
   MASS_HEADER; []; []].
Proof. vm_compute. reflexivity. Qed.

(** ** The older copy *)

(** The older formatter is the newer one at the standard preset. *)
Lemma older_format_is_standard (value : float) (units : text)
    (uncertainty_pct : float) :
  MolecularWeights.format_value_with_uncertainty value units uncertainty_pct
  = format_value_with_uncertainty value units uncertainty_pct false.
Proof. reflexivity. Qed.

(** On blocks that are stored, the two copies agree. *)
Example older_copy_same_table :
  MolecularWeights.extract_peak_results
    (document [mn_block; mw_block; pdi_block; rz_block; rn_block; mz_block])
  = extract_peak_results
      (document [mn_block; mw_block; pdi_block; rz_block; rn_block;
                 mz_block]).
Proof. vm_compute. reflexivity. Qed.

(** [n/a] under molar mass is skipped by both. [~Invalid], and [n/a] under
    polydispersity, are skipped by the newer copy; in the older one they
    reach [float], which raises, and the table comes back empty. *)
Example older_copy_sentinels :
  MolecularWeights.extract_peak_results (document [mn_block; missing_block])
  = extract_peak_results (document [mn_block]) /\
  extract_peak_results (document [mn_block; invalid_block])
  = extract_peak_results (document [mn_block]) /\
  MolecularWeights.scan_document (document [mn_block; invalid_block])
  = Raise ValueError /\
  extract_peak_results (document [mn_block; missing_pdi_block])
  = extract_peak_results (document [mn_block]) /\
  MolecularWeights.scan_document (document [mn_block; missing_pdi_block])
  = Raise ValueError /\
  MolecularWeights.scan_document (document [mn_block; zero_block])
  = Raise ZeroDivisionError.
Proof. vm_compute. repeat split. Qed.

(* ===================================================================== *)
(** * Part III. Further properties of the routines                         *)
(* ===================================================================== *)

(** ** Documents without a complete block *)

Lemma process_line_plain (line : text) (rest : list text) (t : ResultTable) :
  is_marker line = false -> process_line line rest t = Ok t.
Proof.
  unfold is_marker, process_line. intros H.
  apply orb_false_elim in H as [H H3]. apply orb_false_elim in H as [H1 H2].
  now rewrite H1, H2, H3.
Qed.

Lemma scan_no_complete_block (lines : list text) (t : ResultTable) :
  no_complete_block lines = true -> scan_lines lines t = Ok t.
Proof.
  induction lines as [|l rest IH]; intros H; [reflexivity|].
  destruct rest as [|l1 [|l2 rest]].
  - apply scan_lines_short. simpl. lia.
  - apply scan_lines_short. simpl. lia.
  - cbn [no_complete_block] in H. apply andb_prop in H as [H1 H2].
    apply negb_true_iff in H1.
    change (scan_lines (l :: l1 :: l2 :: rest) t)
      with (t1 <- process_line (strip l) (l1 :: l2 :: rest) t ;;
            scan_lines (l1 :: l2 :: rest) t1).
    rewrite process_line_plain by exact H1. simpl bind. now apply IH.
Qed.

(** X1. A document in which no marker line has two lines after it holds no
    complete block: the scan runs to its end without raising and the table
    is empty. This covers the empty document, a document of fewer than
    three lines, and a block cut off after its marker or its name line. *)
Theorem no_complete_block_no_measurement (xml : text) :
  no_complete_block (split_lines xml) = true ->
  scan_document xml = Ok ∅ /\ extract_peak_results xml = ∅.
Proof.
  intros H. assert (E : scan_document xml = Ok ∅).
  { unfold scan_document. now apply scan_no_complete_block. }
  split; [exact E|]. now apply extract_of_ok.
Qed.

Lemma no_complete_block_no_measurement_witness :
  scan_document
    (join_lines [txt "<results>"; txt "  </result>";
                 txt "  " ++ marker_line mn_block;
                 txt "    " ++ name_line mn_block]) = Ok ∅ /\
  extract_peak_results
    (join_lines [txt "<results>"; txt "  </result>";
                 txt "  " ++ marker_line mn_block;
                 txt "    " ++ name_line mn_block]) = ∅.
Proof.
  apply (no_complete_block_no_measurement
           (join_lines [txt "<results>"; txt "  </result>";
                        txt "  " ++ marker_line mn_block;
                        txt "    " ++ name_line mn_block])).
  vm_compute. reflexivity.
Defined.

(** ** White space around lines *)

Lemma lstrip_idem (sp : ascii -> bool) (s : text) :
  lstrip sp (lstrip sp s) = lstrip sp s.
Proof.
  induction s as [|c s IH]; simpl; [reflexivity|].
  destruct (sp c) eqn:E; [exact IH|]. simpl. now rewrite E.
Qed.

Lemma lstrip_app_keep (sp : ascii -> bool) (s : text) (c : ascii) (r : text) :
  sp c = false -> lstrip sp (s ++ c :: r) = lstrip sp s ++ c :: r
                  \/ (lstrip sp s = [] /\ lstrip sp (s ++ c :: r) = c :: r).
Proof.
  intros Hc. induction s as [|d s IH]; simpl.
  - rewrite Hc. now left.
  - destruct (sp d); [exact IH|]. now left.
Qed.

Lemma lstrip_head (sp : ascii -> bool) (s : text) :
  match lstrip sp s with
  | c :: _ => sp c = false
  | [] => True
  end.
Proof.
  induction s as [|c s IH]; simpl; [exact I|].
  destruct (sp c) eqn:E; [exact IH|exact E].
Qed.

Lemma lstrip_fixed (sp : ascii -> bool) (s : text) :
  match s with c :: _ => sp c = false | [] => True end -> lstrip sp s = s.
Proof. destruct s as [|c s]; simpl; [reflexivity|]. now intros ->. Qed.

Lemma rstrip_head (sp : ascii -> bool) (c : ascii) (s : text) :
  sp c = false -> exists r, rstrip sp (c :: s) = c :: r.
Proof.
  intros Hc. unfold rstrip. simpl rev.
  destruct (lstrip_app_keep sp (rev s) c [] Hc) as [E|[_ E]]; rewrite E.
  - rewrite rev_app_distr. simpl. eauto.
  - simpl. eauto.
Qed.

Lemma rstrip_idem (sp : ascii -> bool) (s : text) :
  rstrip sp (rstrip sp s) = rstrip sp s.
Proof. unfold rstrip. now rewrite rev_involutive, lstrip_idem. Qed.

Lemma strip_by_idem (sp : ascii -> bool) (s : text) :
  strip_by sp (strip_by sp s) = strip_by sp s.
Proof.
  unfold strip_by.
  assert (E : lstrip sp (rstrip sp (lstrip sp s)) = rstrip sp (lstrip sp s)).
  { apply lstrip_fixed. pose proof (lstrip_head sp s) as H.
    destruct (lstrip sp s) as [|c r]; [exact I|].
    destruct (rstrip_head sp c r H) as [r' ->]. exact H. }
  rewrite E. apply rstrip_idem.
Qed.

Lemma strip_idem (s : text) : strip (strip s) = strip s.
Proof. apply strip_by_idem. Qed.

Lemma process_line_stripped (line : text) (rest : list text)
    (t : ResultTable) :
  process_line line (map strip rest) t = process_line line rest t.
Proof.
  unfold process_line.
  destruct rest as [|l1 [|l2 rest]]; try reflexivity.
  cbn [map]. now rewrite !strip_idem.
Qed.

Lemma scan_lines_stripped (lines : list text) (t : ResultTable) :
  scan_lines (map strip lines) t = scan_lines lines t.
Proof.
  revert t. induction lines as [|l rest IH]; intros t; [reflexivity|].
  cbn [map scan_lines]. rewrite strip_idem, process_line_stripped.
  destruct (process_line (strip l) rest t) as [t1|e]; simpl; auto.
Qed.

(** X2. The scan sees each line only through [strip]: two documents whose
    lines are the same up to the white space around each line give the
    same result, table or exception. Indentation, trailing blanks and
    carriage returns before the newline do not matter. *)
Theorem extraction_ignores_line_padding (a b : text) :
  map strip (split_lines a) = map strip (split_lines b) ->
  scan_document a = scan_document b /\
  extract_peak_results a = extract_peak_results b.
Proof.
  intros H. assert (E : scan_document a = scan_document b).
  { unfold scan_document.
    rewrite <- (scan_lines_stripped (split_lines a)),
            <- (scan_lines_stripped (split_lines b)).
    now rewrite H. }
  split; [exact E|]. unfold extract_peak_results. now rewrite E.
Qed.

Lemma extraction_ignores_line_padding_witness :
  scan_document (document [mn_block; pdi_block]) =
  scan_document
    (join_lines (map (fun l => tab :: l ++ [carriage_return])
                     (split_lines (document [mn_block; pdi_block])))) /\
  extract_peak_results (document [mn_block; pdi_block]) =
  extract_peak_results
    (join_lines (map (fun l => tab :: l ++ [carriage_return])
                     (split_lines (document [mn_block; pdi_block])))).
Proof.
  apply (extraction_ignores_line_padding
           (document [mn_block; pdi_block])
           (join_lines (map (fun l => tab :: l ++ [carriage_return])
                            (split_lines (document [mn_block; pdi_block]))))).
  vm_compute. reflexivity.
Defined.

(** ** What the table holds *)

Lemma uniform_with_keep (P : N -> text -> Measurement -> Prop) : uniform_with P (fun t => Ok t).
Proof. left. reflexivity. Qed.

Lemma uniform_with_raise (P : N -> text -> Measurement -> Prop) (e : exn) : uniform_with P (fun _ => Raise e).
Proof. right. left. exists e. reflexivity. Qed.

Lemma record_value_sound (p : N) (n u : text) (x : float) (vs : text) :
  n <> [] ->
  uniform_with (fun _ => sound_entry) (fun t => record_value t p n u x vs).
Proof.
  intros Hn. unfold record_value.
  destruct (negb (text_eqb vs NA) && negb (text_eqb vs INVALID));
    [|apply uniform_with_keep].
  unfold to_float. destruct (float_of_text vs) as [v|];
    [|apply uniform_with_raise].
  simpl. unfold float_div. destruct (is_zero v) eqn:Hz;
    [apply uniform_with_raise|].
  simpl. right. right. eexists _, _, _. split; [|intros t; reflexivity].
  split; [exact Hn|]. split; [exact Hz|]. exists x. reflexivity.
Qed.

Lemma to_float_uniform_with (P : N -> text -> Measurement -> Prop) (s : text)
    (k : float -> ResultTable -> result ResultTable) :
  (forall x, uniform_with P (k x)) ->
  uniform_with P (fun t => x <- to_float s ;; k x t).
Proof.
  intros H. unfold to_float. destruct (float_of_text s) as [x|]; simpl.
  - apply H.
  - apply uniform_with_raise.
Qed.

Lemma to_int_uniform_with (P : N -> text -> Measurement -> Prop) (s : text)
    (k : N -> ResultTable -> result ResultTable) :
  (forall p, uniform_with P (k p)) ->
  uniform_with P (fun t => p <- to_int s ;; k p t).
Proof.
  intros H. unfold to_int.
  destruct (Nat.ltb MAX_STR_DIGITS (length s)); cbn [bind].
  - apply uniform_with_raise.
  - apply H.
Qed.

Lemma scalar_with_units_sound (sl n : text) :
  n <> [] -> uniform_with (fun _ => sound_entry) (scalar_with_units sl n).
Proof.
  intros Hn. unfold scalar_with_units.
  destruct (re_search scalar_re_units_unc_peak sl)
    as [[|g1 [|g2 [|g3 [|g4 g]]]]|];
  try (apply to_float_uniform_with; intros; apply to_int_uniform_with;
       intros; now apply record_value_sound);
  destruct (re_search scalar_re_units_peak_unc sl)
    as [[|h1 [|h2 [|h3 [|h4 h]]]]|];
  try apply uniform_with_keep;
  apply to_int_uniform_with; intros; apply to_float_uniform_with; intros;
  now apply record_value_sound.
Qed.

Lemma scalar_without_units_sound (sl : text) :
  uniform_with (fun _ => sound_entry) (scalar_without_units sl).
Proof.
  unfold scalar_without_units.
  destruct (re_search scalar_re_unc_peak sl)
    as [[|g1 [|g2 [|g3 g]]]|];
  try (apply to_float_uniform_with; intros; apply to_int_uniform_with;
       intros; now apply record_value_sound);
  destruct (re_search scalar_re_peak_unc sl)
    as [[|h1 [|h2 [|h3 h]]]|];
  try apply uniform_with_keep;
  apply to_int_uniform_with; intros; apply to_float_uniform_with; intros;
  now apply record_value_sound.
Qed.

Lemma rep_at_least_one (k : cclass) (greedy : bool)
    (cont : text -> option captures) (least : nat) (s t : text)
    (r : captures) :
  rep k greedy cont (S least) s = Some (t, r) -> t <> [].
Proof.
  intros H. apply rep_cases in H as [H|H].
  - discriminate.
  - unfold rep_more in H. destruct s as [|c s]; [discriminate|].
    destruct (in_class k c); [|discriminate].
    destruct (rep k greedy cont _ s) as [[t' r']|]; [|discriminate].
    simpl in H. injection H as <- _. discriminate.
Qed.

Lemma name_re_nonempty (s n : text) (g : captures) :
  re_search name_re s = Some (n :: g) -> n <> [].
Proof.
  assert (M : forall s, match_items name_re s = Some (n :: g) -> n <> []).
  { intros s0 H. unfold name_re in H. cbn [match_items] in H.
    destruct (strip_prefix (txt "<name>") s0) as [s1|]; [|discriminate].
    unfold grp_name in H.
    destruct (rep AnyChar false _ 1 s1) as [[t r]|] eqn:E; [|discriminate].
    injection H as <- _. eapply rep_at_least_one; eauto. }
  induction s as [|c s IH]; cbn [re_search].
  - destruct (match_items name_re []) eqn:E; [|discriminate].
    intros [= ->]. eapply M; eauto.
  - destruct (match_items name_re (c :: s)) eqn:E.
    + intros [= ->]. eapply M; eauto.
    + exact IH.
Qed.

Lemma process_line_sound (line : text) (rest : list text) :
  uniform_with (fun _ => sound_entry) (process_line line rest).
Proof.
  unfold process_line.
  destruct (contains (marker "molar mass") line).
  { destruct rest as [|l1 [|l2 rest]]; try apply uniform_with_keep.
    unfold molar_mass_block.
    destruct (re_search name_re (strip l1)) as [[|n g]|] eqn:E;
      try apply uniform_with_keep.
    apply scalar_with_units_sound. eapply name_re_nonempty; eauto. }
  destruct (contains (marker "polydispersity") line).
  { destruct rest as [|l1 [|l2 rest]]; try apply uniform_with_keep.
    unfold polydispersity_block.
    destruct (contains _ (strip l1)); try apply uniform_with_keep.
    apply scalar_without_units_sound. }
  destruct (contains (marker "rms radius") line);
    try apply uniform_with_keep.
  destruct rest as [|l1 [|l2 rest]]; try apply uniform_with_keep.
  unfold rms_radius_block.
  destruct (re_search name_re (strip l1)) as [[|n g]|];
    try apply uniform_with_keep.
  destruct (text_eqb n (txt "rz")); try apply uniform_with_keep.
  apply scalar_with_units_sound. discriminate.
Qed.

(** An invariant of the table that every stored entry keeps is kept by the
    scan. *)
Lemma scan_lines_invariant (I : ResultTable -> Prop)
    (P : N -> text -> Measurement -> Prop) :
  (forall line rest, uniform_with P (process_line line rest)) ->
  (forall t p n m, I t -> P p n m -> I (store t p n m)) ->
  forall lines t t', I t -> scan_lines lines t = Ok t' -> I t'.
Proof.
  intros HU HS. induction lines as [|l rest IH]; intros t t' Ht H.
  - simpl in H. now injection H as <-.
  - simpl in H.
    destruct (HU (strip l) rest) as [U|[[e U]|(p & n & m & HP & U)]];
      rewrite U in H; simpl in H.
    + eapply IH; eauto.
    + discriminate.
    + eapply IH; [|exact H]. now apply HS.
Qed.

Lemma extract_invariant (I : ResultTable -> Prop)
    (P : N -> text -> Measurement -> Prop) :
  (forall line rest, uniform_with P (process_line line rest)) ->
  (forall t p n m, I t -> P p n m -> I (store t p n m)) ->
  I ∅ -> forall xml, I (extract_peak_results xml).
Proof.
  intros HU HS H0 xml. unfold extract_peak_results, scan_document.
  destruct (scan_lines (split_lines xml) ∅) as [t|e] eqn:E; [|exact H0].
  eapply scan_lines_invariant; eauto.
Qed.

(** X9. Every measurement of an extracted table, whatever the document, has
    a name that is not empty and a value that is not zero, and its
    percentage is [(x / value) * 100] for some float [x]. *)
Theorem stored_measurements_sound (xml : text) (p : N) (n : text)
    (m : Measurement) :
  lookup2 (extract_peak_results xml) p n = Some m -> sound_entry n m.
Proof.
  revert p n m.
  apply (extract_invariant
           (fun t => forall p n m, lookup2 t p n = Some m -> sound_entry n m)
           (fun _ => sound_entry)).
  - apply process_line_sound.
  - intros t p n m Ht Hm p' n' m'. rewrite lookup2_store.
    destruct (decide _) as [[_ <-]|_]; [|apply Ht].
    now intros [= <-].
  - intros p n m. rewrite lookup2_empty. discriminate.
Qed.

Lemma stored_measurements_sound_witness :
  sound_entry (txt "Mw/Mn")
    {| value := float_of_decimal false 20 (-1); units := [];
       uncertainty_pct :=
         float_mul (SFdiv prec emax (float_of_decimal false 4 (-2))
                          (float_of_decimal false 20 (-1)))
                   (float_of_Z 100) |}.
Proof.
  apply (stored_measurements_sound (document [mn_block; mw_block; pdi_block])
           1%N (txt "Mw/Mn")).
  vm_compute. reflexivity.
Defined.

Lemma uniform_with_of_uniform (f : ResultTable -> result ResultTable) :
  uniform f -> uniform_with (fun _ _ _ => True) f.
Proof.
  intros [H|[H|(p & n & m & H)]]; [left|right; left|right; right]; eauto.
Qed.

(** X10. No peak of an extracted table has an empty record: a peak is in the
    table only with a measurement under it. So the table is empty exactly
    when it holds no measurement. *)
Theorem no_empty_peak_record (xml : text) :
  (forall (p : N) (r : PeakRecord),
     extract_peak_results xml !! p = Some r -> r <> ∅) /\
  (extract_peak_results xml = ∅ <->
   forall p n, lookup2 (extract_peak_results xml) p n = None).
Proof.
  assert (H : forall (p : N) (r : PeakRecord),
             extract_peak_results xml !! p = Some r -> r <> ∅).
  { apply (extract_invariant
             (fun t => forall (p : N) (r : PeakRecord),
                         t !! p = Some r -> r <> ∅)
             (fun _ _ _ => True)).
    - intros line rest. apply uniform_with_of_uniform, process_line_uniform.
    - intros t p n m Ht _ p' r. rewrite store_insert.
      destruct (decide (p = p')) as [<-|Hp].
      + rewrite lookup_insert_eq. intros [= <-]. apply insert_non_empty.
      + rewrite lookup_insert_ne by exact Hp. apply Ht.
    - intros p r. rewrite lookup_empty. discriminate. }
  split; [exact H|]. split.
  - intros -> p n. apply lookup2_empty.
  - intros Hn. apply map_empty. intros p.
    destruct (extract_peak_results xml !! p) as [r|] eqn:E; [|reflexivity].
    exfalso. apply (H p r E). apply map_empty. intros n.
    specialize (Hn p n). unfold lookup2 in Hn. now rewrite E in Hn.
Qed.

(** ** A block whose uncertainty is not a number *)

(** X8. The uncertainty attribute is converted before the scalar text is
    looked at: a well-formed block whose uncertainty is not a number makes
    the scan raise and the table come back empty, also when its scalar text
    is [n/a] or [~Invalid]. *)
Theorem non_numeric_uncertainty_empties_table (xml : text) (i : nat)
    (b : Block) :
  block_at (split_lines xml) i b ->
  well_formed b = true -> recorded_name b = true ->
  float_of_text (b_uncertainty b) = None ->
  (exists e, scan_document xml = Raise e) /\ extract_peak_results xml = ∅.
Proof.
  intros H W R Hx.
  assert (E : exists e, scan_document xml = Raise e).
  { unfold scan_document.
    destruct (block_at_split _ _ _ H)
      as (pre & l0 & l1 & l2 & rest & -> & _ & H0 & H1 & H2).
    apply (scan_lines_raises pre l0 (l1 :: l2 :: rest) ∅ ValueError).
    rewrite H0, (block_step b) by assumption.
    unfold to_float. now rewrite Hx. }
  split; [exact E|]. destruct E as [e E]. now apply (extract_of_raise xml e).
Qed.

Lemma non_numeric_uncertainty_empties_table_witness :
  (exists e, scan_document (document [mn_block; unmeasured_block; mw_block])
             = Raise e) /\
  extract_peak_results (document [mn_block; unmeasured_block; mw_block]) = ∅.
Proof.
  apply (non_numeric_uncertainty_empties_table
           (document [mn_block; unmeasured_block; mw_block]) 5
           unmeasured_block).
  - exists (txt "  " ++ marker_line unmeasured_block),
           (txt "    " ++ name_line unmeasured_block),
           (txt "    " ++ scalar_line unmeasured_block).
    repeat split; vm_compute; reflexivity.
  - reflexivity.
  - reflexivity.
  - vm_compute. reflexivity.
Defined.

(** ** One document after another *)

Lemma split_lines_nonempty (s : text) : split_lines s <> [].
Proof.
  destruct s as [|c s]; simpl; [discriminate|].
  destruct (Ascii.eqb c newline); [discriminate|].
  destruct (split_lines s); discriminate.
Qed.

Lemma split_lines_app (a b : text) :
  split_lines (a ++ newline :: b) = split_lines a ++ split_lines b.
Proof.
  induction a as [|c a IH]; simpl.
  - reflexivity.
  - destruct (Ascii.eqb c newline); [now rewrite IH|].
    rewrite IH.
    destruct (split_lines a) as [|l ls] eqn:E; [|reflexivity].
    now destruct (split_lines_nonempty a).
Qed.

Lemma process_line_more (line : text) (rest more : list text)
    (t : ResultTable) :
  is_marker line = false \/ (2 <= length rest)%nat ->
  process_line line (rest ++ more) t = process_line line rest t.
Proof.
  intros [H|H].
  - now rewrite !process_line_plain.
  - destruct rest as [|l1 [|l2 rest]]; simpl in H; try lia. reflexivity.
Qed.

Lemma ends_plain_cons_long (l : text) (rest : list text) :
  (2 <= length rest)%nat -> ends_plain (l :: rest) = ends_plain rest.
Proof.
  intros H. unfold ends_plain. cbn [length].
  replace (S (length rest) - 2)%nat with (S (length rest - 2)) by lia.
  reflexivity.
Qed.

Lemma ends_plain_cons_short (l : text) (rest : list text) :
  (length rest < 2)%nat ->
  ends_plain (l :: rest) = negb (is_marker (strip l)) && ends_plain rest.
Proof.
  intros H. unfold ends_plain. cbn [length].
  replace (S (length rest) - 2)%nat with O by lia.
  replace (length rest - 2)%nat with O by lia.
  reflexivity.
Qed.

Lemma scan_lines_app (ls1 ls2 : list text) (t : ResultTable) :
  ends_plain ls1 = true ->
  scan_lines (ls1 ++ ls2) t = (t1 <- scan_lines ls1 t ;; scan_lines ls2 t1).
Proof.
  revert t. induction ls1 as [|l rest IH]; intros t H; [reflexivity|].
  cbn [app scan_lines].
  destruct (le_lt_dec 2 (length rest)) as [Hl|Hl].
  - rewrite ends_plain_cons_long in H by exact Hl.
    rewrite process_line_more by now right.
    destruct (process_line (strip l) rest t) as [t1|e]; simpl; auto.
  - rewrite ends_plain_cons_short in H by exact Hl.
    apply andb_prop in H as [H1 H2]. apply negb_true_iff in H1.
    rewrite !process_line_plain by exact H1. simpl. auto.
Qed.

Lemma apply_effect_overlay (w : option (N * text * Measurement))
    (s t u : ResultTable) :
  (forall p n, lookup2 t p n = overlay s u p n) ->
  forall p n, lookup2 (apply_effect w t) p n
              = overlay s (apply_effect w u) p n.
Proof.
  intros H p n. destruct w as [[[p' n'] m]|]; simpl; [|apply H].
  unfold overlay. rewrite !lookup2_store.
  destruct (decide _); [reflexivity|apply H].
Qed.

(** A scan from a table [s] is the scan from the empty table laid over
    [s]; it raises when the scan from the empty table does. *)
Lemma scan_lines_from (lines : list text) (s t u : ResultTable) :
  (forall p n, lookup2 t p n = overlay s u p n) ->
  match scan_lines lines u with
  | Ok u' => exists t', scan_lines lines t = Ok t' /\
                        forall p n, lookup2 t' p n = overlay s u' p n
  | Raise e => scan_lines lines t = Raise e
  end.
Proof.
  revert t u. induction lines as [|l rest IH]; intros t u H.
  - simpl. eauto.
  - cbn [scan_lines]. rewrite !process_line_effect.
    destruct (effect_of (strip l) rest) as [w|e]; simpl; [|reflexivity].
    apply IH. now apply apply_effect_overlay.
Qed.

(** X4. One results document after another, the first not cut off in a
    block: when both are scanned without an exception, so is the whole, and
    its table is the table of the second laid over the table of the first;
    under a peak and name that both hold, the measurement of the second
    stands. *)
Theorem concatenated_documents (a b : text) (ta tb : ResultTable) :
  ends_plain (split_lines a) = true ->
  scan_document a = Ok ta -> scan_document b = Ok tb ->
  exists t, scan_document (a ++ newline :: b) = Ok t /\
            extract_peak_results (a ++ newline :: b) = t /\
            forall p n, lookup2 t p n = overlay ta tb p n.
Proof.
  intros He Ha Hb. unfold scan_document in *.
  assert (E : exists t, scan_lines (split_lines (a ++ newline :: b)) ∅ = Ok t
                        /\ forall p n, lookup2 t p n = overlay ta tb p n).
  { rewrite split_lines_app, scan_lines_app by exact He. rewrite Ha. simpl.
    pose proof (scan_lines_from (split_lines b) ta ta ∅) as H.
    rewrite Hb in H. apply H. intros p n. unfold overlay.
    now rewrite lookup2_empty. }
  destruct E as (t & E & Ht). exists t. split; [exact E|]. split; [|exact Ht].
  now apply extract_of_ok.
Qed.

Lemma concatenated_documents_witness :
  exists t,
    scan_document (document [mn_block; mw_block] ++ newline ::
                   document [mn_again_block; pdi_block]) = Ok t /\
    extract_peak_results (document [mn_block; mw_block] ++ newline ::
                          document [mn_again_block; pdi_block]) = t /\
    forall p n,
      lookup2 t p n =
      overlay (extract_peak_results (document [mn_block; mw_block]))
              (extract_peak_results (document [mn_again_block; pdi_block]))
              p n.
Proof.
  apply (concatenated_documents (document [mn_block; mw_block])
           (document [mn_again_block; pdi_block])).
  - vm_compute. reflexivity.
  - vm_compute. reflexivity.
  - vm_compute. reflexivity.
Defined.

(** ** Lines outside a block *)

Lemma split_lines_plain (l : text) :
  no_char newline l = true -> split_lines l = [l].
Proof.
  induction l as [|c l IH]; simpl; [reflexivity|].
  intros H. apply andb_prop in H as [Hc Hl]. apply negb_true_iff in Hc.
  rewrite Hc, (IH Hl). reflexivity.
Qed.

Lemma scan_lines_plain_line (pre post : list text) (l : text)
    (t : ResultTable) :
  ends_plain pre = true -> is_marker (strip l) = false ->
  scan_lines (pre ++ l :: post) t = scan_lines (pre ++ post) t.
Proof.
  intros Hp Hl. rewrite !scan_lines_app by exact Hp.
  destruct (scan_lines pre t) as [t1|e]; [|reflexivity].
  simpl. now rewrite process_line_plain by exact Hl.
Qed.

(** X3. A line that is no marker line and does not stand in the two lines
    after one is not looked at: with it or without it the scan gives the
    same result, table or exception. *)
Theorem line_outside_blocks_is_ignored (a l b : text) :
  ends_plain (split_lines a) = true ->
  no_char newline l = true -> is_marker (strip l) = false ->
  scan_document (a ++ newline :: l ++ newline :: b)
  = scan_document (a ++ newline :: b) /\
  extract_peak_results (a ++ newline :: l ++ newline :: b)
  = extract_peak_results (a ++ newline :: b).
Proof.
  intros Ha Hn Hl.
  assert (E : scan_document (a ++ newline :: l ++ newline :: b)
              = scan_document (a ++ newline :: b)).
  { unfold scan_document.
    rewrite !split_lines_app, (split_lines_plain l Hn).
    now apply scan_lines_plain_line. }
  split; [exact E|]. unfold extract_peak_results. now rewrite E.
Qed.

Lemma line_outside_blocks_is_ignored_witness :
  scan_document (document [mn_block] ++ newline ::
                 txt "<!-- second run -->" ++ newline :: document [mw_block])
  = scan_document (document [mn_block] ++ newline :: document [mw_block]) /\
  extract_peak_results
    (document [mn_block] ++ newline ::
     txt "<!-- second run -->" ++ newline :: document [mw_block])
  = extract_peak_results
      (document [mn_block] ++ newline :: document [mw_block]).
Proof.
  apply (line_outside_blocks_is_ignored (document [mn_block])
           (txt "<!-- second run -->") (document [mw_block]));
    vm_compute; reflexivity.
Defined.

(** ** Lines of a block that lack what the patterns look for *)

Lemma starts_with_app (p b : text) : starts_with p (p ++ b) = true.
Proof. unfold starts_with. now rewrite strip_prefix_app. Qed.

Lemma contains_here (p s : text) :
  starts_with p s = true -> contains p s = true.
Proof. intros H. destruct s; cbn [contains]; now rewrite H. Qed.

Lemma contains_app (p a b : text) : contains p (a ++ p ++ b) = true.
Proof.
  induction a as [|c a IH].
  - change ([] ++ p ++ b) with (p ++ b).
    apply contains_here. apply starts_with_app.
  - cbn [app]. rewrite contains_cons, IH. apply orb_true_r.
Qed.

Lemma in_order_contains (ls : list text) (s l : text) :
  in_order ls s -> In l ls -> contains l s = true.
Proof.
  revert s. induction ls as [|l0 ls IH]; intros s H Hl; [destruct Hl|].
  simpl in H. destruct H as (a & b & -> & H). destruct Hl as [->|Hl].
  - apply contains_app.
  - specialize (IH b H Hl).
    assert (G : forall (x y : text), contains l y = true ->
                                     contains l (x ++ y) = true).
    { intros x y Hy. induction x as [|c x IHx]; [exact Hy|].
      cbn [app]. rewrite contains_cons, IHx. apply orb_true_r. }
    apply G. apply G. exact IH.
Qed.

(** A pattern finds nothing in a text that lacks one of its literals. *)
Lemma re_search_lacks (items : list item) (s l : text) :
  In l (lits items) -> contains l s = false -> re_search items s = None.
Proof.
  intros Hl Hc. destruct (re_search items s) as [g|] eqn:E; [|reflexivity].
  apply re_search_sound in E.
  rewrite (in_order_contains _ _ _ E Hl) in Hc. discriminate.
Qed.

Lemma starts_with_longer (p r s : text) :
  starts_with (p ++ r) s = true -> starts_with p s = true.
Proof.
  revert s. induction p as [|c p IH]; intros s H; [reflexivity|].
  destruct s as [|d s]; [discriminate H|].
  cbn [app] in H. rewrite starts_with_cons in *.
  apply andb_prop in H as [-> H]. simpl. eauto.
Qed.

Lemma contains_longer (p r s : text) :
  contains (p ++ r) s = true -> contains p s = true.
Proof.
  induction s as [|c s IH].
  - cbn [contains]. rewrite !orb_false_r. apply starts_with_longer.
  - rewrite !contains_cons. intros H. apply orb_prop in H as [H|H].
    + now rewrite (starts_with_longer _ _ _ H).
    + rewrite (IH H). apply orb_true_r.
Qed.

(** X5. The name is looked for on the line right after the marker line.
    When that line holds no [<name>] tag, the step leaves the table as it
    is and raises nothing, whatever the line is and whatever follows: a
    blank line between the marker and the name makes the extractor pass
    over the block. *)
Theorem name_must_follow_marker (line l1 : text) (rest : list text)
    (t : ResultTable) :
  contains (txt "<name>") (strip l1) = false ->
  process_line line (l1 :: rest) t = Ok t.
Proof.
  intros H.
  assert (Hn : re_search name_re (strip l1) = None).
  { apply (re_search_lacks name_re _ (txt "<name>")); [now left|exact H]. }
  assert (Hp : contains (txt "<name>Mw/Mn</name>") (strip l1) = false).
  { destruct (contains (txt "<name>Mw/Mn</name>") (strip l1)) eqn:E;
      [|reflexivity].
    rewrite <- H. symmetry.
    apply (contains_longer (txt "<name>") (txt "Mw/Mn</name>")). exact E. }
  unfold process_line, molar_mass_block, polydispersity_block,
    rms_radius_block.
  rewrite Hn, Hp.
  destruct (contains (marker "molar mass") line),
    (contains (marker "polydispersity") line),
    (contains (marker "rms radius") line), rest; reflexivity.
Qed.

Lemma name_must_follow_marker_witness :
  process_line (marker_line mn_block)
    [[]; txt "    " ++ name_line mn_block; txt "    " ++ scalar_line mn_block]
    (extract_peak_results (document [mw_block]))
  = Ok (extract_peak_results (document [mw_block])).
Proof.
  apply (name_must_follow_marker (marker_line mn_block) []
           [txt "    " ++ name_line mn_block;
            txt "    " ++ scalar_line mn_block]
           (extract_peak_results (document [mw_block]))).
  reflexivity.
Defined.

Lemma scalar_with_units_lacks (sl n l : text) (t : ResultTable) :
  In l (lits scalar_re_units_unc_peak) ->
  In l (lits scalar_re_units_peak_unc) ->
  contains l sl = false -> scalar_with_units sl n t = Ok t.
Proof.
  intros H1 H2 Hc. unfold scalar_with_units.
  now rewrite (re_search_lacks _ _ _ H1 Hc), (re_search_lacks _ _ _ H2 Hc).
Qed.

Lemma scalar_without_units_lacks (sl l : text) (t : ResultTable) :
  In l (lits scalar_re_unc_peak) -> In l (lits scalar_re_peak_unc) ->
  contains l sl = false -> scalar_without_units sl t = Ok t.
Proof.
  intros H1 H2 Hc. unfold scalar_without_units.
  now rewrite (re_search_lacks _ _ _ H1 Hc), (re_search_lacks _ _ _ H2 Hc).
Qed.

(** X6. Every pattern for the scalar line wants a peak attribute and an
    uncertainty attribute. When the second line after a marker line lacks
    [peak=] or [uncertainty=] followed by a quote, or the closing
    [</scalar>], the step leaves the table as it is and raises nothing,
    whatever the value is. *)
Theorem scalar_line_needs_peak_and_uncertainty (line l1 l2 : text)
    (rest : list text) (t : ResultTable) :
  contains (txt "peak=" ++ q) (strip l2) = false \/
  contains (txt "uncertainty=" ++ q) (strip l2) = false \/
  contains (txt "</scalar>") (strip l2) = false ->
  process_line line (l1 :: l2 :: rest) t = Ok t.
Proof.
  intros H.
  assert (Hw : forall n, scalar_with_units (strip l2) n t = Ok t).
  { intros n. destruct H as [H|[H|H]];
      (eapply scalar_with_units_lacks; [| |exact H]);
      unfold scalar_re_units_unc_peak, scalar_re_units_peak_unc;
      cbn [lits grp_attr grp_digits grp_text skip]; cbn; tauto. }
  assert (Ho : scalar_without_units (strip l2) t = Ok t).
  { destruct H as [H|[H|H]];
      (eapply scalar_without_units_lacks; [| |exact H]);
      unfold scalar_re_unc_peak, scalar_re_peak_unc; cbn; tauto. }
  unfold process_line, molar_mass_block, polydispersity_block,
    rms_radius_block.
  destruct (contains (marker "molar mass") line).
  { destruct (re_search name_re (strip l1)) as [[|n g]|]; auto. }
  destruct (contains (marker "polydispersity") line).
  { destruct (contains _ (strip l1)); auto. }
  destruct (contains (marker "rms radius") line); [|reflexivity].
  destruct (re_search name_re (strip l1)) as [[|n g]|]; auto.
  destruct (text_eqb n (txt "rz")); auto.
Qed.

Lemma scalar_line_needs_peak_and_uncertainty_witness :
  process_line (marker_line mn_block)
    [name_line mn_block;
     txt "<scalar units=" ++ q ++ txt "g/mol" ++ q ++ txt " peak=" ++ q ++
     txt "1" ++ q ++ txt ">15000</scalar>"]
    (extract_peak_results (document [mw_block]))
  = Ok (extract_peak_results (document [mw_block])).
Proof.
  apply (scalar_line_needs_peak_and_uncertainty (marker_line mn_block)
           (name_line mn_block)
           (txt "<scalar units=" ++ q ++ txt "g/mol" ++ q ++ txt " peak=" ++
            q ++ txt "1" ++ q ++ txt ">15000</scalar>")
           [] (extract_peak_results (document [mw_block]))).
  right. left. vm_compute. reflexivity.
Defined.

(** ** Patterns: the attribute in front of a quote *)

(** Two ways of cutting a text at a quote, with as many quotes before the
    cut, agree. *)
Lemma cut_at_quote (a a' b b' : text) :
  a ++ dquote :: b = a' ++ dquote :: b' -> quotes a = quotes a' -> a = a'.
Proof.
  revert a'. induction a as [|c a IH]; intros [|c' a'] E H.
  - reflexivity.
  - exfalso. simpl in E. injection E as <- _. simpl in H. discriminate.
  - exfalso. simpl in E. injection E as -> _. simpl in H. discriminate.
  - simpl in E. injection E as <- E. f_equal. apply IH; [exact E|].
    simpl in H. destruct (Ascii.eqb c dquote); lia.
Qed.

(** A literal [key] followed by a quote, in a pattern whose literals hold
    as many quotes as the line: the literal stands right before the quote
    of the line that has the quotes of the literals before it in front. *)
Lemma key_at_quote (ls1 ls2 : list text) (key h t : text) :
  in_order (ls1 ++ (key ++ q) :: ls2) (h ++ dquote :: t) ->
  quotes key = O -> quotes h = sum_quotes ls1 -> quotes t = sum_quotes ls2 ->
  exists a, h = a ++ key.
Proof.
  intros H Hk Hh Ht.
  apply in_order_split in H as (a & b & E & Ha & Hb).
  assert (Hq : quotes (h ++ dquote :: t) = quotes (a ++ (key ++ q) ++ b))
    by now rewrite E.
  rewrite !quotes_app in Hq. simpl in Hq. rewrite Hk in Hq.
  exists a. symmetry. apply (cut_at_quote _ _ b t).
  - rewrite E. rewrite <- !app_assoc. reflexivity.
  - rewrite quotes_app, Hk. lia.
Qed.

(** Two texts that end in different characters before a last [=] are not
    equal. *)
Lemma ends_differ (a b k1 k2 : text) (c d : ascii) :
  c <> d -> a ++ k1 ++ [c; "="%char] <> b ++ k2 ++ [d; "="%char].
Proof.
  intros Hcd E. apply (f_equal (@rev ascii)) in E.
  rewrite !rev_app_distr in E. simpl in E. injection E as E _. auto.
Qed.

Section OtherOrders.
Variables (u x p v : text).
Hypothesis Hu : no_char dquote u = true.
Hypothesis Hx : no_char dquote x = true.
Hypothesis Hp : no_char dquote p = true.
Hypothesis Hv : no_char dquote v = true.

(** A line of three attributes, cut at its third quote and at its fifth. *)
Lemma cut_third (k1 k2 k3 : string) (v1 v2 v3 : text) :
  txt "<scalar" ++ attr k1 v1 ++ attr k2 v2 ++ attr k3 v3 ++
  txt ">" ++ v ++ txt "</scalar>"
  = (txt "<scalar" ++ attr k1 v1 ++ txt " " ++ txt k2 ++ txt "=") ++
    dquote :: v2 ++ q ++ attr k3 v3 ++ txt ">" ++ v ++ txt "</scalar>".
Proof. unfold attr. rewrite <- !app_assoc. reflexivity. Qed.

Lemma cut_fifth (k1 k2 k3 : string) (v1 v2 v3 : text) :
  txt "<scalar" ++ attr k1 v1 ++ attr k2 v2 ++ attr k3 v3 ++
  txt ">" ++ v ++ txt "</scalar>"
  = (txt "<scalar" ++ attr k1 v1 ++ attr k2 v2 ++
     txt " " ++ txt k3 ++ txt "=") ++
    dquote :: v3 ++ q ++ txt ">" ++ v ++ txt "</scalar>".
Proof. unfold attr. rewrite <- !app_assoc. reflexivity. Qed.

Lemma quotes_attr (k : string) (w : text) :
  quotes (txt k) = O -> quotes w = O -> quotes (attr k w) = 2%nat.
Proof.
  intros Hk Hw. unfold attr. rewrite !quotes_app, Hk, Hw. reflexivity.
Qed.

Lemma quotes_tail : quotes (txt ">" ++ v ++ txt "</scalar>") = O.
Proof using Hv. rewrite !quotes_app, (quotes_none v Hv). reflexivity. Qed.

(** The second attribute of a line that a pattern matches is the second
    attribute of the pattern, and so is the third. *)
Lemma second_key (ls1 ls2 : list text) (key : text) (k1 k2 k3 : string)
    (v1 v2 v3 : text) :
  in_order (ls1 ++ (key ++ q) :: ls2)
    (txt "<scalar" ++ attr k1 v1 ++ attr k2 v2 ++ attr k3 v3 ++
     txt ">" ++ v ++ txt "</scalar>") ->
  quotes key = O -> sum_quotes ls1 = 2%nat -> sum_quotes ls2 = 3%nat ->
  quotes (txt k1) = O -> quotes (txt k2) = O -> quotes (txt k3) = O ->
  quotes v1 = O -> quotes v2 = O -> quotes v3 = O ->
  exists a, txt "<scalar" ++ attr k1 v1 ++ txt " " ++ txt k2 ++ txt "="
            = a ++ key.
Proof using Hv.
  intros H Hk H1 H2 Q1 Q2 Q3 W1 W2 W3. rewrite cut_third in H.
  apply (key_at_quote ls1 ls2 key _ _ H Hk).
  - rewrite H1, !quotes_app, (quotes_attr k1 v1 Q1 W1), Q2. reflexivity.
  - rewrite H2, !quotes_app, (quotes_attr k3 v3 Q3 W3), W2,
      (quotes_none v Hv). reflexivity.
Qed.

Lemma third_key (ls1 ls2 : list text) (key : text) (k1 k2 k3 : string)
    (v1 v2 v3 : text) :
  in_order (ls1 ++ (key ++ q) :: ls2)
    (txt "<scalar" ++ attr k1 v1 ++ attr k2 v2 ++ attr k3 v3 ++
     txt ">" ++ v ++ txt "</scalar>") ->
  quotes key = O -> sum_quotes ls1 = 4%nat -> sum_quotes ls2 = 1%nat ->
  quotes (txt k1) = O -> quotes (txt k2) = O -> quotes (txt k3) = O ->
  quotes v1 = O -> quotes v2 = O -> quotes v3 = O ->
  exists a, txt "<scalar" ++ attr k1 v1 ++ attr k2 v2 ++
            txt " " ++ txt k3 ++ txt "=" = a ++ key.
Proof using Hv.
  intros H Hk H1 H2 Q1 Q2 Q3 W1 W2 W3. rewrite cut_fifth in H.
  apply (key_at_quote ls1 ls2 key _ _ H Hk).
  - rewrite H1, !quotes_app, (quotes_attr k1 v1 Q1 W1),
      (quotes_attr k2 v2 Q2 W2), Q3. reflexivity.
  - rewrite H2, !quotes_app, W3, (quotes_none v Hv). reflexivity.
Qed.

(** A pattern finds nothing in a line whose second attribute, or whose
    third, is not the one the pattern has in that place. *)
Lemma no_match_second (pattern : list item) (ls1 ls2 : list text)
    (k1 k2 k3 : string) (v1 v2 v3 w1 w2 : text) (c d : ascii) :
  lits pattern = ls1 ++ ((w2 ++ [d; "="%char]) ++ q) :: ls2 ->
  txt " " ++ txt k2 ++ txt "=" = w1 ++ [c; "="%char] -> c <> d ->
  quotes (w2 ++ [d; "="%char]) = O ->
  sum_quotes ls1 = 2%nat -> sum_quotes ls2 = 3%nat ->
  quotes (txt k1) = O -> quotes (txt k2) = O -> quotes (txt k3) = O ->
  quotes v1 = O -> quotes v2 = O -> quotes v3 = O ->
  re_search pattern
    (txt "<scalar" ++ attr k1 v1 ++ attr k2 v2 ++ attr k3 v3 ++
     txt ">" ++ v ++ txt "</scalar>") = None.
Proof using Hv.
  intros HL Hk Hcd Hq H1 H2 Q1 Q2 Q3 W1 W2 W3.
  destruct (re_search pattern _) as [g|] eqn:E; [exfalso|reflexivity].
  apply re_search_sound in E. rewrite HL in E.
  apply second_key in E; try assumption.
  destruct E as [a E]. rewrite Hk in E.
  apply (ends_differ (txt "<scalar" ++ attr k1 v1) a w1 w2 c d Hcd).
  rewrite <- app_assoc. exact E.
Qed.

Lemma no_match_third (pattern : list item) (ls1 ls2 : list text)
    (k1 k2 k3 : string) (v1 v2 v3 w1 w2 : text) (c d : ascii) :
  lits pattern = ls1 ++ ((w2 ++ [d; "="%char]) ++ q) :: ls2 ->
  txt " " ++ txt k3 ++ txt "=" = w1 ++ [c; "="%char] -> c <> d ->
  quotes (w2 ++ [d; "="%char]) = O ->
  sum_quotes ls1 = 4%nat -> sum_quotes ls2 = 1%nat ->
  quotes (txt k1) = O -> quotes (txt k2) = O -> quotes (txt k3) = O ->
  quotes v1 = O -> quotes v2 = O -> quotes v3 = O ->
  re_search pattern
    (txt "<scalar" ++ attr k1 v1 ++ attr k2 v2 ++ attr k3 v3 ++
     txt ">" ++ v ++ txt "</scalar>") = None.
Proof using Hv.
  intros HL Hk Hcd Hq H1 H2 Q1 Q2 Q3 W1 W2 W3.
  destruct (re_search pattern _) as [g|] eqn:E; [exfalso|reflexivity].
  apply re_search_sound in E. rewrite HL in E.
  apply third_key in E; try assumption.
  destruct E as [a E]. rewrite Hk in E.
  apply (ends_differ (txt "<scalar" ++ attr k1 v1 ++ attr k2 v2) a w1 w2 c d
           Hcd).
  rewrite <- !app_assoc. exact E.
Qed.

(** The two patterns of [scalar_with_units] on the four other orders. *)
Lemma first_pattern_other_orders :
  re_search scalar_re_units_unc_peak
    (txt "<scalar" ++ attr "uncertainty" x ++ attr "units" u ++
     attr "peak" p ++ txt ">" ++ v ++ txt "</scalar>") = None /\
  re_search scalar_re_units_unc_peak
    (txt "<scalar" ++ attr "uncertainty" x ++ attr "peak" p ++
     attr "units" u ++ txt ">" ++ v ++ txt "</scalar>") = None /\
  re_search scalar_re_units_unc_peak
    (txt "<scalar" ++ attr "peak" p ++ attr "units" u ++
     attr "uncertainty" x ++ txt ">" ++ v ++ txt "</scalar>") = None /\
  re_search scalar_re_units_unc_peak
    (txt "<scalar" ++ attr "peak" p ++ attr "uncertainty" x ++
     attr "units" u ++ txt ">" ++ v ++ txt "</scalar>") = None.
Proof using Hu Hx Hp Hv.
  pose proof (quotes_none u Hu) as Qu. pose proof (quotes_none x Hx) as Qx.
  pose proof (quotes_none p Hp) as Qp.
  repeat split.
  - apply (no_match_second _ [txt "<scalar"; txt "units=" ++ q; q]
             [q; txt "peak=" ++ q; q; txt ">"; txt "</scalar>"]
             _ _ _ _ _ _ (txt " unit") (txt "uncertaint") "s" "y");
      try reflexivity; try assumption; discriminate.
  - apply (no_match_second _ [txt "<scalar"; txt "units=" ++ q; q]
             [q; txt "peak=" ++ q; q; txt ">"; txt "</scalar>"]
             _ _ _ _ _ _ (txt " pea") (txt "uncertaint") "k" "y");
      try reflexivity; try assumption; discriminate.
  - apply (no_match_second _ [txt "<scalar"; txt "units=" ++ q; q]
             [q; txt "peak=" ++ q; q; txt ">"; txt "</scalar>"]
             _ _ _ _ _ _ (txt " unit") (txt "uncertaint") "s" "y");
      try reflexivity; try assumption; discriminate.
  - apply (no_match_third _
             [txt "<scalar"; txt "units=" ++ q; q; txt "uncertainty=" ++ q; q]
             [q; txt ">"; txt "</scalar>"]
             _ _ _ _ _ _ (txt " unit") (txt "pea") "s" "k");
      try reflexivity; try assumption; discriminate.
Qed.

Lemma second_pattern_other_orders :
  re_search scalar_re_units_peak_unc
    (txt "<scalar" ++ attr "uncertainty" x ++ attr "units" u ++
     attr "peak" p ++ txt ">" ++ v ++ txt "</scalar>") = None /\
  re_search scalar_re_units_peak_unc
    (txt "<scalar" ++ attr "uncertainty" x ++ attr "peak" p ++
     attr "units" u ++ txt ">" ++ v ++ txt "</scalar>") = None /\
  re_search scalar_re_units_peak_unc
    (txt "<scalar" ++ attr "peak" p ++ attr "units" u ++
     attr "uncertainty" x ++ txt ">" ++ v ++ txt "</scalar>") = None /\
  re_search scalar_re_units_peak_unc
    (txt "<scalar" ++ attr "peak" p ++ attr "uncertainty" x ++
     attr "units" u ++ txt ">" ++ v ++ txt "</scalar>") = None.
Proof using Hu Hx Hp Hv.
  pose proof (quotes_none u Hu) as Qu. pose proof (quotes_none x Hx) as Qx.
  pose proof (quotes_none p Hp) as Qp.
  repeat split.
  - apply (no_match_second _ [txt "<scalar"; txt "units=" ++ q; q]
             [q; txt "uncertainty=" ++ q; q; txt ">"; txt "</scalar>"]
             _ _ _ _ _ _ (txt " unit") (txt "pea") "s" "k");
      try reflexivity; try assumption; discriminate.
  - apply (no_match_third _
             [txt "<scalar"; txt "units=" ++ q; q; txt "peak=" ++ q; q]
             [q; txt ">"; txt "</scalar>"]
             _ _ _ _ _ _ (txt " unit") (txt "uncertaint") "s" "y");
      try reflexivity; try assumption; discriminate.
  - apply (no_match_second _ [txt "<scalar"; txt "units=" ++ q; q]
             [q; txt "uncertainty=" ++ q; q; txt ">"; txt "</scalar>"]
             _ _ _ _ _ _ (txt " unit") (txt "pea") "s" "k");
      try reflexivity; try assumption; discriminate.
  - apply (no_match_second _ [txt "<scalar"; txt "units=" ++ q; q]
             [q; txt "uncertainty=" ++ q; q; txt ">"; txt "</scalar>"]
             _ _ _ _ _ _ (txt " uncertaint") (txt "pea") "y" "k");
      try reflexivity; try assumption; discriminate.
Qed.

End OtherOrders.

(** ** A block whose units attribute is not the first *)

Lemma scalar_with_units_other_order (b : Block) (order : list attr_key)
    (n : text) (t : ResultTable) :
  well_formed b = true -> units_not_first order = true ->
  scalar_with_units (scalar_line_in order b) n t = Ok t.
Proof.
  intros W Ho. apply well_formed_split in W.
  destruct W as [_ _ _ Wu Wx _ Wd _ Wq].
  pose proof (digits_no_quote _ Wd) as Hp.
  destruct (first_pattern_other_orders (b_units b) (b_uncertainty b)
              (b_peak b) (b_value b) Wu Wx Hp Wq)
    as (A1 & A2 & A3 & A4).
  destruct (second_pattern_other_orders (b_units b) (b_uncertainty b)
              (b_peak b) (b_value b) Wu Wx Hp Wq)
    as (B1 & B2 & B3 & B4).
  unfold scalar_with_units, scalar_line_in.
  destruct order as [|[] [|[] [|[] [|]]]]; try discriminate Ho;
    cbn [map concat attr_of]; rewrite app_nil_r, <- ?app_assoc.
  - now rewrite A1, B1.
  - now rewrite A2, B2.
  - now rewrite A3, B3.
  - now rewrite A4, B4.
Qed.

(** X7. Both patterns of a molar mass or rms radius block want the units
    attribute before the other two. A well-formed block whose scalar line
    has its three attributes in one of the four other orders is passed
    over: the step at its first line leaves the table as it is and raises
    nothing, whatever the value and the uncertainty are. *)
Theorem units_attribute_must_come_first (lines : list text) (i : nat)
    (b : Block) (order : list attr_key) (l0 l1 l2 : text)
    (t : ResultTable) :
  well_formed b = true -> has_units b = true ->
  units_not_first order = true ->
  lines !! i = Some l0 -> lines !! S i = Some l1 ->
  lines !! S (S i) = Some l2 ->
  strip l0 = marker_line b -> strip l1 = name_line b ->
  strip l2 = scalar_line_in order b ->
  step_at lines i t = Ok t.
Proof.
  intros W Hty Ho H0 H1 H2 E0 E1 E2. unfold step_at.
  rewrite (drop_S _ _ _ H0), (drop_S _ _ _ H1), (drop_S _ _ _ H2), E0.
  destruct marker_tests as (M1 & M2 & M3 & M4 & M5 & M6).
  unfold process_line, marker_line, has_units in *.
  destruct (b_type b); simpl type_tag; try discriminate Hty.
  - rewrite M1, E1, E2. unfold molar_mass_block.
    rewrite name_line_search by exact W.
    now apply scalar_with_units_other_order.
  - rewrite M4, M5, M6, E1, E2. unfold rms_radius_block.
    rewrite name_line_search by exact W.
    destruct (text_eqb (b_name b) (txt "rz")); [|reflexivity].
    now apply scalar_with_units_other_order.
Qed.

Lemma units_attribute_must_come_first_witness :
  step_at [marker_line mn_block; name_line mn_block;
           scalar_line_in [Peak; Units; Uncertainty] mn_block] 0
    (extract_peak_results (document [mw_block]))
  = Ok (extract_peak_results (document [mw_block])).
Proof.
  apply (units_attribute_must_come_first
           [marker_line mn_block; name_line mn_block;
            scalar_line_in [Peak; Units; Uncertainty] mn_block] 0
           mn_block [Peak; Units; Uncertainty]
           (marker_line mn_block) (name_line mn_block)
           (scalar_line_in [Peak; Units; Uncertainty] mn_block));
    reflexivity.
Defined.

(** ** What [float] accepts has no white space inside *)

Lemma span_digits_spec (s : text) :
  s = fst (span_digits s) ++ snd (span_digits s) /\
  forallb is_digit (fst (span_digits s)) = true.
Proof.
  induction s as [|c s [IH1 IH2]]; simpl; [auto|].
  destruct (is_digit c) eqn:E; [|auto].
  destruct (span_digits s) as [d r]. simpl in *. rewrite E, IH2.
  split; [now f_equal|reflexivity].
Qed.

Lemma digit_not_space (c : ascii) : is_digit c = true -> is_space c = false.
Proof.
  unfold is_digit, is_space. intros H. apply andb_prop in H as [H1 H2].
  apply N.leb_le in H1, H2.
  repeat match goal with
         | |- context [(?a <=? ?b)%N] => destruct (N.leb_spec a b)
         | |- context [(?a =? ?b)%N] => destruct (N.eqb_spec a b)
         end; try reflexivity; lia.
Qed.

Lemma digits_not_space (s : text) :
  forallb is_digit s = true -> forallb not_space s = true.
Proof.
  induction s as [|c s IH]; simpl; [auto|].
  intros H. apply andb_prop in H as [H1 H2].
  unfold not_space at 1. rewrite (digit_not_space c H1). simpl. auto.
Qed.

Lemma parse_sign_spec (s : text) :
  (exists c, is_space c = false /\ s = c :: snd (parse_sign s))
  \/ s = snd (parse_sign s).
Proof.
  destruct s as [|c s]; simpl; [now right|].
  destruct (Ascii.eqb_spec c "-") as [->|].
  { left. exists "-"%char. split; reflexivity. }
  destruct (Ascii.eqb_spec c "+") as [->|].
  { left. exists "+"%char. split; reflexivity. }
  now right.
Qed.

Lemma parse_number_chars (s : text) (res : N * Z) :
  parse_number s = Some res -> forallb not_space s = true /\ s <> [].
Proof.
  unfold parse_number.
  destruct (span_digits_spec s) as [E1 D1].
  destruct (span_digits s) as [ip r1]. simpl in E1, D1.
  set (P := match r1 with
            | c :: r => if Ascii.eqb c "." then span_digits r else ([], r1)
            | [] => ([], r1)
            end).
  assert (HP : exists dot, r1 = dot ++ fst P ++ snd P /\
                           forallb not_space dot = true /\
                           forallb is_digit (fst P) = true).
  { subst P. destruct r1 as [|c r].
    - exists []. auto.
    - destruct (Ascii.eqb_spec c ".") as [->|].
      + destruct (span_digits_spec r) as [E2 D2]. exists (txt ".").
        split; [simpl; now f_equal|]. split; [reflexivity|exact D2].
      + exists []. auto. }
  destruct P as [fp r2]. destruct HP as (dot & E2 & Hdot & D2).
  simpl in E2, D2.
  destruct (ip ++ fp) as [|c0 rest0] eqn:Em; [discriminate|].
  intros H.
  assert (Hr2 : forallb not_space r2 = true).
  { destruct r2 as [|c r3]; [reflexivity|].
    destruct (Ascii.eqb c "e" || Ascii.eqb c "E") eqn:Ee; [|discriminate].
    assert (Hc : not_space c = true).
    { apply orb_prop in Ee as [Ee|Ee]; apply Ascii.eqb_eq in Ee; subst;
        reflexivity. }
    destruct (parse_sign_spec r3) as [(sg & Hsg & E3)|E3];
      destruct (parse_sign r3) as [eneg r4]; simpl in E3;
      destruct (span_digits_spec r4) as [E4 D4];
      destruct (span_digits r4) as [ed re]; simpl in E4, D4;
      destruct ed as [|e0 ed]; try discriminate;
      destruct re; try discriminate;
      rewrite app_nil_r in E4; subst r4 r3.
    - change (not_space c &&
              (not_space sg && forallb not_space (e0 :: ed)) = true).
      rewrite Hc. unfold not_space at 1. rewrite Hsg. cbn [negb andb].
      now apply digits_not_space.
    - change (not_space c && forallb not_space (e0 :: ed) = true).
      rewrite Hc. cbn [andb]. now apply digits_not_space. }
  split.
  - rewrite E1, E2, !forallb_app, Hdot, Hr2.
    rewrite !digits_not_space by assumption. reflexivity.
  - rewrite E1. intros Hnil. apply app_eq_nil in Hnil as [-> Hn].
    rewrite E2 in Hn. apply app_eq_nil in Hn as [_ Hn].
    apply app_eq_nil in Hn as [-> _]. discriminate.
Qed.

Lemma strip_underscores_chars (prev : ascii) (s s1 : text) :
  strip_underscores prev s = Some s1 ->
  forallb not_space s1 = true -> forallb not_space s = true.
Proof.
  revert prev s1. induction s as [|c s IH]; intros prev s1; simpl.
  - reflexivity.
  - destruct (Ascii.eqb_spec c "_") as [->|Hc].
    + destruct (is_digit prev); [|discriminate].
      intros H Hs. rewrite (IH _ _ H Hs). reflexivity.
    + destruct (Ascii.eqb prev "_" && negb (is_digit c)); [discriminate|].
      destruct (strip_underscores c s) as [s2|] eqn:E; [|discriminate].
      simpl. intros [= <-]. simpl. intros H. apply andb_prop in H as [H1 H2].
      rewrite H1. simpl. eapply IH; eauto.
Qed.

Lemma strip_underscores_nonempty (prev : ascii) (s s1 : text) :
  strip_underscores prev s = Some s1 -> s1 <> [] -> s <> [].
Proof. destruct s; simpl; [|discriminate]. destruct (Ascii.eqb prev "_"); congruence. Qed.

Lemma lower_chars (r : text) :
  forallb not_space (map lower r) = true -> forallb not_space r = true.
Proof.
  induction r as [|c r IH]; simpl; [auto|].
  intros H. apply andb_prop in H as [H1 H2]. rewrite (IH H2), andb_true_r.
  unfold not_space in *. apply negb_true_iff in H1. apply negb_true_iff.
  destruct (is_space c) eqn:E; [|reflexivity].
  destruct (is_space (lower c)) eqn:E'; [discriminate|].
  (* lower keeps white space *)
  unfold lower in E'.
  destruct ((65 <=? code c)%N && (code c <=? 90)%N) eqn:Eu;
    [|congruence].
  apply andb_prop in Eu as [E1 E2]. apply N.leb_le in E1, E2.
  unfold is_space in E.
  repeat match type of E with
         | context [(?a <=? ?b)%N] => destruct (N.leb_spec a b)
         | context [(?a =? ?b)%N] => destruct (N.eqb_spec a b)
         end; simpl in E; try discriminate; lia.
Qed.

(** What [float] accepts, once the white space around it is off, is not
    empty and holds no white space. *)
Lemma float_of_text_core (s : text) (v : float) :
  float_of_text s = Some v ->
  forallb not_space (strip_by is_float_space s) = true /\
  strip_by is_float_space s <> [].
Proof.
  unfold float_of_text.
  destruct (strip_underscores "000" (strip_by is_float_space s)) as [s1|] eqn:E;
    [|discriminate].
  destruct (parse_sign_spec s1) as [(sg & Hsg & E1)|E1];
    destruct (parse_sign s1) as [neg r]; simpl in E1; intros H;
    (assert (Hr : forallb not_space r = true /\ r <> []);
     [ destruct (text_eqb (map lower r) (txt "inf")
                 || text_eqb (map lower r) (txt "infinity")) eqn:Ei;
       [ assert (Hl : forallb not_space (map lower r) = true
                      /\ map lower r <> [])
           by (apply orb_prop in Ei as [Ei|Ei];
               apply text_eqb_true in Ei; rewrite Ei; split;
               [reflexivity|discriminate|reflexivity|discriminate]);
         destruct Hl as [Hl1 Hl2]; split; [now apply lower_chars|];
         intros ->; now apply Hl2
       | destruct (text_eqb (map lower r) (txt "nan")) eqn:En;
         [ apply text_eqb_true in En;
           split; [apply lower_chars; rewrite En; reflexivity|];
           intros ->; discriminate
         | destruct (parse_number r) as [[m e]|] eqn:Ep; [|discriminate];
           now apply parse_number_chars in Ep ] ]
     | ]);
    destruct Hr as [Hr1 Hr2].
  - assert (Hs1 : forallb not_space s1 = true).
    { rewrite E1. simpl. unfold not_space at 1. now rewrite Hsg. }
    split.
    + eapply strip_underscores_chars; eauto.
    + eapply strip_underscores_nonempty; eauto. rewrite E1. discriminate.
  - subst s1. split.
    + eapply strip_underscores_chars; eauto.
    + eapply strip_underscores_nonempty; eauto.
Qed.

(** ** [strip] before [float] *)

Lemma lstrip_split (sp : ascii -> bool) (s : text) :
  exists a, s = a ++ lstrip sp s /\ forallb sp a = true.
Proof.
  induction s as [|c s (a & E & Ha)]; simpl.
  - exists []. auto.
  - destruct (sp c) eqn:Ec.
    + exists (c :: a). simpl. rewrite Ec, Ha. split; [now f_equal|reflexivity].
    + exists []. auto.
Qed.

Lemma rstrip_split (sp : ascii -> bool) (s : text) :
  exists b, s = rstrip sp s ++ b /\ forallb sp b = true.
Proof.
  unfold rstrip. destruct (lstrip_split sp (rev s)) as (a & E & Ha).
  exists (rev a). split.
  - rewrite <- rev_app_distr, <- E. now rewrite rev_involutive.
  - rewrite forallb_forall in Ha |- *. intros x Hx. apply Ha.
    now apply in_rev.
Qed.

Lemma strip_by_split (sp : ascii -> bool) (s : text) :
  exists a b, s = a ++ strip_by sp s ++ b /\
              forallb sp a = true /\ forallb sp b = true.
Proof.
  unfold strip_by. destruct (lstrip_split sp s) as (a & E & Ha).
  destruct (rstrip_split sp (lstrip sp s)) as (b & E' & Hb).
  exists a, b. split; [|auto]. rewrite <- E'. exact E.
Qed.

Lemma lstrip_past (sp : ascii -> bool) (a s : text) :
  forallb sp a = true -> lstrip sp (a ++ s) = lstrip sp s.
Proof.
  induction a as [|c a IH]; simpl; [auto|].
  intros H. apply andb_prop in H as [-> H]. auto.
Qed.

Lemma lstrip_clean (sp : ascii -> bool) (c : ascii) (s : text) :
  sp c = false -> lstrip sp (c :: s) = c :: s.
Proof. simpl. now intros ->. Qed.

(** A text without white space, with white space of any kind around it,
    is what [strip] leaves. *)
Lemma strip_by_core (sp : ascii -> bool) (a core b : text) :
  forallb sp a = true -> forallb sp b = true ->
  forallb (fun c => negb (sp c)) core = true -> core <> [] ->
  strip_by sp (a ++ core ++ b) = core.
Proof.
  intros Ha Hb Hc Hn. unfold strip_by. rewrite lstrip_past by exact Ha.
  destruct core as [|c core]; [congruence|]. simpl in Hc.
  apply andb_prop in Hc as [Hc1 Hc2]. apply negb_true_iff in Hc1.
  change ((c :: core) ++ b) with (c :: core ++ b).
  rewrite lstrip_clean by exact Hc1.
  unfold rstrip.
  change (c :: core ++ b) with ((c :: core) ++ b).
  rewrite rev_app_distr. rewrite lstrip_past.
  - assert (Hl : exists d r, rev (c :: core) = d :: r /\ sp d = false).
    { destruct (rev (c :: core)) as [|d r] eqn:E.
      - apply (f_equal (@length _)) in E. rewrite length_rev in E.
        discriminate.
      - exists d, r. split; [reflexivity|].
        assert (Hd : In d (c :: core)) by (apply in_rev; rewrite E; now left).
        destruct Hd as [<-|Hd]; [exact Hc1|].
        rewrite forallb_forall in Hc2. apply negb_true_iff. now apply Hc2. }
    destruct Hl as (d & r & E & Hd). rewrite E, lstrip_clean by exact Hd.
    rewrite <- E. apply rev_involutive.
  - rewrite forallb_forall in Hb |- *. intros x Hx. apply Hb.
    now apply in_rev.
Qed.

Lemma float_space_is_space (c : ascii) :
  is_float_space c = true -> is_space c = true.
Proof.
  unfold is_float_space, is_space.
  repeat match goal with
         | |- context [(?a <=? ?b)%N] => destruct (N.leb_spec a b)
         | |- context [(?a =? ?b)%N] => destruct (N.eqb_spec a b)
         end; simpl; intros; try reflexivity; try discriminate; lia.
Qed.

Lemma forallb_imp (f g : ascii -> bool) (s : text) :
  (forall c, f c = true -> g c = true) ->
  forallb f s = true -> forallb g s = true.
Proof.
  intros H. rewrite !forallb_forall. auto.
Qed.

(** [float(s.strip())] is [float(s)] wherever [float(s)] is a number. *)
Lemma float_of_text_strip (s : text) (v : float) :
  float_of_text s = Some v -> float_of_text (strip s) = Some v.
Proof.
  intros H. destruct (float_of_text_core s v H) as [Hc Hn].
  destruct (strip_by_split is_float_space s) as (a & b & E & Ha & Hb).
  assert (Es : strip s = strip_by is_float_space s).
  { unfold strip. rewrite E at 1. apply strip_by_core; auto.
    - eapply forallb_imp; [apply float_space_is_space|exact Ha].
    - eapply forallb_imp; [apply float_space_is_space|exact Hb]. }
  unfold float_of_text in *. rewrite Es.
  rewrite strip_by_idem. exact H.
Qed.

(** ** The older scan and the newer one *)

Lemma older_record_value (t t' : ResultTable) (p : N) (n u : text)
    (x : float) (vs : text) :
  MolecularWeights.record_value t p n u x vs = Ok t' ->
  record_value t p n u x vs = Ok t'.
Proof.
  unfold MolecularWeights.record_value, record_value.
  destruct (text_eqb vs NA) eqn:E1; simpl; [auto|].
  unfold to_float. destruct (float_of_text vs) as [v|] eqn:Ev;
    [|discriminate].
  destruct (text_eqb vs INVALID) eqn:E2; [|auto].
  apply text_eqb_true in E2. subst. rewrite float_of_text_INVALID in Ev.
  discriminate.
Qed.

Lemma older_bind_float (s : text) (k k' : float -> result ResultTable)
    (t' : ResultTable) :
  (forall x, k x = Ok t' -> k' x = Ok t') ->
  (x <- to_float s ;; k x) = Ok t' -> (x <- to_float s ;; k' x) = Ok t'.
Proof.
  intros H. unfold to_float. destruct (float_of_text s) as [x|]; simpl.
  - apply H.
  - discriminate.
Qed.

Lemma older_bind_int (s : text) (k k' : N -> result ResultTable)
    (t' : ResultTable) :
  (forall p, k p = Ok t' -> k' p = Ok t') ->
  (p <- to_int s ;; k p) = Ok t' -> (p <- to_int s ;; k' p) = Ok t'.
Proof.
  intros H. unfold to_int.
  destruct (Nat.ltb MAX_STR_DIGITS (length s)); cbn [bind].
  - discriminate.
  - apply H.
Qed.

Lemma older_scalar_with_units (sl n : text) (t t' : ResultTable) :
  MolecularWeights.scalar_with_units sl n t = Ok t' ->
  scalar_with_units sl n t = Ok t'.
Proof.
  unfold MolecularWeights.scalar_with_units, scalar_with_units.
  destruct (re_search scalar_re_units_unc_peak sl)
    as [[|g1 [|g2 [|g3 [|g4 g]]]]|];
  try (apply older_bind_float; intros x; apply older_bind_int; intros p;
       apply older_record_value);
  destruct (re_search scalar_re_units_peak_unc sl)
    as [[|h1 [|h2 [|h3 [|h4 h]]]]|];
  try (intros H; exact H);
  apply older_bind_int; intros p; apply older_bind_float; intros x;
  apply older_record_value.
Qed.

Lemma older_polydispersity (t t' : ResultTable) (p : N) (x : float)
    (g : text) :
  (value <- to_float g ;; MolecularWeights.store_polydispersity t p x value)
  = Ok t' ->
  record_value t p (txt "Mw/Mn") [] x (strip g) = Ok t'.
Proof.
  unfold to_float. destruct (float_of_text g) as [v|] eqn:Ev; [|discriminate].
  simpl. unfold MolecularWeights.store_polydispersity, float_div.
  destruct (is_zero v) eqn:Hz; [discriminate|]. simpl. intros <-.
  apply record_value_stored; [|exact Hz]. now apply float_of_text_strip.
Qed.

Lemma older_scalar_without_units (sl : text) (t t' : ResultTable) :
  MolecularWeights.scalar_without_units sl t = Ok t' ->
  scalar_without_units sl t = Ok t'.
Proof.
  unfold MolecularWeights.scalar_without_units, scalar_without_units.
  destruct (re_search scalar_re_unc_peak sl)
    as [[|g1 [|g2 [|g3 g]]]|];
  try (apply older_bind_float; intros x; apply older_bind_int; intros p;
       apply older_polydispersity);
  destruct (re_search scalar_re_peak_unc sl)
    as [[|h1 [|h2 [|h3 h]]]|];
  try (intros H; exact H);
  apply older_bind_int; intros p; apply older_bind_float; intros x;
  apply older_polydispersity.
Qed.

Lemma older_process_line (line : text) (rest : list text)
    (t t' : ResultTable) :
  MolecularWeights.process_line line rest t = Ok t' ->
  process_line line rest t = Ok t'.
Proof.
  unfold MolecularWeights.process_line, process_line.
  destruct (contains (marker "molar mass") line).
  { destruct rest as [|l1 [|l2 rest]]; auto.
    unfold MolecularWeights.molar_mass_block, molar_mass_block.
    destruct (re_search name_re (strip l1)) as [[|n g]|]; auto.
    apply older_scalar_with_units. }
  destruct (contains (marker "polydispersity") line).
  { destruct rest as [|l1 [|l2 rest]]; auto.
    unfold MolecularWeights.polydispersity_block, polydispersity_block.
    destruct (contains _ (strip l1)); auto.
    apply older_scalar_without_units. }
  destruct (contains (marker "rms radius") line); auto.
  destruct rest as [|l1 [|l2 rest]]; auto.
  unfold MolecularWeights.rms_radius_block, rms_radius_block.
  destruct (re_search name_re (strip l1)) as [[|n g]|]; auto.
  destruct (text_eqb n (txt "rz")); auto.
  apply older_scalar_with_units.
Qed.

Lemma older_scan_lines (lines : list text) (t t' : ResultTable) :
  MolecularWeights.scan_lines lines t = Ok t' -> scan_lines lines t = Ok t'.
Proof.
  revert t. induction lines as [|l rest IH]; intros t; simpl; [auto|].
  destruct (MolecularWeights.process_line (strip l) rest t) as [t1|e] eqn:E;
    [|discriminate].
  rewrite (older_process_line _ _ _ _ E). simpl. apply IH.
Qed.

(** X11. Whenever the older extractor scans a document without an
    exception, the newer one does too and returns the same table. The
    newer one differs only where the older raises. *)
Theorem older_scan_refines (xml : text) (t : ResultTable) :
  MolecularWeights.scan_document xml = Ok t ->
  scan_document xml = Ok t /\
  extract_peak_results xml = MolecularWeights.extract_peak_results xml.
Proof.
  intros H.
  assert (E : scan_document xml = Ok t) by now apply older_scan_lines.
  split; [exact E|].
  unfold extract_peak_results, MolecularWeights.extract_peak_results.
  now rewrite E, H.
Qed.

Lemma older_scan_refines_witness :
  scan_document (document [mn_block; pdi_block; missing_block; rz_block])
  = Ok (MolecularWeights.extract_peak_results
          (document [mn_block; pdi_block; missing_block; rz_block])) /\
  extract_peak_results
    (document [mn_block; pdi_block; missing_block; rz_block])
  = MolecularWeights.extract_peak_results
      (document [mn_block; pdi_block; missing_block; rz_block]).
Proof.
  apply (older_scan_refines
           (document [mn_block; pdi_block; missing_block; rz_block])).
  vm_compute. reflexivity.
Defined.

(** ** The lines of a document *)

Lemma join_lines_cons (l l' : text) (ls : list text) :
  join_lines (l :: l' :: ls) = l ++ newline :: join_lines (l' :: ls).
Proof. reflexivity. Qed.

Lemma split_join_lines (ls : list text) :
  ls <> [] -> forallb (no_char newline) ls = true ->
  split_lines (join_lines ls) = ls.
Proof.
  induction ls as [|l ls IH]; intros Hn H; [congruence|].
  cbn [forallb] in H. apply andb_prop in H as [Hl Hls].
  destruct ls as [|l' ls].
  - simpl. now apply split_lines_plain.
  - rewrite join_lines_cons, split_lines_app, (split_lines_plain l Hl).
    rewrite IH by (auto; discriminate). reflexivity.
Qed.

Lemma rstrip_last (sp : ascii -> bool) (s : text) (d : ascii) :
  sp d = false -> rstrip sp (s ++ [d]) = s ++ [d].
Proof.
  intros H. unfold rstrip. rewrite rev_app_distr. simpl. rewrite H.
  simpl. now rewrite rev_involutive.
Qed.

(** A line between a first and a last character that are not white space
    is what [strip] leaves of it, whatever white space stands before. *)
Lemma strip_framed (a mid : text) (c d : ascii) :
  forallb is_space a = true -> is_space c = false -> is_space d = false ->
  strip (a ++ c :: mid ++ [d]) = c :: mid ++ [d].
Proof.
  intros Ha Hc Hd. unfold strip, strip_by.
  rewrite lstrip_past by exact Ha. simpl lstrip. rewrite Hc.
  change (c :: mid ++ [d]) with ((c :: mid) ++ [d]).
  now apply rstrip_last.
Qed.

Lemma no_char_digits (c : ascii) (p : text) :
  is_digit c = false -> forallb is_digit p = true -> no_char c p = true.
Proof.
  intros Hc. unfold no_char. induction p as [|d p IH]; simpl; [reflexivity|].
  intros H. apply andb_prop in H as [Hd Hp]. rewrite (IH Hp), andb_true_r.
  destruct (Ascii.eqb_spec d c) as [->|]; [congruence|reflexivity].
Qed.

(** A line that opens with a tag other than [<r...], holds no other [<]
    up to a closing text that is no marker, is no marker line. *)
Lemma tagged_line_is_plain (c : ascii) (n s : text) :
  Ascii.eqb c "r" = false -> Ascii.eqb c "<" = false ->
  no_char "<" n = true -> is_marker s = false ->
  is_marker ("<"%char :: c :: n ++ s) = false.
Proof.
  intros Hr Hlt Hn Hs. unfold is_marker in *.
  apply orb_false_elim in Hs as [Hs H3]. apply orb_false_elim in Hs as [H1 H2].
  assert (G : forall m : text,
             contains ("<"%char :: "r"%char :: m) s = false ->
             contains ("<"%char :: "r"%char :: m)
                      ("<"%char :: c :: n ++ s) = false).
  { intros m Hm. rewrite contains_cons, !starts_with_cons.
    rewrite (Ascii.eqb_sym "r" c), Hr, andb_false_r. cbn [orb].
    change (c :: n ++ s) with ((c :: n) ++ s).
    rewrite contains_skip; [exact Hm|].
    cbn [no_char forallb]. rewrite Hlt. exact Hn. }
  unfold marker in *. cbn [txt list_ascii_of_string app] in *.
  rewrite (G _ H1), (G _ H2), (G _ H3). reflexivity.
Qed.

Section BlockLines.
Variable b : Block.
Hypothesis Hb : plain_block b = true.

Lemma plain_block_parts :
  well_formed b = true /\
  no_char "<" (b_units b) = true /\ no_char "<" (b_uncertainty b) = true /\
  no_char newline (b_units b) = true /\
  no_char newline (b_uncertainty b) = true /\
  no_char newline (b_value b) = true.
Proof using Hb.
  pose proof Hb as H. unfold plain_block in H.
  do 5 (apply andb_prop in H as [H ?]).
  repeat split; assumption.
Qed.

Lemma strip_marker_line : strip (txt "  " ++ marker_line b) = marker_line b.
Proof. unfold marker_line. destruct (b_type b); vm_compute; reflexivity. Qed.

Lemma strip_name_line : strip (txt "    " ++ name_line b) = name_line b.
Proof.
  unfold name_line.
  replace (txt "<name>" ++ b_name b ++ txt "</name>")
    with ("<"%char :: (txt "name>" ++ b_name b ++ txt "</name") ++ [">"%char])
    by (cbn [txt list_ascii_of_string app]; rewrite <- !app_assoc;
        reflexivity).
  apply strip_framed; reflexivity.
Qed.

Lemma scalar_line_framed :
  exists mid,
    scalar_line b = "<"%char :: "s"%char :: mid ++ txt "</scalar>" /\
    no_char "<" mid = true /\ no_char newline mid = true.
Proof using Hb.
  destruct plain_block_parts as (W & Lu & Lx & Nu & Nx & Nv).
  apply well_formed_split in W.
  destruct W as [_ _ _ _ _ _ Wd Wv _].
  pose proof (no_char_digits "<" _ eq_refl Wd) as Lp.
  pose proof (no_char_digits newline _ eq_refl Wd) as Np.
  exists (txt "calar" ++
          match b_type b with
          | Polydispersity => []
          | _ => attr "units" (b_units b)
          end ++
          match b_order b with
          | UncertaintyThenPeak =>
              attr "uncertainty" (b_uncertainty b) ++ attr "peak" (b_peak b)
          | PeakThenUncertainty =>
              attr "peak" (b_peak b) ++ attr "uncertainty" (b_uncertainty b)
          end ++
          txt ">" ++ b_value b).
  split; [|split].
  - unfold scalar_line.
    change (txt "<scalar") with ("<"%char :: "s"%char :: txt "calar").
    cbn [app]. do 2 f_equal. rewrite <- !app_assoc. reflexivity.
  - destruct (b_type b), (b_order b); unfold attr;
      rewrite !no_char_app, ?Lu, ?Lx, ?Lp, ?Wv; reflexivity.
  - destruct (b_type b), (b_order b); unfold attr;
      rewrite !no_char_app, ?Nu, ?Nx, ?Np, ?Nv; reflexivity.
Qed.

Lemma strip_scalar_line : strip (txt "    " ++ scalar_line b) = scalar_line b.
Proof using Hb.
  destruct scalar_line_framed as (mid & -> & _).
  replace ("<"%char :: "s"%char :: mid ++ txt "</scalar>")
    with ("<"%char :: ("s"%char :: mid ++ txt "</scalar") ++ [">"%char])
    by (cbn [txt list_ascii_of_string app]; rewrite <- !app_assoc;
        reflexivity).
  apply strip_framed; reflexivity.
Qed.

Lemma name_line_is_plain : is_marker (name_line b) = false.
Proof using Hb.
  destruct plain_block_parts as (W & _). apply well_formed_split in W.
  destruct W as [_ Wl _ _ _ _ _ _ _].
  unfold name_line.
  change (txt "<name>" ++ b_name b ++ txt "</name>")
    with ("<"%char :: "n"%char :: (txt "ame>" ++ b_name b) ++ txt "</name>").
  apply tagged_line_is_plain; try reflexivity.
  rewrite no_char_app, Wl. reflexivity.
Qed.

Lemma scalar_line_is_plain : is_marker (scalar_line b) = false.
Proof using Hb.
  destruct scalar_line_framed as (mid & -> & Hm & _).
  apply tagged_line_is_plain; try reflexivity. exact Hm.
Qed.

Lemma block_lines_one_line :
  forallb (no_char newline) (block_lines b) = true.
Proof using Hb.
  destruct plain_block_parts as (W & _). apply well_formed_split in W.
  destruct W as [_ _ Wn _ _ _ _ _ _].
  destruct scalar_line_framed as (mid & E & _ & Hm).
  unfold block_lines. cbn [forallb]. rewrite E.
  unfold name_line, marker_line.
  rewrite !no_char_app, Wn.
  cbn [no_char forallb] in *. rewrite forallb_app. unfold no_char in Hm.
  rewrite Hm.
  destruct (b_type b); vm_compute; reflexivity.
Qed.

(** The four lines of a block, and what follows them. *)
Lemma scan_block_lines (rest : list text) (t : ResultTable) :
  scan_lines (block_lines b ++ rest) t
  = (t1 <- block_result b t ;; scan_lines rest t1).
Proof using Hb.
  destruct plain_block_parts as (W & _).
  unfold block_lines. cbn [app scan_lines].
  rewrite strip_marker_line, strip_name_line, strip_scalar_line.
  match goal with
  | |- context [process_line (marker_line b) ?r t] =>
      assert (E : process_line (marker_line b) r t = block_result b t)
  end.
  { destruct (recorded_name b) eqn:R.
    - rewrite (block_result_recorded b t R).
      apply block_step; auto using strip_name_line, strip_scalar_line.
    - unfold block_result. rewrite R.
      apply filtered_block_step; auto using strip_name_line.
      unfold well_formed in W. do 6 (apply andb_prop in W as [W _]).
      exact W. }
  rewrite E. destruct (block_result b t) as [t1|e]; [|reflexivity].
  cbn [bind].
  rewrite (process_line_plain (name_line b)) by apply name_line_is_plain.
  cbn [bind].
  rewrite (process_line_plain (scalar_line b)) by apply scalar_line_is_plain.
  cbn [bind].
  rewrite process_line_plain by (vm_compute; reflexivity).
  reflexivity.
Qed.

End BlockLines.

Lemma scan_document_lines (bs : list Block) (last : list text)
    (t : ResultTable) :
  forallb plain_block bs = true ->
  scan_lines (concat (map block_lines bs) ++ last) t
  = (t1 <- scan_blocks bs t ;; scan_lines last t1).
Proof.
  revert t. induction bs as [|b bs IH]; intros t H; [reflexivity|].
  cbn [forallb] in H. apply andb_prop in H as [Hb Hbs].
  cbn [map concat scan_blocks]. rewrite <- app_assoc.
  rewrite (scan_block_lines b Hb).
  destruct (block_result b t) as [t1|e]; [|reflexivity].
  cbn [bind]. now apply IH.
Qed.

Lemma document_lines (bs : list Block) :
  forallb plain_block bs = true ->
  split_lines (document bs)
  = txt "<results>" :: concat (map block_lines bs) ++ [txt "</results>"].
Proof.
  intros H. unfold document. apply split_join_lines; [discriminate|].
  cbn [forallb]. rewrite forallb_app. cbn [forallb].
  replace (forallb (no_char newline) (concat (map block_lines bs)))
    with true; [reflexivity|].
  symmetry. induction bs as [|b bs IH]; [reflexivity|].
  cbn [forallb] in H. apply andb_prop in H as [Hb Hbs].
  cbn [map concat]. rewrite forallb_app, (block_lines_one_line b Hb).
  now apply IH.
Qed.

(** X22. A results document made of well-formed blocks, each on its three
    lines and closed by a fourth, is scanned block by block: the result,
    table or exception, is that of taking the blocks in order, a block
    named otherwise than its type records doing nothing, and every other
    block converting its uncertainty and its peak number, in the order in
    which the scalar line has them, and then running the tail of the
    branch on its scalar text. A block whose uncertainty is not numeric,
    or whose peak number has more than 4300 digits, raises at the
    conversion. *)
Theorem document_is_scanned_block_by_block (bs : list Block) :
  forallb plain_block bs = true ->
  scan_document (document bs) = scan_blocks bs ∅.
Proof.
  intros H. unfold scan_document. rewrite (document_lines bs H).
  change (txt "<results>" :: concat (map block_lines bs) ++ [txt "</results>"])
    with ([txt "<results>"] ++
          concat (map block_lines bs) ++ [txt "</results>"]).
  cbn [app scan_lines].
  rewrite process_line_plain by (vm_compute; reflexivity). cbn [bind].
  rewrite (scan_document_lines bs _ _ H).
  destruct (scan_blocks bs ∅) as [t|e]; [|reflexivity].
  cbn [bind scan_lines].
  rewrite process_line_plain by (vm_compute; reflexivity). reflexivity.
Qed.

Lemma document_is_scanned_block_by_block_witness :
  scan_document
    (document [mn_block; pdi_block; rn_block; missing_block; mn_again_block;
               rz_block])
  = scan_blocks
      [mn_block; pdi_block; rn_block; missing_block; mn_again_block; rz_block]
      ∅.
Proof.
  apply (document_is_scanned_block_by_block
           [mn_block; pdi_block; rn_block; missing_block; mn_again_block;
            rz_block]).
  vm_compute. reflexivity.
Defined.

(** ** The scan without the radius branch *)

Lemma record_value_name (p : N) (n u : text) (x : float) (vs : text) :
  uniform_with (fun _ n' _ => n' = n) (fun t => record_value t p n u x vs).
Proof.
  unfold record_value.
  destruct (negb (text_eqb vs NA) && negb (text_eqb vs INVALID));
    [|apply uniform_with_keep].
  unfold to_float. destruct (float_of_text vs) as [v|];
    [|apply uniform_with_raise].
  simpl. unfold float_div. destruct (is_zero v);
    [apply uniform_with_raise|].
  simpl. right. right. eexists _, _, _. split; [|intros t; reflexivity].
  reflexivity.
Qed.

Lemma scalar_with_units_name (sl n : text) :
  uniform_with (fun _ n' _ => n' = n) (scalar_with_units sl n).
Proof.
  unfold scalar_with_units.
  destruct (re_search scalar_re_units_unc_peak sl)
    as [[|g1 [|g2 [|g3 [|g4 g]]]]|];
  try (apply to_float_uniform_with; intros; apply to_int_uniform_with;
       intros; apply record_value_name);
  destruct (re_search scalar_re_units_peak_unc sl)
    as [[|h1 [|h2 [|h3 [|h4 h]]]]|];
  try apply uniform_with_keep;
  apply to_int_uniform_with; intros; apply to_float_uniform_with; intros;
  apply record_value_name.
Qed.

Lemma radius_step_name (line : text) (rest : list text) :
  contains (marker "molar mass") line = false ->
  contains (marker "polydispersity") line = false ->
  uniform_with (fun _ n _ => n = txt "rz") (process_line line rest).
Proof.
  intros H1 H2. unfold process_line. rewrite H1, H2.
  destruct (contains (marker "rms radius") line);
    try apply uniform_with_keep.
  destruct rest as [|l1 [|l2 rest]]; try apply uniform_with_keep.
  unfold rms_radius_block.
  destruct (re_search name_re (strip l1)) as [[|n g]|];
    try apply uniform_with_keep.
  destruct (text_eqb n (txt "rz")); try apply uniform_with_keep.
  apply scalar_with_units_name.
Qed.

Lemma same_but_rz_store (a b : ResultTable) (p : N) (n : text)
    (m : Measurement) :
  same_but_rz a b -> same_but_rz (store a p n m) (store b p n m).
Proof.
  intros H p' n' Hn. rewrite !lookup2_store.
  destruct (decide _); [reflexivity|now apply H].
Qed.

Lemma same_but_rz_store_rz (a b : ResultTable) (p : N) (m : Measurement) :
  same_but_rz a b -> same_but_rz a (store b p (txt "rz") m).
Proof.
  intros H p' n' Hn. rewrite lookup2_store.
  destruct (decide _) as [[_ E]|_]; [congruence|now apply H].
Qed.

Lemma simple_scan_lines (lines : list text) (t t' u : ResultTable) :
  same_but_rz u t -> scan_lines lines t = Ok t' ->
  exists u', SimpleProcessor.scan_lines lines u = Ok u' /\ same_but_rz u' t'.
Proof.
  revert t u. induction lines as [|l rest IH]; intros t u HR H.
  - simpl in H. injection H as <-. exists u. auto.
  - cbn [scan_lines SimpleProcessor.scan_lines] in *.
    destruct (contains (marker "molar mass") (strip l)
              || contains (marker "polydispersity") (strip l)) eqn:Em.
    + assert (Es : forall x, SimpleProcessor.process_line (strip l) rest x
                             = process_line (strip l) rest x).
      { intros x. unfold SimpleProcessor.process_line, process_line.
        destruct (contains (marker "molar mass") (strip l)); [reflexivity|].
        simpl in Em. now rewrite Em. }
      rewrite Es.
      destruct (process_line_uniform (strip l) rest)
        as [U|[[e U]|(p & n & m & U)]]; rewrite U in *; simpl in *.
      * eapply IH; eauto.
      * discriminate.
      * eapply IH; [|exact H]. now apply same_but_rz_store.
    + apply orb_false_elim in Em as [E1 E2].
      assert (Es : SimpleProcessor.process_line (strip l) rest u = Ok u).
      { unfold SimpleProcessor.process_line. now rewrite E1, E2. }
      rewrite Es. simpl.
      destruct (radius_step_name (strip l) rest E1 E2)
        as [U|[[e U]|(p & n & m & -> & U)]]; rewrite U in H; simpl in H.
      * eapply IH; eauto.
      * discriminate.
      * eapply IH; [|exact H]. now apply same_but_rz_store_rz.
Qed.

(** X12. Where the newer extractor scans a document without an exception,
    so does the extractor of the simple processor, which has no branch for
    the rms radius; and the two tables hold the same measurement under
    every peak and every name other than [rz]. *)
Theorem simple_processor_agrees (xml : text) (t : ResultTable) :
  scan_document xml = Ok t ->
  exists t', SimpleProcessor.scan_document xml = Ok t' /\
             SimpleProcessor.extract_peak_results xml = t' /\
             forall p n, n <> txt "rz" -> lookup2 t' p n = lookup2 t p n.
Proof.
  intros H. unfold scan_document in H.
  destruct (simple_scan_lines (split_lines xml) ∅ t ∅) as (t' & E & HR);
    [intros p n _; reflexivity|exact H|].
  exists t'. split; [exact E|]. split; [|exact HR].
  unfold SimpleProcessor.extract_peak_results, SimpleProcessor.scan_document.
  now rewrite E.
Qed.

Lemma simple_processor_agrees_witness :
  exists t',
    SimpleProcessor.scan_document
      (document [mn_block; rz_block; pdi_block]) = Ok t' /\
    SimpleProcessor.extract_peak_results
      (document [mn_block; rz_block; pdi_block]) = t' /\
    forall p n, n <> txt "rz" ->
      lookup2 t' p n
      = lookup2 (extract_peak_results
                   (document [mn_block; rz_block; pdi_block])) p n.
Proof.
  apply (simple_processor_agrees (document [mn_block; rz_block; pdi_block])).
  vm_compute. reflexivity.
Defined.

(** ** Values outside the usual range *)

(** X13. A value that is not finite is written without digits, as [nan],
    [inf] or [-inf]; the parenthesis, the marker and the percent sign
    stay. A percentage that is not finite either is written the same
    way. *)
Theorem non_finite_rendering (value : float) (units : text)
    (uncertainty_pct : float) (extra_precision : bool) :
  is_finite value = false ->
  format_value_with_uncertainty value units uncertainty_pct extra_precision
  = non_finite_text value ++ txt " (" ++ PLUS_MINUS ++
    format_f (if extra_precision then 3 else 1) uncertainty_pct ++ txt "%)"
  /\ (is_finite uncertainty_pct = false ->
      format_value_with_uncertainty value units uncertainty_pct
        extra_precision
      = non_finite_text value ++ txt " (" ++ PLUS_MINUS ++
        non_finite_text uncertainty_pct ++ txt "%)").
Proof.
  intros H.
  assert (E : format_value_with_uncertainty value units uncertainty_pct
                extra_precision
              = non_finite_text value ++ txt " (" ++ PLUS_MINUS ++
                format_f (if extra_precision then 3 else 1) uncertainty_pct
                ++ txt "%)").
  { unfold format_value_with_uncertainty, PDI_DECIMAL_PLACES,
      MW_DECIMAL_PLACES.
    destruct value as [s|[|]| |s m e]; try discriminate; reflexivity. }
  split; [exact E|]. intros Hp. rewrite E.
  destruct uncertainty_pct as [s|[|]| |s m e]; try discriminate;
    destruct extra_precision; reflexivity.
Qed.

Lemma non_finite_rendering_witness :
  format_value_with_uncertainty S754_nan (txt "g/mol") S754_nan false
  = non_finite_text S754_nan ++ txt " (" ++ PLUS_MINUS ++
    format_f 1 S754_nan ++ txt "%)"
  /\ (is_finite S754_nan = false ->
      format_value_with_uncertainty S754_nan (txt "g/mol") S754_nan false
      = non_finite_text S754_nan ++ txt " (" ++ PLUS_MINUS ++
        non_finite_text S754_nan ++ txt "%)").
Proof.
  apply (non_finite_rendering S754_nan (txt "g/mol") S754_nan false).
  reflexivity.
Defined.

Lemma float_ge_negative (x : float) :
  sign_bit x = true -> float_ge x (float_of_Z 1000) = false.
Proof.
  destruct x as [s|s| |s m e]; simpl; intros H; try discriminate;
    subst; reflexivity.
Qed.

(** X14. The test [value >= 1000] is on the signed value: a value with the
    sign bit set, however large its magnitude, is never written in
    scientific notation. It is written with a minus sign, all its integer
    digits and one fractional digit. *)
Theorem negative_value_is_fixed (value : float) (units : text)
    (uncertainty_pct : float) (extra_precision : bool) :
  sign_bit value = true -> is_finite value = true ->
  exists digits,
    format_value_with_uncertainty value units uncertainty_pct extra_precision
    = txt "-" ++ digits ++ txt " (" ++ PLUS_MINUS ++
      format_f (if extra_precision then 3 else 1) uncertainty_pct ++ txt "%)"
    /\ txt "-" ++ digits = format_f 1 value
    /\ fixed_shape 1 (txt "-" ++ digits) = true.
Proof.
  intros Hs Hf.
  assert (E : exists digits, format_f 1 value = txt "-" ++ digits).
  { destruct value as [s|s| |s m e]; simpl in Hs; try discriminate; subst.
    - eexists. reflexivity.
    - cbn [format_f]. destruct (ratio m e). eexists. reflexivity. }
  destruct E as [digits E]. exists digits.
  split; [|split; [now rewrite E|]].
  - unfold format_value_with_uncertainty, PDI_DECIMAL_PLACES,
      MW_DECIMAL_PLACES.
    rewrite float_ge_negative by exact Hs. rewrite E.
    rewrite <- !app_assoc. reflexivity.
  - rewrite <- E. now apply format_f_shape.
Qed.

Lemma negative_value_is_fixed_witness :
  exists digits,
    format_value_with_uncertainty (float_of_decimal true 25000 0)
      (txt "g/mol") (float_of_decimal false 12 (-1)) false
    = txt "-" ++ digits ++ txt " (" ++ PLUS_MINUS ++
      format_f 1 (float_of_decimal false 12 (-1)) ++ txt "%)"
    /\ txt "-" ++ digits = format_f 1 (float_of_decimal true 25000 0)
    /\ fixed_shape 1 (txt "-" ++ digits) = true.
Proof.
  apply (negative_value_is_fixed (float_of_decimal true 25000 0)
           (txt "g/mol") (float_of_decimal false 12 (-1)) false).
  - vm_compute. reflexivity.
  - vm_compute. reflexivity.
Defined.

Example negative_value_example :
  format_value_with_uncertainty (float_of_decimal true 25000 0)
    (txt "g/mol") (float_of_decimal false 12 (-1)) false
  = txt "-25000.0 (" ++ PLUS_MINUS ++ txt "1.2%)".
Proof. vm_compute. reflexivity. Qed.

(** ** The order of the report *)

Lemma sorted_peaks_ascending (t : ResultTable) :
  StronglySorted N.lt (sorted_peaks t).
Proof.
  pose proof (sorted_peaks_sorted t) as HS.
  pose proof (sorted_peaks_NoDup t) as HN.
  apply Sorted_StronglySorted in HS; [|intros x y z; apply N.le_trans].
  induction HS as [|p ps HS IH HF]; constructor.
  - apply IH. now apply NoDup_cons_1_2 in HN.
  - apply NoDup_cons in HN as [Hp _].
    rewrite Forall_forall in HF |- *. intros q Hq.
    specialize (HF q Hq).
    assert (p <> q) by (intros ->; apply Hp; now apply list_elem_of_In).
    lia.
Qed.

Lemma peaks_in_order_fst (t : ResultTable) :
  map fst (peaks_in_order t) = sorted_peaks t.
Proof.
  unfold peaks_in_order.
  assert (H : forall p, p ∈ sorted_peaks t -> is_Some (t !! p))
    by (intros p; apply sorted_peaks_key).
  induction (sorted_peaks t) as [|p ps IH]; [reflexivity|].
  cbn [omap list_omap].
  destruct (H p) as [r Hr]; [left|]. rewrite Hr. cbn.
  f_equal. apply IH. intros q Hq. apply H. now right.
Qed.

Lemma summary_lines_peaks (t : ResultTable) :
  summary_lines t =
  [repeat "="%char 50; TITLE; repeat "="%char 50] ++
  concat (map (fun '(p, data) => peak_section p data) (peaks_in_order t)).
Proof.
  unfold summary_lines, peaks_in_order. f_equal.
  induction (sorted_peaks t) as [|p ps IH]; [reflexivity|].
  cbn [map concat omap list_omap].
  destruct (t !! p) as [r|]; cbn [option_map map concat].
  - f_equal. exact IH.
  - exact IH.
Qed.


(** ** The sections of a peak *)

Lemma has_key_spec (data : PeakRecord) (key : string) :
  has_key data key = false <-> data !! txt key = None.
Proof.
  unfold has_key. rewrite bool_decide_eq_false. split.
  - intros H. destruct (data !! txt key); [|reflexivity].
    exfalso. apply H. eauto.
  - intros -> [? ?]. discriminate.
Qed.

(** X16. A section of a peak is left out exactly when the record has none of
    its names: the polydispersity section without [Mw/Mn], the radius
    section without [rz], and the molar mass section without all of [Mn],
    [Mw], [Mp] and [Mz]. *)
Theorem sections_follow_names (data : PeakRecord) :
  (pdi_section data = [] <-> data !! txt "Mw/Mn" = None) /\
  (radius_section data = [] <-> data !! txt "rz" = None) /\
  (mass_section data = [] <->
   data !! txt "Mn" = None /\ data !! txt "Mw" = None /\
   data !! txt "Mp" = None /\ data !! txt "Mz" = None).
Proof.
  split; [|split].
  - unfold pdi_section. rewrite <- has_key_spec.
    destruct (has_key data "Mw/Mn"); split; intros H;
      try reflexivity; discriminate.
  - unfold radius_section. rewrite <- has_key_spec.
    destruct (has_key data "rz"); split; intros H;
      try reflexivity; discriminate.
  - unfold mass_section. cbn [existsb]. rewrite <- !has_key_spec.
    destruct (has_key data "Mn"), (has_key data "Mw"), (has_key data "Mp"),
      (has_key data "Mz"); cbn [orb]; split; intros H;
      try reflexivity; try discriminate;
      try (destruct H as (H1 & H2 & H3 & H4); discriminate);
      repeat split.
Qed.

Lemma entry_line_shown (d d' : PeakRecord) (key : string) (extra : bool) :
  shown d key = shown d' key ->
  entry_line d key extra = entry_line d' key extra.
Proof.
  unfold shown, entry_line.
  destruct (d !! txt key) as [m|], (d' !! txt key) as [m'|]; simpl;
    intros H; try discriminate; [|reflexivity].
  injection H as -> ->. reflexivity.
Qed.

Lemma has_key_shown (d d' : PeakRecord) (key : string) :
  shown d key = shown d' key -> has_key d key = has_key d' key.
Proof.
  unfold shown, has_key.
  destruct (d !! txt key) as [m|], (d' !! txt key) as [m'|];
    cbn [option_map]; intros H; try discriminate H.
  - rewrite !bool_decide_eq_true_2; eauto.
  - rewrite !bool_decide_eq_false_2; auto; intros [? ?]; discriminate.
Qed.

(** X17. The section of a peak shows the value and the percentage of [Mn],
    [Mw], [Mp], [Mw/Mn] and [rz], and whether there is an [Mz]; nothing
    else of the record. Two records that agree on these give the same
    lines: the units, the value of [Mz] and every other name are never
    shown. *)
Theorem report_shows_five_names (peak_num : N) (d d' : PeakRecord) :
  shown d "Mn" = shown d' "Mn" -> shown d "Mw" = shown d' "Mw" ->
  shown d "Mp" = shown d' "Mp" -> shown d "Mw/Mn" = shown d' "Mw/Mn" ->
  shown d "rz" = shown d' "rz" ->
  has_key d "Mz" = has_key d' "Mz" ->
  peak_section peak_num d = peak_section peak_num d'.
Proof.
  intros Hn Hw Hp Hd Hr Hz.
  unfold peak_section, mass_section, pdi_section, radius_section.
  cbn [existsb].
  rewrite (has_key_shown _ _ _ Hn), (has_key_shown _ _ _ Hw),
    (has_key_shown _ _ _ Hp), (has_key_shown _ _ _ Hd),
    (has_key_shown _ _ _ Hr), Hz.
  rewrite (entry_line_shown _ _ _ false Hn), (entry_line_shown _ _ _ false Hw),
    (entry_line_shown _ _ _ false Hp), (entry_line_shown _ _ _ true Hd),
    (entry_line_shown _ _ _ false Hr).
  reflexivity.
Qed.

Lemma report_shows_five_names_witness :
  peak_section 1
    (<[txt "Mn" := {| value := float_of_Z 15000; units := txt "g/mol";
                      uncertainty_pct := float_of_Z 2 |}]>
       (<[txt "Mz" := {| value := float_of_Z 45000; units := txt "g/mol";
                         uncertainty_pct := float_of_Z 2 |}]>
          {[txt "Mv" := {| value := float_of_Z 20000; units := txt "g/mol";
                           uncertainty_pct := float_of_Z 3 |}]}))
  = peak_section 1
      (<[txt "Mn" := {| value := float_of_Z 15000; units := txt "kDa";
                        uncertainty_pct := float_of_Z 2 |}]>
         {[txt "Mz" := {| value := float_of_Z 7; units := [];
                          uncertainty_pct := S754_nan |}]}).
Proof.
  apply report_shows_five_names; vm_compute; reflexivity.
Defined.

(** ** The terminal and the summary file *)

Lemma emits_print (s : text) : emits (print s) [s] [].
Proof. intros o. unfold print. now rewrite app_nil_r. Qed.

Lemma emits_append (s : text) : emits (append_summary s) [] [s].
Proof. intros o. unfold append_summary. now rewrite app_nil_r. Qed.

Lemma emits_nothing : emits do_nothing [] [].
Proof. intros [p s w]. unfold do_nothing. simpl. now rewrite !app_nil_r. Qed.

Lemma emits_then (f g : Output -> Output) (p1 s1 p2 s2 : list text) :
  emits f p1 s1 -> emits g p2 s2 -> emits (f >> g) (p1 ++ p2) (s1 ++ s2).
Proof.
  intros Hf Hg o. unfold then_do. rewrite Hf, Hg. simpl.
  now rewrite !app_assoc.
Qed.

Lemma emits_eq (f : Output -> Output) (p s p' s' : list text) :
  emits f p s -> p = p' -> s = s' -> emits f p' s'.
Proof. now intros H <- <-. Qed.

Lemma show_moment_emits (data : PeakRecord) (key : string) :
  emits (show_moment data key) (entry_line data key false)
        (entry_line data key false).
Proof.
  unfold show_moment, entry_line. destruct (data !! txt key) as [m|].
  - cbv zeta. eapply emits_eq; [repeat first [ apply emits_print | apply emits_append | eapply emits_then ]|reflexivity|reflexivity].
  - apply emits_nothing.
Qed.

Lemma show_mass_emits (data : PeakRecord) :
  emits (show_mass data) (mass_section data) (mass_section data).
Proof.
  unfold show_mass, mass_section.
  destruct (existsb (has_key data) _); [|apply emits_nothing].
  eapply emits_eq.
  - repeat first
      [ apply show_moment_emits | apply emits_print | apply emits_append
      | eapply emits_then ].
  - cbn [app]. rewrite <- ?app_assoc, ?app_nil_r. reflexivity.
  - cbn [app]. rewrite <- ?app_assoc, ?app_nil_r. reflexivity.
Qed.

Lemma show_pdi_emits (data : PeakRecord) :
  emits (show_pdi data) (pdi_section data) (pdi_section data).
Proof.
  unfold show_pdi, pdi_section, entry_line, has_key.
  destruct (data !! txt "Mw/Mn") as [m|].
  - rewrite bool_decide_eq_true_2 by eauto. cbv zeta.
    eapply emits_eq; [repeat first [ apply emits_print | apply emits_append | eapply emits_then ]|reflexivity|reflexivity].
  - rewrite bool_decide_eq_false_2 by (intros [? ?]; discriminate).
    apply emits_nothing.
Qed.

Lemma show_radius_emits (data : PeakRecord) :
  emits (show_radius data) (radius_section data) (radius_section data).
Proof.
  unfold show_radius, radius_section, entry_line, has_key.
  destruct (data !! txt "rz") as [m|].
  - rewrite bool_decide_eq_true_2 by eauto. cbv zeta.
    eapply emits_eq; [repeat first [ apply emits_print | apply emits_append | eapply emits_then ]|reflexivity|reflexivity].
  - rewrite bool_decide_eq_false_2 by (intros [? ?]; discriminate).
    apply emits_nothing.
Qed.

Lemma show_peak_emits (t : ResultTable) (p : N) :
  emits (show_peak t p) (section_of t p) (section_of t p).
Proof.
  unfold show_peak, section_of. destruct (t !! p) as [data|];
    [|apply emits_nothing].
  cbv zeta. unfold peak_section. eapply emits_eq.
  - repeat first
      [ apply show_mass_emits | apply show_pdi_emits | apply show_radius_emits
      | apply emits_print | apply emits_append | eapply emits_then ].
  - cbn [app]. rewrite <- ?app_assoc, ?app_nil_r. reflexivity.
  - cbn [app]. rewrite <- ?app_assoc, ?app_nil_r. reflexivity.
Qed.

Lemma show_peaks_emits (t : ResultTable) (ps : list N) :
  emits (fun o => fold_left (fun o p => show_peak t p o) ps o)
        (concat (map (section_of t) ps)) (concat (map (section_of t) ps)).
Proof.
  induction ps as [|p ps IH]; intros o; cbn [fold_left map concat].
  - now rewrite !app_nil_r; destruct o.
  - rewrite IH, show_peak_emits. simpl. now rewrite !app_assoc.
Qed.


(** ** The older display *)

Lemma print_moment_emits (data : PeakRecord) (key : string) :
  emits (print_moment data key) (entry_line data key false) [].
Proof.
  unfold print_moment, entry_line. destruct (data !! txt key) as [m|].
  - cbv zeta. apply emits_print.
  - apply emits_nothing.
Qed.

Lemma print_mass_emits (data : PeakRecord) :
  emits (print_mass data) (mass_section data) [].
Proof.
  unfold print_mass, mass_section.
  destruct (existsb (has_key data) _); [|apply emits_nothing].
  eapply emits_eq.
  - repeat first
      [ apply print_moment_emits | apply emits_print | eapply emits_then ].
  - cbn [app]. rewrite <- ?app_assoc, ?app_nil_r. reflexivity.
  - reflexivity.
Qed.

Lemma print_pdi_emits (data : PeakRecord) :
  has_key data "Mw/Mn" = false ->
  emits (print_pdi data) (pdi_section data) [].
Proof.
  intros H. unfold print_pdi, pdi_section. rewrite H.
  apply has_key_spec in H. rewrite H. apply emits_nothing.
Qed.

Lemma print_radius_emits (data : PeakRecord) :
  emits (print_radius data) (radius_section data) [].
Proof.
  unfold print_radius, radius_section, entry_line, has_key.
  destruct (data !! txt "rz") as [m|].
  - rewrite bool_decide_eq_true_2 by eauto.
    eapply emits_eq;
      [repeat first [ apply emits_print | eapply emits_then ]
      |reflexivity|reflexivity].
  - rewrite bool_decide_eq_false_2 by (intros [? ?]; discriminate).
    apply emits_nothing.
Qed.

Lemma print_peak_emits (t : ResultTable) (p : N) :
  match t !! p with
  | Some data => has_key data "Mw/Mn" = false
  | None => True
  end ->
  emits (print_peak t p) (section_of t p) [].
Proof.
  unfold print_peak, section_of. destruct (t !! p) as [data|];
    [|intros _; apply emits_nothing].
  intros Hd. unfold peak_section. eapply emits_eq.
  - repeat first
      [ apply print_mass_emits | apply (print_pdi_emits data Hd)
      | apply print_radius_emits | apply emits_print | eapply emits_then ].
  - cbn [app]. rewrite <- ?app_assoc, ?app_nil_r. reflexivity.
  - reflexivity.
Qed.

Lemma print_peaks_emits (t : ResultTable) (ps : list N) :
  forallb (fun p => match t !! p with
                    | Some data => negb (has_key data "Mw/Mn")
                    | None => true
                    end) ps = true ->
  emits (fun o => fold_left (fun o p => print_peak t p o) ps o)
        (concat (map (section_of t) ps)) [].
Proof.
  induction ps as [|p ps IH]; intros H o; cbn [fold_left map concat].
  - now rewrite !app_nil_r; destruct o.
  - cbn [forallb] in H. apply andb_prop in H as [H1 H2].
    rewrite (IH H2), print_peak_emits.
    + simpl. now rewrite !app_assoc, !app_nil_r.
    + destruct (t !! p); [now apply negb_true_iff|exact I].
Qed.



(** ** The newest results file *)

Section LatestFileProofs.
Context {K : Type}.
Variable newer : K -> K -> bool.
Variable mtime : text -> K.
Hypothesis newer_irrefl : forall a, newer a a = false.
Hypothesis newer_trans :
  forall a b c, newer a b = true -> newer b c = true -> newer a c = true.

Lemma newer_asym (a b : K) : newer a b = true -> newer b a = false.
Proof using newer_irrefl newer_trans.
  intros H. destruct (newer b a) eqn:E; [|reflexivity].
  rewrite <- (newer_irrefl a). symmetry. eapply newer_trans; eauto.
Qed.

Lemma max_from_spec (best : text) (files : list text) :
  In (max_from newer mtime best files) (best :: files) /\
  forall g, In g (best :: files) ->
            newer (mtime g) (mtime (max_from newer mtime best files)) = false.
Proof using newer_irrefl newer_trans.
  revert best.
  assert (G : forall (fs : list text) (b : text) (seen : list text),
             (forall g, In g seen -> newer (mtime g) (mtime b) = false) ->
             newer (mtime b) (mtime b) = false ->
             In (max_from newer mtime b fs) (b :: fs) /\
             forall g, In g (seen ++ b :: fs) ->
               newer (mtime g) (mtime (max_from newer mtime b fs))
               = false).
  { clear files.
    induction fs as [|f rest IH]; intros best seen Hseen Hb.
    - simpl. split; [now left|]. intros g Hg. apply in_app_or in Hg.
      destruct Hg as [Hg|[<-|[]]]; auto.
    - cbn [max_from].
      destruct (newer (mtime f) (mtime best)) eqn:E.
      + destruct (IH f (seen ++ [best])) as [I1 I2].
        * intros g Hg. apply in_app_or in Hg. destruct Hg as [Hg|[<-|[]]].
          -- destruct (newer (mtime g) (mtime f)) eqn:E'; [|reflexivity].
             rewrite <- (Hseen g Hg). symmetry. eapply newer_trans; eauto.
          -- now apply newer_asym.
        * apply newer_irrefl.
        * split.
          -- destruct I1 as [<-|I1]; [right; now left|right; now right].
          -- intros g Hg. apply I2. rewrite <- app_assoc. exact Hg.
      + destruct (IH best (seen ++ [f])) as [I1 I2].
        * intros g Hg. apply in_app_or in Hg. destruct Hg as [Hg|[<-|[]]];
            auto.
        * exact Hb.
        * split.
          -- destruct I1 as [<-|I1]; [now left|right; now right].
          -- intros g Hg. apply I2. apply in_app_or in Hg.
             destruct Hg as [Hg|[<-|[<-|Hg]]].
             ++ apply in_or_app. left. apply in_or_app. now left.
             ++ apply in_or_app. right. now left.
             ++ apply in_or_app. left. apply in_or_app. right. now left.
             ++ apply in_or_app. right. now right. }
  intros best. destruct (G files best [] (fun g (H : In g []) => match H with end)
                           (newer_irrefl _)) as [G1 G2].
  split; [exact G1|]. intros g Hg. now apply G2.
Qed.

(** X20. The file [main] reads is the newest of the files of the folder
    whose name starts with [results_xml_] and ends with [.xml]: it is one
    of them and none of them has a later modification time. There is no
    such file exactly when no name of the folder passes the test. *)
Theorem latest_file_is_newest (listing : list text) :
  match latest_file newer mtime listing with
  | Some r =>
      In r listing /\ is_xml_results_file r = true /\
      forall g, In g listing -> is_xml_results_file g = true ->
                newer (mtime g) (mtime r) = false
  | None => forall g, In g listing -> is_xml_results_file g = false
  end.
Proof using newer_irrefl newer_trans.
  unfold latest_file, xml_files.
  destruct (List.filter is_xml_results_file listing) as [|f rest] eqn:E.
  - intros g Hg. destruct (is_xml_results_file g) eqn:Eg; [|reflexivity].
    assert (H : In g (List.filter is_xml_results_file listing))
      by (apply filter_In; auto).
    rewrite E in H. destruct H.
  - destruct (max_from_spec f rest) as [H1 H2].
    rewrite <- E in H1.
    apply filter_In in H1 as [H1a H1b]. split; [exact H1a|].
    split; [exact H1b|]. intros g Hg Hgx. apply H2. rewrite <- E.
    apply filter_In. auto.
Qed.

End LatestFileProofs.

Lemma latest_file_is_newest_witness :
  In (txt "results_xml_b.xml")
     [txt "results_xml_a.xml"; txt "notes.txt";
      txt "results_20260113_151025.xml"; txt "results_xml_b.xml";
      txt "results_xml_c.xml"] /\
  is_xml_results_file (txt "results_xml_b.xml") = true /\
  forall g,
    In g [txt "results_xml_a.xml"; txt "notes.txt";
          txt "results_20260113_151025.xml"; txt "results_xml_b.xml";
          txt "results_xml_c.xml"] ->
    is_xml_results_file g = true ->
    ((if text_eqb g (txt "results_xml_b.xml") then 7 else 3)
     >? (if text_eqb (txt "results_xml_b.xml") (txt "results_xml_b.xml")
         then 7 else 3)) = false.
Proof.
  apply (latest_file_is_newest Z.gtb
           (fun f => if text_eqb f (txt "results_xml_b.xml") then 7 else 3)
           (fun a => eq_trans (Z.gtb_ltb a a) (Z.ltb_irrefl a))
           (fun a b c H1 H2 =>
              proj2 (Z.gtb_gt a c)
                (Z.lt_gt _ _ (Z.lt_trans _ _ _
                   (Z.gt_lt _ _ (proj1 (Z.gtb_gt b c) H2))
                   (Z.gt_lt _ _ (proj1 (Z.gtb_gt a b) H1)))))
           [txt "results_xml_a.xml"; txt "notes.txt";
            txt "results_20260113_151025.xml"; txt "results_xml_b.xml";
            txt "results_xml_c.xml"]).
Defined.

(** ** The names of the results files *)

Lemma ends_with_app (a suffix : text) : ends_with suffix (a ++ suffix) = true.
Proof.
  unfold ends_with, starts_with. rewrite rev_app_distr.
  now rewrite strip_prefix_app.
Qed.

(** X21. The older script looks for files named [results_xml_...xml]. The
    XML results that the two automation scripts save under a time stamp
    are named [results_...xml] and do not pass its test, whatever the time
    stamp, unless it starts with [xml_]; the files that
    [test_real_datasets.py] saves do. *)
Theorem results_file_names (timestamp : text) :
  starts_with (txt "xml_") timestamp = false ->
  is_xml_results_file (results_filename timestamp) = false /\
  is_xml_results_file (xml_results_filename timestamp) = true.
Proof.
  intros H. split.
  - unfold is_xml_results_file, results_filename.
    replace (starts_with (txt "results_xml_")
               (txt "results_" ++ timestamp ++ txt ".xml"))
      with (starts_with (txt "xml_") (timestamp ++ txt ".xml"))
      by (unfold starts_with; cbn [txt list_ascii_of_string app strip_prefix];
          now rewrite !Ascii.eqb_refl).
    replace (starts_with (txt "xml_") (timestamp ++ txt ".xml")) with false;
      [reflexivity|].
    symmetry.
    destruct timestamp as [|c1 [|c2 [|c3 [|c4 r]]]];
      cbn [txt list_ascii_of_string app] in *;
      rewrite ?starts_with_cons in *.
    + reflexivity.
    + change (Ascii.eqb "m" ".") with false. now rewrite andb_false_r.
    + change (Ascii.eqb "l" ".") with false. now rewrite !andb_false_r.
    + change (Ascii.eqb "_" ".") with false. now rewrite !andb_false_r.
    + exact H.
  - unfold is_xml_results_file, xml_results_filename.
    rewrite app_assoc, ends_with_app, andb_true_r.
    unfold starts_with. rewrite <- app_assoc.
    now rewrite strip_prefix_app.
Qed.

Lemma results_file_names_witness :
  is_xml_results_file (results_filename (txt "20260113_151025")) = false /\
  is_xml_results_file (xml_results_filename (txt "20260113_151025")) = true.
Proof.
  apply (results_file_names (txt "20260113_151025")). reflexivity.
Defined.
